(** * letsencrypt-aws: certificate renewal through DNS-01 challenges

    A shallow embedding of [letsencrypt-aws.py].  The script talks to three
    external services (the ACME authority, Route53 and the local file
    system); every call to one of them is an oracle of an environment
    record, its answer is threaded through an explicit world, and the call
    is recorded, with the answer it got, in the list of events of the run.
    Python exceptions are an outcome of their own, and so is a polling
    loop that never ends. *)

From stdpp Require Import base option list sorting strings gmap.
From stdpp Require Import pretty.

Local Open Scope string_scope.
Local Open Scope list_scope.

(** ** Python values *)

(** The exceptions the script raises itself, and those raised by the
    libraries it calls: [IOError] by [open], [write] and [close],
    [ParamValidationError] by a boto3 client that checks the arguments of
    a call against the service's model before it sends anything, and
    [ClientError] for what a service answers. *)
Inductive exn : Type :=
| ValueError (message : string)
| IndexError (message : string)
| IOError (message : string)
| ParamValidationError (report : string)
| ClientError (service message : string).

(** The answer of a library call: a value, or an exception. *)
Inductive result (A : Type) : Type :=
| Ok (a : A)
| Err (e : exn).
Arguments Ok {A} a.
Arguments Err {A} e.

Definition is_ok {A} (r : result A) : bool :=
  match r with Ok _ => true | Err _ => false end.

(** [s.endswith(suffix)] *)
Definition endswith (s suffix : string) : bool :=
  let n := String.length s in
  let m := String.length suffix in
  (m <=? n)%nat && String.eqb (String.substring (n - m) m s) suffix.

(** [c in s] for a character. *)
Fixpoint has_char (c : Ascii.ascii) (s : string) : bool :=
  match s with
  | EmptyString => false
  | String c' rest => Ascii.eqb c' c || has_char c rest
  end.

(** The double quote character, and ['"{}"'.format(value)]. *)
Definition dquote : string := String (Ascii.ascii_of_nat 34) EmptyString.
Definition quoted (value : string) : string := dquote +:+ value +:+ dquote.

Definition newline : string := String (Ascii.ascii_of_nat 10) EmptyString.

(** [sep.join(parts)] *)
Fixpoint join (sep : string) (parts : list string) : string :=
  match parts with
  | [] => EmptyString
  | [p] => p
  | p :: rest => p +:+ sep +:+ join sep rest
  end.

(** ** Key material and signing requests (cryptography.x509) *)

Inductive PrivateKey : Type :=
| RSAPrivateKey (public_exponent key_size : N) (secret : string)
| ECPrivateKey (curve : string) (secret : string).

(** The arguments of [private_bytes] (cryptography's serialization). *)
Inductive Encoding : Type := PEM | DER.
Inductive PrivateFormat : Type := TraditionalOpenSSL | PKCS8.
Inductive KeySerializationEncryption : Type :=
| NoEncryption
| BestAvailableEncryption (password : string).

Record NameAttribute := mkNameAttribute { oid : string; value : string }.

Definition COMMON_NAME : string := "2.5.4.3".

Inductive GeneralName : Type :=
| DNSName (name : string).

Inductive ExtensionType : Type :=
| SubjectAlternativeName (names : list GeneralName).

Record Extension := mkExtension { ext_value : ExtensionType; critical : bool }.

(** What [CertificateSigningRequestBuilder] has collected. *)
Record CertificateSigningRequestBuilder := mkBuilder {
  builder_subject : option (list NameAttribute);
  builder_extensions : list Extension
}.

Definition new_builder : CertificateSigningRequestBuilder :=
  {| builder_subject := None; builder_extensions := [] |}.

Definition subject_name (name : list NameAttribute)
    (b : CertificateSigningRequestBuilder) : CertificateSigningRequestBuilder :=
  {| builder_subject := Some name; builder_extensions := builder_extensions b |}.

Definition add_extension (ext : ExtensionType) (crit : bool)
    (b : CertificateSigningRequestBuilder) : CertificateSigningRequestBuilder :=
  {| builder_subject := builder_subject b;
     builder_extensions :=
       builder_extensions b ++ [ {| ext_value := ext; critical := crit |} ] |}.

Record CertificateSigningRequest := mkCSR {
  csr_subject : list NameAttribute;
  csr_extensions : list Extension;
  csr_key : PrivateKey;
  csr_hash : string
}.

Definition sign (b : CertificateSigningRequestBuilder) (private_key : PrivateKey)
    (hash : string) : CertificateSigningRequest :=
  {| csr_subject := default [] (builder_subject b);
     csr_extensions := builder_extensions b;
     csr_key := private_key;
     csr_hash := hash |}.

(** [generate_csr]: [hosts[0]] raises IndexError on an empty list. *)
Definition generate_csr (private_key : PrivateKey) (hosts : list string)
    : result CertificateSigningRequest :=
  match hosts with
  | [] => Err (IndexError "list index out of range")
  | host0 :: _ =>
      let csr_builder :=
        add_extension
          (SubjectAlternativeName (map DNSName hosts))
          false
          (subject_name [ {| oid := COMMON_NAME; value := host0 |} ] new_builder) in
      Ok (sign csr_builder private_key "SHA256")
  end.

(** The readers a relying party applies to a request. *)
Definition common_names (csr : CertificateSigningRequest) : list string :=
  map value (filter (fun a => oid a = COMMON_NAME) (csr_subject csr)).

Definition dns_name (g : GeneralName) : string :=
  match g with DNSName n => n end.

Definition san_extensions (csr : CertificateSigningRequest) : list Extension :=
  csr_extensions csr.

Definition san_names (e : Extension) : list string :=
  match ext_value e with SubjectAlternativeName names => map dns_name names end.

(** ** ACME authorizations *)

Inductive Challenge : Type :=
| DNS01 (token : string)
| HTTP01 (token : string)
| TLSSNI01 (token : string).

Definition is_DNS01 (c : Challenge) : bool :=
  match c with DNS01 _ => true | _ => false end.

Record ChallengeBody := mkChallengeBody { chall : Challenge; uri : string }.

Record Authorization := mkAuthorization {
  authz_uri : string;
  resolved_combinations : list (list ChallengeBody)
}.

(** [find_dns_challenge]: the generator, as the list of what it yields. *)
Fixpoint find_dns_challenge_combos (combos : list (list ChallengeBody))
    : list ChallengeBody :=
  match combos with
  | [] => []
  | combo :: rest =>
      match combo with
      | [c] =>
          if is_DNS01 (chall c)
          then c :: find_dns_challenge_combos rest
          else find_dns_challenge_combos rest
      | _ => find_dns_challenge_combos rest
      end
  end.

Definition find_dns_challenge (authz : Authorization) : list ChallengeBody :=
  find_dns_challenge_combos (resolved_combinations authz).

(** ** Route53 *)

Record HostedZone := mkHostedZone { Name : string; Id : string }.

Definition DNS_TTL : N := 30.

(** The arguments of [change_resource_record_sets]; [HostedZoneId] holds
    whatever [find_zone_id_for_domain] returned, Python's [None] included. *)
Record ChangeRequest := mkChangeRequest {
  HostedZoneId : option string;
  Action : string;
  RecordName : string;
  RecordType : string;
  TTL : N;
  ResourceRecords : list string
}.

(** The test of the inner loop of [find_zone_id_for_domain]. *)
Definition zone_matches (domain : string) (zone : HostedZone) : bool :=
  endswith domain (Name zone) || endswith (domain +:+ ".") (Name zone).

(** ** The record kept for every published challenge *)

Record AuthorizationRecord := mkAuthorizationRecord {
  host : string;
  authz : Authorization;
  dns_challenge : ChallengeBody;
  route53_change_id : string;
  route53_zone_id : option string
}.

(** ** The ACME client library and its values *)

(** [acme_client]: the account key and the directory's new-authz URL. *)
Record AcmeClient := mkAcmeClient { key : string; new_authz : string }.

Record ChallengeResponse := mkChallengeResponse { key_authorization : string }.

Inductive X509 : Type :=
| X509Certificate (der : string).

Record CertificateResource := mkCertificateResource { cert_uri : string; body : X509 }.

(** ** Files

    How [f = open(path, 'w'); f.write(content); f.close()] ended: the
    content is stored, or one of the three statements raised.  In that
    case the file is as it was when [open] raised ([remains] is [None]), and
    holds what the file system kept of the content otherwise. *)
Inductive written : Type :=
| Stored
| NotStored (e : exn) (remains : option string).

(** The files after a write that raised. *)
Definition left_files (path : string) (remains : option string)
    (fs : gmap string string) : gmap string string :=
  match remains with
  | Some kept => <[path := kept]> fs
  | None => fs
  end.

(** ** The world outside the script

    [W] is the state of everything the script does not own: the authority,
    the DNS provider and the source of randomness.  A call that can change
    it takes the world and gives the next one with its answer; the pure
    methods of the libraries are functions. *)
Record Env (W : Type) := mkEnv {
  (* cryptography *)
  fresh_key_material : W -> string * W;
  private_bytes :
    PrivateKey -> Encoding -> PrivateFormat -> KeySerializationEncryption -> string;
  (* acme.client.Client and acme.challenges *)
  request_domain_challenges : string -> string -> W -> result Authorization * W;
  validation_domain_name : ChallengeBody -> string -> string;
  validation : ChallengeBody -> string -> string;
  response : ChallengeBody -> string -> ChallengeResponse;
  public_key : string -> string;
  simple_verify : ChallengeResponse -> Challenge -> string -> string -> bool;
  answer_challenge : ChallengeBody -> ChallengeResponse -> W -> result unit * W;
  poll_and_request_issuance :
    CertificateSigningRequest -> list Authorization -> W
    -> result CertificateResource * W;
  fetch_chain : CertificateResource -> W -> result (list X509) * W;
  dump_certificate : X509 -> string;
  (* boto3 route53 client; the paginator's pages are fetched one by one,
     and fetching a page may fail *)
  list_hosted_zones : W -> list (result (list HostedZone));
  change_resource_record_sets : ChangeRequest -> W -> result string * W;
  get_change : string -> W -> result string * W;
  (* the file system: whether a text can be written to a path *)
  write_text : string -> string -> W -> written * W
}.
Arguments fresh_key_material {W} _ _.
Arguments private_bytes {W} _ _ _ _ _.
Arguments request_domain_challenges {W} _ _ _ _.
Arguments validation_domain_name {W} _ _ _.
Arguments validation {W} _ _ _.
Arguments response {W} _ _ _.
Arguments public_key {W} _ _.
Arguments simple_verify {W} _ _ _ _ _.
Arguments answer_challenge {W} _ _ _ _.
Arguments poll_and_request_issuance {W} _ _ _ _.
Arguments fetch_chain {W} _ _ _.
Arguments dump_certificate {W} _ _.
Arguments list_hosted_zones {W} _ _.
Arguments change_resource_record_sets {W} _ _ _.
Arguments get_change {W} _ _ _.
Arguments write_text {W} _ _ _ _.

(** What a run does to the outside, in the order it does it; a call is
    recorded with the answer it received. *)
Inductive event : Type :=
| LogEmit (name : string) (data : list (string * string))
| GenerateKey (k : PrivateKey)
| FileWrite (path content : string) (r : written)
| RequestDomainChallenges (h : string) (r : result Authorization)
| ListHostedZonesPage (r : result (list HostedZone))
| ChangeResourceRecordSets (req : ChangeRequest) (r : result string)
| GetChange (change_id : string) (r : result string)
| Sleep (seconds : N)
| AnswerChallenge (c : ChallengeBody) (resp : ChallengeResponse) (r : result unit)
| PollAndRequestIssuance (csr : CertificateSigningRequest)
    (authzrs : list Authorization) (r : result CertificateResource)
| FetchChain (c : CertificateResource) (r : result (list X509)).

(** How a computation ends: with a value, with an exception, or never
    (the polling budget of the model is used up). *)
Inductive outcome (A : Type) : Type :=
| Returned (a : A)
| Raised (e : exn)
| Diverged.
Arguments Returned {A} a.
Arguments Raised {A} e.
Arguments Diverged {A}.

Definition terminated {A} (o : outcome A) : bool :=
  match o with Diverged => false | _ => true end.

Definition returned {A} (o : outcome A) : option A :=
  match o with Returned a => Some a | _ => None end.

Section Program.

Context {W : Type}.
Variable env : Env W.

(** The state a run works on: the world, the files, and the list
    [authorizations] of [update_elb], which its [try] block appends to and
    its [finally] block reads. *)
Record State := mkState {
  world : W;
  files : gmap string string;
  authorizations : list AuthorizationRecord
}.

Definition Run (A : Type) : Type := outcome A * State * list event.

Definition out {A} (r : Run A) : outcome A := r.1.1.
Definition final {A} (r : Run A) : State := r.1.2.
Definition events {A} (r : Run A) : list event := r.2.

Definition M (A : Type) : Type := State -> Run A.

Definition ret {A} (a : A) : M A := fun s => (Returned a, s, []).

Definition bind {A B} (m : M A) (f : A -> M B) : M B := fun s =>
  match m s with
  | (Returned a, s1, ev1) =>
      match f a s1 with (o, s2, ev2) => (o, s2, ev1 ++ ev2) end
  | (Raised e, s1, ev1) => (Raised e, s1, ev1)
  | (Diverged, s1, ev1) => (Diverged, s1, ev1)
  end.

Definition raise {A} (e : exn) : M A := fun s => (Raised e, s, []).

Definition diverge {A} : M A := fun s => (Diverged, s, []).

(** [try: body finally: handler].  The handler runs when the body returns
    and when it raises; an exception of the handler replaces the body's. *)
Definition try_finally {A} (body : M A) (handler : M unit) : M A := fun s =>
  match body s with
  | (Diverged, s1, ev1) => (Diverged, s1, ev1)
  | (o, s1, ev1) =>
      match handler s1 with
      | (Returned _, s2, ev2) => (o, s2, ev1 ++ ev2)
      | (Raised e, s2, ev2) => (Raised e, s2, ev1 ++ ev2)
      | (Diverged, s2, ev2) => (Diverged, s2, ev1 ++ ev2)
      end
  end.

#[global] Instance M_ret : MRet M := @ret.
#[global] Instance M_bind : MBind M := fun A B f m => bind m f.

(** [for x in l: body(x)] *)
Fixpoint for_each {A} (l : list A) (body : A -> M unit) : M unit :=
  match l with
  | [] => ret tt
  | x :: rest => body x ;; for_each rest body
  end.

(** A library call that may change the world. *)
Definition call {A} (f : W -> result A * W) (ev : result A -> event) : M A :=
  fun s =>
    match f (world s) with
    | (r, w) =>
        let s' := {| world := w; files := files s;
                     authorizations := authorizations s |} in
        (match r with Ok a => Returned a | Err e => Raised e end, s', [ev r])
    end.

Definition of_result {A} (r : result A) : M A :=
  match r with Ok a => ret a | Err e => raise e end.

Definition emit (name : string) (data : list (string * string)) : M unit :=
  fun s => (Returned tt, s, [LogEmit name data]).

Definition sleep (seconds : N) : M unit :=
  fun s => (Returned tt, s, [Sleep seconds]).

(** [f = open(path, 'w'); f.write(content); f.close()] *)
Definition write_file (path content : string) : M unit :=
  fun s =>
    match write_text env path content (world s) with
    | (Stored, w) =>
        (Returned tt,
         {| world := w; files := <[path := content]> (files s);
            authorizations := authorizations s |},
         [FileWrite path content Stored])
    | (NotStored e remains, w) =>
        (Raised e,
         {| world := w; files := left_files path remains (files s);
            authorizations := authorizations s |},
         [FileWrite path content (NotStored e remains)])
    end.

Definition get_authorizations : M (list AuthorizationRecord) :=
  fun s => (Returned (authorizations s), s, []).

Definition set_authorizations (l : list AuthorizationRecord) : M unit :=
  fun s =>
    (Returned tt,
     {| world := world s; files := files s; authorizations := l |}, []).

(** [authorizations.append(authz_record)] *)
Definition append_authorization (r : AuthorizationRecord) : M unit :=
  l ← get_authorizations; set_authorizations (l ++ [r]).

(** ** The functions of the script

    The handles [logger], [elb_client], [route53_client] and [iam_client]
    of the source stand for the outside world, which is [env] and the
    world of the state here; the other arguments are kept. *)

(** [repr] of a unicode text, as Python 2 prints the strings of a JSON
    document.  A character of the model is a code point below 256.  The
    text is put between apostrophes, or between double quotes when it
    holds an apostrophe and no double quote; the quote in use and the
    backslash are escaped with a backslash, tab, line feed and carriage
    return are written [\t], [\n] and [\r], and every other code point
    below 32 or above 126 is written [\x] and two hexadecimal digits. *)
Definition apostrophe : Ascii.ascii := Ascii.ascii_of_nat 39.
Definition double_quote : Ascii.ascii := Ascii.ascii_of_nat 34.
Definition backslash : Ascii.ascii := Ascii.ascii_of_nat 92.

Definition hex_digit (n : nat) : Ascii.ascii :=
  if (n <? 10)%nat then Ascii.ascii_of_nat (48 + n)
  else Ascii.ascii_of_nat (87 + n).

Definition escape_char (quote c : Ascii.ascii) : string :=
  let n := Ascii.nat_of_ascii c in
  if Ascii.eqb c quote || Ascii.eqb c backslash
  then String backslash (String c EmptyString)
  else if (n =? 9)%nat then String backslash "t"
  else if (n =? 10)%nat then String backslash "n"
  else if (n =? 13)%nat then String backslash "r"
  else if (n <? 32)%nat || (127 <=? n)%nat
  then String backslash
         ("x" +:+ String (hex_digit (n / 16))
                    (String (hex_digit (n mod 16)) EmptyString))
  else String c EmptyString.

Fixpoint escape (quote : Ascii.ascii) (s : string) : string :=
  match s with
  | EmptyString => EmptyString
  | String c rest => escape_char quote c +:+ escape quote rest
  end.

Definition repr (s : string) : string :=
  let quote :=
    if has_char apostrophe s && negb (has_char double_quote s)
    then double_quote else apostrophe in
  "u" +:+ String quote (escape quote s +:+ String quote EmptyString).

Definition fresh_key (make : string -> PrivateKey) : M PrivateKey := fun s =>
  match fresh_key_material env (world s) with
  | (secret, w) =>
      (Returned (make secret),
       {| world := w; files := files s; authorizations := authorizations s |},
       [GenerateKey (make secret)])
  end.

Definition generate_rsa_private_key : M PrivateKey :=
  fresh_key (RSAPrivateKey 65537 2048).

Definition generate_ecdsa_private_key : M PrivateKey :=
  fresh_key (ECPrivateKey "secp256r1").

(** The inner loop of [find_zone_id_for_domain] over one page. *)
Fixpoint scan_zones (domain : string) (zones : list HostedZone) : option string :=
  match zones with
  | [] => None
  | zone :: rest =>
      if zone_matches domain zone then Some (Id zone) else scan_zones domain rest
  end.

(** The outer loop: a page is fetched when the loop reaches it.  Falling
    off the end of the function returns [None]. *)
Fixpoint scan_pages (domain : string) (pages : list (result (list HostedZone)))
    : M (option string) :=
  match pages with
  | [] => ret None
  | page :: rest =>
      zones ← (fun s => (match page with Ok z => Returned z | Err e => Raised e end,
                         s, [ListHostedZonesPage page]));
      match scan_zones domain zones with
      | Some zone_id => ret (Some zone_id)
      | None => scan_pages domain rest
      end
  end.

Definition find_zone_id_for_domain (domain : string) : M (option string) :=
  fun s => scan_pages domain (list_hosted_zones env (world s)) s.

(** [while True]: each round of the loop uses one unit of [fuel]. *)
Fixpoint wait_for_route53_change (fuel : nat) (change_id : string) : M unit :=
  match fuel with
  | O => diverge
  | S fuel' =>
      status ← call (get_change env change_id) (GetChange change_id);
      if String.eqb status "INSYNC" then ret tt
      else sleep 5;; wait_for_route53_change fuel' change_id
  end.

(** The boto3 client checks the arguments of a call before it sends
    anything: [HostedZoneId] is a string of the service's model, and the
    call is refused with [ParamValidationError] when it is [None]. *)
Definition invalid_zone_id : exn :=
  ParamValidationError
    "Invalid type for parameter HostedZoneId, value: None, type: <type 'NoneType'>, valid types: <type 'basestring'>".

Definition change_txt_record (action : string) (zone_id : option string)
    (domain value : string) : M string :=
  let request :=
    {| HostedZoneId := zone_id;
       Action := action;
       RecordName := domain;
       RecordType := "TXT";
       TTL := DNS_TTL;
       ResourceRecords := [quoted value] |} in
  match zone_id with
  | Some _ =>
      call (change_resource_record_sets env request)
           (ChangeResourceRecordSets request)
  | None =>
      fun s =>
        (Raised invalid_zone_id, s,
         [ChangeResourceRecordSets request (Err invalid_zone_id)])
  end.

(** [[x] = iterable] *)
Definition unpack_one {A} (l : list A) : M A :=
  match l with
  | [] => raise (ValueError "need more than 0 values to unpack")
  | [x] => ret x
  | _ :: _ :: _ => raise (ValueError "too many values to unpack")
  end.

Definition start_dns_challenge (acme_client : AcmeClient) (elb_name host : string)
    : M AuthorizationRecord :=
  emit "updating-elb.request-acme-challenge"
    [("elb_name", elb_name); ("host", host)];;
  authz ← call (request_domain_challenges env host (new_authz acme_client))
               (RequestDomainChallenges host);
  dns_challenge ← unpack_one (find_dns_challenge authz);
  zone_id ← find_zone_id_for_domain host;
  emit "updating-elb.create-txt-record"
    [("elb_name", elb_name); ("host", host)];;
  change_id ← change_txt_record "CREATE" zone_id
                (validation_domain_name env dns_challenge host)
                (validation env dns_challenge (key acme_client));
  ret {| host := host; authz := authz; dns_challenge := dns_challenge;
         route53_change_id := change_id; route53_zone_id := zone_id |}.

Definition complete_dns_challenge (fuel : nat) (acme_client : AcmeClient)
    (elb_name : string) (authz_record : AuthorizationRecord) : M unit :=
  emit "updating-elb.wait-for-route53"
    [("elb_name", elb_name); ("host", host authz_record)];;
  wait_for_route53_change fuel (route53_change_id authz_record);;
  let response := response env (dns_challenge authz_record) (key acme_client) in
  emit "updating-elb.local-validation"
    [("elb_name", elb_name); ("host", host authz_record)];;
  let verified :=
    simple_verify env response (chall (dns_challenge authz_record))
      (host authz_record) (public_key env (key acme_client)) in
  (if negb verified then raise (ValueError "Failed verification") else ret tt);;
  emit "updating-elb.answer-challenge"
    [("elb_name", elb_name); ("host", host authz_record)];;
  call (answer_challenge env (dns_challenge authz_record) response)
       (AnswerChallenge (dns_challenge authz_record) response).

Definition request_certificate (acme_client : AcmeClient) (elb_name : string)
    (authorizations : list AuthorizationRecord) (csr : CertificateSigningRequest)
    : M (string * string) :=
  emit "updating-elb.request-cert" [("elb_name", elb_name)];;
  let authzrs := map authz authorizations in
  cert_response ← call (poll_and_request_issuance env csr authzrs)
                       (PollAndRequestIssuance csr authzrs);
  let pem_certificate := dump_certificate env (body cert_response) in
  chain ← call (fetch_chain env cert_response) (FetchChain cert_response);
  let pem_certificate_chain := join newline (map (dump_certificate env) chain) in
  ret (pem_certificate, pem_certificate_chain).

(** A listener description, a JSON object with numbers for values. *)
Definition Listener : Type := list (string * N).

(** The [try] block of [update_elb]. *)
Definition update_elb_try (fuel : nat) (acme_client : AcmeClient)
    (elb_name : string) (hosts : list string) (csr : CertificateSigningRequest)
    (fullchain_path : string) : M unit :=
  for_each hosts (fun host =>
    authz_record ← start_dns_challenge acme_client elb_name host;
    append_authorization authz_record);;
  authorizations ← get_authorizations;
  for_each authorizations (fun authz_record =>
    complete_dns_challenge fuel acme_client elb_name authz_record);;
  authorizations ← get_authorizations;
  '(pem_certificate, pem_certificate_chain) ←
    request_certificate acme_client elb_name authorizations csr;
  write_file fullchain_path (pem_certificate +:+ pem_certificate_chain).

(** The [finally] block of [update_elb]. *)
Definition update_elb_finally (acme_client : AcmeClient) (elb_name : string)
    : M unit :=
  authorizations ← get_authorizations;
  for_each authorizations (fun authz_record =>
    emit "updating-elb.delete-txt-record"
      [("elb_name", elb_name); ("host", host authz_record)];;
    let dns_challenge := dns_challenge authz_record in
    change_txt_record "DELETE" (route53_zone_id authz_record)
      (validation_domain_name env dns_challenge (host authz_record))
      (validation env dns_challenge (key acme_client));;
    ret tt).

Definition update_elb (fuel : nat) (acme_client : AcmeClient) (force_issue : bool)
    (elb_name : string) (listener : Listener) (hosts : list string)
    (key_type : string) (cert_only create_listener : bool)
    (fullchain_path privatekey_path : string) : M unit :=
  emit "updating-elb" [("elb_name", elb_name)];;
  private_key ←
    (if String.eqb key_type "rsa" then generate_rsa_private_key
     else if String.eqb key_type "ecdsa" then generate_ecdsa_private_key
     else raise (ValueError ("Invalid key_type: " +:+ repr key_type)));
  write_file privatekey_path
    (private_bytes env private_key PEM TraditionalOpenSSL NoEncryption);;
  csr ← of_result (generate_csr private_key hosts);
  set_authorizations [];;
  try_finally
    (update_elb_try fuel acme_client elb_name hosts csr fullchain_path)
    (update_elb_finally acme_client elb_name).

(** One entry of the configuration's [domains]; [listener] and [key_type]
    are optional there. *)
Record DomainEntry := mkDomainEntry {
  elb_name : string;
  elb_listener : option Listener;
  entry_hosts : list string;
  entry_key_type : option string
}.

Definition update_elbs (fuel : nat) (acme_client : AcmeClient) (force_issue : bool)
    (domains : list DomainEntry) (cert_only create_listener : bool)
    (fullchain_path privatekey_path : string) : M unit :=
  for_each domains (fun domain =>
    update_elb fuel acme_client force_issue
      (elb_name domain)
      (default [("load_balancer_port", 443%N)] (elb_listener domain))
      (entry_hosts domain)
      (default "rsa" (entry_key_type domain))
      cert_only create_listener fullchain_path privatekey_path).

End Program.

Arguments State W : clear implicits.
Arguments mkState {W} _ _ _.

(** ** A scripted outside world

    A world whose answers are fixed by a configuration: the pages of
    hosted zones, the combinations the authority offers for a host, the
    changes the DNS provider refuses, how many status polls answer
    PENDING, whether verification and issuance succeed, and the paths
    that cannot be opened for writing.  The world itself counts the calls
    that changed it. *)
Module Scenario.

Record Config := mkConfig {
  pages : list (result (list HostedZone));
  offered : string -> list (list ChallengeBody);
  refused : ChangeRequest -> bool;
  pending_polls : nat;
  verifies : bool;
  issues : bool;
  unwritable : string -> bool
}.

Definition token (c : Challenge) : string :=
  match c with DNS01 t | HTTP01 t | TLSSNI01 t => t end.

Definition secret (k : PrivateKey) : string :=
  match k with RSAPrivateKey _ _ s | ECPrivateKey _ s => s end.

Definition env (cfg : Config) : Env nat :=
  {| fresh_key_material := fun w => ("secret", S w);
     private_bytes := fun k encoding _ encryption =>
       match encoding, encryption with
       | PEM, NoEncryption => "PEM " +:+ secret k
       | _, _ => "opaque"
       end;
     request_domain_challenges := fun h _ w =>
       (Ok {| authz_uri := "authz/" +:+ h;
              resolved_combinations := offered cfg h |}, S w);
     validation_domain_name := fun _ h => "_acme-challenge." +:+ h;
     validation := fun c k => token (chall c) +:+ "." +:+ k;
     response := fun c k =>
       {| key_authorization := token (chall c) +:+ "." +:+ k |};
     public_key := fun k => "public " +:+ k;
     simple_verify := fun _ _ _ _ => verifies cfg;
     answer_challenge := fun _ _ w => (Ok tt, S w);
     poll_and_request_issuance := fun _ _ w =>
       (if issues cfg
        then Ok {| cert_uri := "cert/1"; body := X509Certificate "leaf" |}
        else Err (ClientError "acme" "issuance refused"), S w);
     fetch_chain := fun _ w => (Ok [X509Certificate "intermediate"], w);
     dump_certificate := fun c => match c with X509Certificate d => "PEM " +:+ d end;
     list_hosted_zones := fun _ => pages cfg;
     change_resource_record_sets := fun req w =>
       (if refused cfg req
        then Err (ClientError "route53" "InvalidChangeBatch")
        else Ok ("/change/" +:+ RecordName req), S w);
     get_change := fun _ w =>
       (Ok (if (w <? pending_polls cfg)%nat then "PENDING" else "INSYNC"), S w);
     write_text := fun path _ w =>
       (if unwritable cfg path
        then NotStored (IOError ("[Errno 13] Permission denied: '" +:+ path +:+ "'"))
               None
        else Stored, w) |}.

Definition dns01 (t : string) : list ChallengeBody :=
  [ {| chall := DNS01 t; uri := "chall/" +:+ t |} ].
Definition http01 (t : string) : list ChallengeBody :=
  [ {| chall := HTTP01 t; uri := "chall/" +:+ t |} ].

Definition example_com : HostedZone := {| Name := "example.com."; Id := "Z1" |}.

(** Everything goes well: one zone, one DNS-01 combination per host. *)
Definition sunny : Config :=
  {| pages := [Ok [example_com]];
     offered := fun h => [http01 ("h-" +:+ h); dns01 ("t-" +:+ h)];
     refused := fun _ => false;
     pending_polls := 0;
     verifies := true;
     issues := true;
     unwritable := fun _ => false |}.

(** A broader zone listed before the specific one. *)
Definition com : HostedZone := {| Name := "com."; Id := "Z0" |}.

Definition broad_first : Config :=
  {| pages := [Ok [com; example_com]];
     offered := offered sunny;
     refused := fun _ => false;
     pending_polls := 0;
     verifies := true;
     issues := true;
     unwritable := fun _ => false |}.

(** No zone of the account holds the hosts; the provider itself refuses
    nothing. *)
Definition example_org : HostedZone := {| Name := "example.org."; Id := "Z9" |}.


(** The key file cannot be opened for writing. *)
Definition read_only (path : string) : Config :=
  {| pages := [Ok [example_com]];
     offered := offered sunny;
     refused := fun _ => false;
     pending_polls := 0;
     verifies := true;
     issues := true;
     unwritable := String.eqb path |}.

(** The provider refuses to delete the record of one host. *)
Definition delete_refused (h : string) : Config :=
  {| pages := [Ok [example_com]];
     offered := offered sunny;
     refused := fun req =>
       String.eqb (Action req) "DELETE"
       && String.eqb (RecordName req) ("_acme-challenge." +:+ h);
     pending_polls := 0;
     verifies := true;
     issues := true;
     unwritable := fun _ => false |}.

(** The local verification fails; the DNS change is in sync at the
    second poll. *)
Definition unverifiable : Config :=
  {| pages := [Ok [example_com]];
     offered := offered sunny;
     refused := fun _ => false;
     pending_polls := 1;
     verifies := false;
     issues := true;
     unwritable := fun _ => false |}.

(** The authority refuses to issue. *)
Definition no_issuance : Config :=
  {| pages := [Ok [example_com]];
     offered := offered sunny;
     refused := fun _ => false;
     pending_polls := 0;
     verifies := true;
     issues := false;
     unwritable := fun _ => false |}.

Definition client : AcmeClient := {| key := "account"; new_authz := "new-authz" |}.

(** Two entries of a configuration; the first asks for a key type the
    script does not know. *)
Definition first_entry : DomainEntry :=
  {| elb_name := "first"; elb_listener := None;
     entry_hosts := ["a.example.com"]; entry_key_type := Some "dsa" |}.

Definition second_entry : DomainEntry :=
  {| elb_name := "second"; elb_listener := None;
     entry_hosts := ["b.example.com"]; entry_key_type := None |}.

(** A record as [start_dns_challenge] returns it in these worlds. *)
Definition record_of (h : string) : AuthorizationRecord :=
  {| host := h;
     authz := {| authz_uri := "authz/" +:+ h; resolved_combinations := offered sunny h |};
     dns_challenge := {| chall := DNS01 ("t-" +:+ h); uri := "chall/t-" +:+ h |};
     route53_change_id := "/change/_acme-challenge." +:+ h;
     route53_zone_id := Some "Z1" |}.

Definition start : State nat :=
  {| world := 0; files := ∅; authorizations := [] |}.

(** The run of [update_elb] for a list of hosts in a scripted world. *)
Definition renew (cfg : Config) (hosts : list string) : Run unit :=
  update_elb (env cfg) 3 client false "elb" [("load_balancer_port", 443%N)]
    hosts "rsa" false false "/fullchain" "/key" start.

End Scenario.

(** ** Vocabulary of the properties *)

(** The zone resolution the specification asks for: among the zones that
    match, the one with the longest name; of two equally long names the
    one listed first. *)
Fixpoint longest_match (domain : string) (zones : list HostedZone)
    : option HostedZone :=
  match zones with
  | [] => None
  | z :: rest =>
      let later := longest_match domain rest in
      if zone_matches domain z then
        match later with
        | Some b =>
            if (String.length (Name z) <? String.length (Name b))%nat
            then Some b else Some z
        | None => Some z
        end
      else later
  end.

(** Zones listed most specific first, the order the source assumes. *)
Definition most_specific_first (zones : list HostedZone) : Prop :=
  StronglySorted
    (fun a b => (String.length (Name b) <= String.length (Name a))%nat) zones.

(** The calls to [change_resource_record_sets] of a run, with their answers. *)
Definition change_call (e : event) : option (ChangeRequest * result string) :=
  match e with
  | ChangeResourceRecordSets req r => Some (req, r)
  | _ => None
  end.

Definition change_calls (evs : list event) : list (ChangeRequest * result string) :=
  omap change_call evs.

Definition has_action (action : string) (c : ChangeRequest * result string) : bool :=
  String.eqb (Action c.1) action.

Definition answered_ok (c : ChangeRequest * result string) : bool := is_ok c.2.

(** What identifies a TXT record at the provider: zone, name and values. *)
Definition record_key (req : ChangeRequest) : option string * string * list string :=
  (HostedZoneId req, RecordName req, ResourceRecords req).

(** The records a run created: its CREATE calls that were answered. *)
Definition created (evs : list event) : list ChangeRequest :=
  map fst (filter (fun c => has_action "CREATE" c && answered_ok c = true)
             (change_calls evs)).

(** The DELETE calls a run made, answered or not. *)
Definition delete_calls (evs : list event) : list (ChangeRequest * result string) :=
  filter (fun c => has_action "DELETE" c = true) (change_calls evs).

(** The change that publishes ([CREATE]) or withdraws ([DELETE]) the TXT
    record of an authorization record. *)
Definition record_request {W} (env : Env W) (acme_client : AcmeClient)
    (action : string) (r : AuthorizationRecord) : ChangeRequest :=
  {| HostedZoneId := route53_zone_id r;
     Action := action;
     RecordName := validation_domain_name env (dns_challenge r) (host r);
     RecordType := "TXT";
     TTL := DNS_TTL;
     ResourceRecords := [quoted (validation env (dns_challenge r) (key acme_client))] |}.

(** The changes of a list of records, each answered with a change id. *)
Definition answered_calls {W} (env : Env W) (acme_client : AcmeClient)
    (action : string) (recs : list AuthorizationRecord) (ids : list string)
    : list (ChangeRequest * result string) :=
  zip_with (fun r id => (record_request env acme_client action r, Ok id)) recs ids.

(** The CREATE calls that published a list of records. *)
Definition create_calls {W} (env : Env W) (acme_client : AcmeClient)
    (recs : list AuthorizationRecord) : list (ChangeRequest * result string) :=
  answered_calls env acme_client "CREATE" recs (map route53_change_id recs).

(** The local check of [complete_dns_challenge]: the response computed
    from the account key, verified against the challenge, the host and the
    account's public key. *)
Definition local_verification {W} (env : Env W) (acme_client : AcmeClient)
    (r : AuthorizationRecord) : bool :=
  simple_verify env (response env (dns_challenge r) (key acme_client))
    (chall (dns_challenge r)) (host r) (public_key env (key acme_client)).

(** The files a run wrote, in order. *)
Definition file_write (e : event) : option (string * string) :=
  match e with FileWrite p c Stored => Some (p, c) | _ => None end.

Definition file_writes (evs : list event) : list (string * string) :=
  omap file_write evs.

(** The writes a run attempted, with how each ended. *)
Definition write_attempt (e : event) : option (string * string * written) :=
  match e with FileWrite p c r => Some (p, c, r) | _ => None end.

Definition write_attempts (evs : list event) : list (string * string * written) :=
  omap write_attempt evs.

(** The chains a run fetched: the last call of a successful
    [request_certificate]. *)
Definition chain_fetch (e : event) : option (CertificateResource * list X509) :=
  match e with FetchChain c (Ok chain) => Some (c, chain) | _ => None end.

Definition chain_fetches (evs : list event) : list (CertificateResource * list X509) :=
  omap chain_fetch evs.

(** The proofs a run submitted to the authority. *)
Definition answer (e : event) : option (ChallengeBody * ChallengeResponse) :=
  match e with AnswerChallenge c resp _ => Some (c, resp) | _ => None end.

Definition answers (evs : list event) : list (ChallengeBody * ChallengeResponse) :=
  omap answer evs.

(** Events that publish, submit or store nothing: log lines, listings,
    status polls, pauses and requests for challenges. *)
Definition plain (e : event) : bool :=
  match e with
  | LogEmit _ _ | ListHostedZonesPage _ | GetChange _ _ | Sleep _
  | RequestDomainChallenges _ _ => true
  | _ => false
  end.

Definition all_plain (evs : list event) : Prop := Forall (fun e => plain e = true) evs.

(** [wp m Q s]: the run of [m] from [s] ends in an outcome, a state and a
    list of events that satisfy [Q]. *)
Definition wp {W A} (m : @M W A)
    (Q : outcome A -> State W -> list event -> Prop) (s : State W) : Prop :=
  Q (out (m s)) (final (m s)) (events (m s)).

(** ** What the functions leave behind

    The post-conditions of the functions of the script, as the proofs
    below establish them. *)

Section Posts.

Context {W : Type}.
Variable env : Env W.

Abbreviation State := (State W).

(** What [start_dns_challenge] leaves behind: plain events, then at most
    one CREATE call, answered if and only if a record is returned. *)
Definition start_post (acme_client : AcmeClient) (h : string) (s : State)
    (o : outcome AuthorizationRecord) (s' : State) (ev : list event) : Prop :=
  files s' = files s /\ authorizations s' = authorizations s /\
  exists pre tail, ev = pre ++ tail /\ all_plain pre /\
    match o with
    | Returned r =>
        host r = h /\ find_dns_challenge (authz r) = [dns_challenge r] /\
        tail = [ChangeResourceRecordSets (record_request env acme_client "CREATE" r)
                  (Ok (route53_change_id r))]
    | Raised e =>
        tail = [] \/
        exists c zone_id,
          is_DNS01 (chall c) = true /\
          tail = [ChangeResourceRecordSets
                    {| HostedZoneId := zone_id; Action := "CREATE";
                       RecordName := validation_domain_name env c h;
                       RecordType := "TXT"; TTL := DNS_TTL;
                       ResourceRecords :=
                         [quoted (validation env c (key acme_client))] |}
                    (Err e)]
    | Diverged => False
    end.

(** What [complete_dns_challenge] leaves behind: plain events, then at
    most the submission of the response, and none unless the local
    verification succeeded. *)
Definition complete_post (fuel : nat) (acme_client : AcmeClient)
    (r : AuthorizationRecord) (s : State)
    (o : outcome unit) (s' : State) (ev : list event) : Prop :=
  files s' = files s /\ authorizations s' = authorizations s /\
  exists pre tail, ev = pre ++ tail /\ all_plain pre /\
    (tail = [] \/
     exists res,
       tail = [AnswerChallenge (dns_challenge r)
                 (response env (dns_challenge r) (key acme_client)) res] /\
       local_verification env acme_client r = true) /\
    (local_verification env acme_client r = false ->
       tail = [] /\ (forall v, o <> Returned v) /\
       (out (wait_for_route53_change env fuel (route53_change_id r) s) = Returned tt ->
        o = Raised (ValueError "Failed verification"))).

(** *** Issuance *)

Definition request_post (s : State)
    (o : outcome (string * string)) (s' : State) (ev : list event) : Prop :=
  files s' = files s /\ authorizations s' = authorizations s /\
  change_calls ev = [] /\ file_writes ev = [] /\ answers ev = [] /\
  match o with
  | Returned _ => chain_fetches ev <> []
  | Raised _ => chain_fetches ev = []
  | Diverged => False
  end.

(** A failed CREATE, if any, is the last change of the block. *)
Definition create_tail (ctail : list (ChangeRequest * result string)) : Prop :=
  ctail = [] \/ exists req e, ctail = [(req, Err e)] /\ Action req = "CREATE".

(** What the [try] block leaves behind.  Its changes are the CREATE calls
    of the records it appended, then at most a CREATE that failed.  It
    writes a file only as its last step, after a chain was fetched;
    storing the full chain is the only way it returns, and it raises the
    error of a write that failed. *)
Definition try_post (acme_client : AcmeClient) (fullchain_path : string)
    (s : State) (o : outcome unit) (s' : State) (ev : list event) : Prop :=
  (exists ctail,
     change_calls ev = create_calls env acme_client (authorizations s') ++ ctail
     /\ create_tail ctail) /\
  exists ev_a wtail, ev = ev_a ++ wtail /\ write_attempts ev_a = [] /\
    ((wtail = [] /\ files s' = files s /\ chain_fetches ev = [] /\
      forall v, o <> Returned v) \/
     (exists content,
        wtail = [FileWrite fullchain_path content Stored] /\
        chain_fetches ev_a <> [] /\
        files s' = <[fullchain_path := content]> (files s) /\ o = Returned tt) \/
     (exists content e remains,
        wtail = [FileWrite fullchain_path content (NotStored e remains)] /\
        chain_fetches ev_a <> [] /\
        files s' = left_files fullchain_path remains (files s) /\ o = Raised e)).

(** What the [finally] block leaves behind: a DELETE call for each record
    of the list, in order, up to the first that is refused; the refusal
    ends the block. *)
Definition finally_post (acme_client : AcmeClient) (s : State)
    (o : outcome unit) (s' : State) (ev : list event) : Prop :=
  files s' = files s /\ authorizations s' = authorizations s /\
  file_writes ev = [] /\ chain_fetches ev = [] /\
  exists done ids dtail,
    length ids = length done /\
    change_calls ev = answered_calls env acme_client "DELETE" done ids ++ dtail /\
    match o with
    | Returned _ => done = authorizations s /\ dtail = []
    | Raised e =>
        exists r rest,
          authorizations s = done ++ r :: rest /\
          dtail = [(record_request env acme_client "DELETE" r, Err e)]
    | Diverged => False
    end.

(** The changes of a run: the answered CREATE calls of the records [recs],
    at most one refused CREATE, then the DELETE calls of a prefix [done]
    of [recs], the last of which may be refused. *)
Definition calls_post (acme_client : AcmeClient)
    (o : outcome unit) (ev : list event) : Prop :=
  exists recs ctail done ids dtail,
    change_calls ev =
      create_calls env acme_client recs ++ ctail
        ++ answered_calls env acme_client "DELETE" done ids ++ dtail /\
    create_tail ctail /\ length ids = length done /\
    match o with
    | Returned _ => done = recs /\ dtail = []
    | Raised e =>
        (done = recs /\ dtail = []) \/
        exists r rest,
          recs = done ++ r :: rest /\
          dtail = [(record_request env acme_client "DELETE" r, Err e)]
    | Diverged => done = [] /\ dtail = []
    end.

(** The writes of the guarded part of a run: none, or that of the full
    chain once a chain was fetched; the [finally] block writes nothing. *)
Definition writes_post (fullchain_path : string) (fs : gmap string string)
    (s' : State) (ev : list event) : Prop :=
  exists ev_a wtail ev_f,
    ev = ev_a ++ wtail ++ ev_f /\
    write_attempts ev_a = [] /\ write_attempts ev_f = [] /\ chain_fetches ev_f = [] /\
    ((wtail = [] /\ chain_fetches ev_a = [] /\ files s' = fs) \/
     (exists content stored,
        wtail = [FileWrite fullchain_path content stored] /\
        chain_fetches ev_a <> [] /\
        files s' = match stored with
                   | Stored => <[fullchain_path := content]> fs
                   | NotStored _ remains => left_files fullchain_path remains fs
                   end)).

(** What a run with a known key type leaves behind once the key is
    generated: the write of the key, which ends the run when it fails,
    and the writes of the guarded part after it. *)
Definition keyed_post (fullchain_path privatekey_path : string) (k : PrivateKey)
    (s : State) (o : outcome unit) (s' : State) (ev : list event) : Prop :=
  let pem := private_bytes env k PEM TraditionalOpenSSL NoEncryption in
  exists stored rest,
    ev = FileWrite privatekey_path pem stored :: rest /\
    match stored with
    | Stored => writes_post fullchain_path (<[privatekey_path := pem]> (files s)) s' rest
    | NotStored e remains =>
        rest = [] /\ o = Raised e /\
        files s' = left_files privatekey_path remains (files s)
    end.

(** The post-condition of [update_elb]: the shape of its changes, and,
    when the key type is known, the key generated and what follows. *)
Definition update_post (acme_client : AcmeClient) (elb key_type : string)
    (fullchain_path privatekey_path : string) (s : State)
    (o : outcome unit) (s' : State) (ev : list event) : Prop :=
  calls_post acme_client o ev /\
  (key_type = "rsa" \/ key_type = "ecdsa" ->
   exists k rest,
     ev = [LogEmit "updating-elb" [("elb_name", elb)]; GenerateKey k] ++ rest /\
     keyed_post fullchain_path privatekey_path k s o s' rest).

End Posts.

(** ** Reasoning about runs *)

Section Proofs.

Context {W : Type}.
Variable env : Env W.

Abbreviation M := (@M W).
Abbreviation State := (State W).

Lemma wp_mono {A} (m : M A) (Q Q' : outcome A -> State -> list event -> Prop) s :
  (forall o s' ev, Q o s' ev -> Q' o s' ev) -> wp m Q s -> wp m Q' s.
Proof. unfold wp; auto. Qed.

Lemma wp_bind {A B} (m : M A) (f : A -> M B) Q s :
  wp m (fun o s1 ev1 =>
          match o with
          | Returned a => wp (f a) (fun o2 s2 ev2 => Q o2 s2 (ev1 ++ ev2)) s1
          | Raised e => Q (Raised e) s1 ev1
          | Diverged => Q Diverged s1 ev1
          end) s ->
  wp (m ≫= f) Q s.
Proof.
  unfold wp, mbind, M_bind, bind, out, final, events.
  destruct (m s) as [[[a|e|] s1] ev1]; simpl; auto.
  destruct (f a s1) as [[o2 s2] ev2]; simpl; auto.
Qed.

Lemma wp_try_finally {A} (body : M A) (handler : M unit) Q s :
  wp body (fun o s1 ev1 =>
             match o with
             | Diverged => Q Diverged s1 ev1
             | _ =>
                 wp handler (fun o2 s2 ev2 =>
                   match o2 with
                   | Returned _ => Q o s2 (ev1 ++ ev2)
                   | Raised e => Q (Raised e) s2 (ev1 ++ ev2)
                   | Diverged => Q Diverged s2 (ev1 ++ ev2)
                   end) s1
             end) s ->
  wp (try_finally body handler) Q s.
Proof.
  unfold wp, try_finally, out, final, events.
  destruct (body s) as [[[a|e|] s1] ev1]; simpl; auto;
    destruct (handler s1) as [[[[]|e2|] s2] ev2]; simpl; auto.
Qed.

Lemma wp_call {A} (f : W -> result A * W) (ev : result A -> event) Q s :
  (forall r w, f (world s) = (r, w) ->
     Q (match r with Ok a => Returned a | Err e => Raised e end)
       {| world := w; files := files s; authorizations := authorizations s |}
       [ev r]) ->
  wp (call f ev) Q s.
Proof.
  unfold wp, call, out, final, events. intros H.
  destruct (f (world s)) as [r w] eqn:E. simpl. auto.
Qed.

(** A loop keeps an invariant [I] on what it has done, the state and the
    events so far, and stops at the first round that does not return. *)
Lemma wp_for_each {A} (body : A -> M unit)
    (I : list A -> State -> list event -> Prop)
    (Q : outcome unit -> State -> list event -> Prop) :
  forall (todo done : list A) s ev0,
    I done s ev0 ->
    (forall x done' rest s' ev',
        done ++ todo = done' ++ x :: rest ->
        I done' s' ev' ->
        wp (body x) (fun o s1 ev1 =>
          match o with
          | Returned _ => I (done' ++ [x]) s1 (ev' ++ ev1)
          | Raised e => Q (Raised e) s1 (ev' ++ ev1)
          | Diverged => Q Diverged s1 (ev' ++ ev1)
          end) s') ->
    (forall s' ev', I (done ++ todo) s' ev' -> Q (Returned tt) s' ev') ->
    wp (for_each todo body) (fun o s' ev => Q o s' (ev0 ++ ev)) s.
Proof.
  induction todo as [|x todo IH]; intros done s ev0 HI Hbody Hend.
  - unfold wp; simpl. rewrite !app_nil_r in *. auto.
  - simpl. apply wp_bind.
    eapply wp_mono; [|apply (Hbody x done todo s ev0 eq_refl HI)].
    intros [[]|e|] s1 ev1 H1; auto.
    eapply wp_mono; [|apply (IH (done ++ [x]) s1 (ev0 ++ ev1) H1)].
    + intros o s' ev; cbv beta. rewrite <- app_assoc. auto.
    + intros x' done' rest s' ev' Heq. apply (Hbody x' done' rest).
      rewrite <- Heq, <- app_assoc. reflexivity.
    + intros s' ev'. rewrite <- app_assoc. simpl. apply Hend.
Qed.

Lemma wp_ret {A} (a : A) (Q : outcome A -> State -> list event -> Prop) s :
  Q (Returned a) s [] -> wp (ret a) Q s.
Proof. auto. Qed.

Lemma wp_raise {A} e (Q : outcome A -> State -> list event -> Prop) s :
  Q (Raised e) s [] -> wp (raise e) Q s.
Proof. auto. Qed.

Lemma wp_diverge {A} (Q : outcome A -> State -> list event -> Prop) s :
  Q Diverged s [] -> wp diverge Q s.
Proof. auto. Qed.

Lemma wp_emit name data (Q : outcome unit -> State -> list event -> Prop) s :
  Q (Returned tt) s [LogEmit name data] -> wp (emit name data) Q s.
Proof. auto. Qed.

Lemma wp_sleep n (Q : outcome unit -> State -> list event -> Prop) s :
  Q (Returned tt) s [Sleep n] -> wp (sleep n) Q s.
Proof. auto. Qed.

Lemma wp_write_file path content
    (Q : outcome unit -> State -> list event -> Prop) s :
  (forall w,
     Q (Returned tt)
       {| world := w; files := <[path := content]> (files s);
          authorizations := authorizations s |}
       [FileWrite path content Stored]) ->
  (forall e remains w,
     Q (Raised e)
       {| world := w; files := left_files path remains (files s);
          authorizations := authorizations s |}
       [FileWrite path content (NotStored e remains)]) ->
  wp (write_file env path content) Q s.
Proof.
  unfold wp, write_file, out, final, events. intros Hstored Hfailed.
  destruct (write_text env path content (world s)) as [[|e remains] w]; simpl; auto.
Qed.

Lemma wp_get_authorizations
    (Q : outcome (list AuthorizationRecord) -> State -> list event -> Prop) s :
  Q (Returned (authorizations s)) s [] -> wp get_authorizations Q s.
Proof. auto. Qed.

Lemma wp_set_authorizations l
    (Q : outcome unit -> State -> list event -> Prop) s :
  Q (Returned tt)
    {| world := world s; files := files s; authorizations := l |} [] ->
  wp (set_authorizations l) Q s.
Proof. auto. Qed.

Lemma wp_of_result {A} (r : result A)
    (Q : outcome A -> State -> list event -> Prop) s :
  Q (match r with Ok a => Returned a | Err e => Raised e end) s [] ->
  wp (of_result r) Q s.
Proof. destruct r; auto. Qed.

Lemma wp_fresh_key make (Q : outcome PrivateKey -> State -> list event -> Prop) s :
  (forall secret w, fresh_key_material env (world s) = (secret, w) ->
     Q (Returned (make secret))
       {| world := w; files := files s; authorizations := authorizations s |}
       [GenerateKey (make secret)]) ->
  wp (fresh_key env make) Q s.
Proof.
  unfold wp, fresh_key, out, final, events. intros H.
  destruct (fresh_key_material env (world s)) as [secret w]. simpl. auto.
Qed.

Lemma wp_change_txt_record action zone_id domain value
    (Q : outcome string -> State -> list event -> Prop) (s : State) :
  (forall r w,
     Q (match r with Ok a => Returned a | Err e => Raised e end)
       {| world := w; files := files s; authorizations := authorizations s |}
       [ChangeResourceRecordSets
          {| HostedZoneId := zone_id; Action := action; RecordName := domain;
             RecordType := "TXT"; TTL := DNS_TTL;
             ResourceRecords := [quoted value] |} r]) ->
  wp (change_txt_record env action zone_id domain value) Q s.
Proof.
  intros H. unfold change_txt_record. destruct zone_id as [zone|].
  - apply wp_call. intros r w _. apply H.
  - unfold wp, out, final, events. simpl.
    specialize (H (Err invalid_zone_id) (world s)). by destruct s.
Qed.

(** One step of symbolic execution of a run. *)
Ltac wp_step :=
  lazymatch goal with
  | |- wp (mbind _ _) _ _ => apply wp_bind
  | |- wp (ret _) _ _ => apply wp_ret
  | |- wp (raise _) _ _ => apply wp_raise
  | |- wp diverge _ _ => apply wp_diverge
  | |- wp (emit _ _) _ _ => apply wp_emit
  | |- wp (sleep _) _ _ => apply wp_sleep
  | |- wp (write_file _ _ _) _ _ => apply wp_write_file; [intros ?|intros ? ? ?]
  | |- wp get_authorizations _ _ => apply wp_get_authorizations
  | |- wp (set_authorizations _) _ _ => apply wp_set_authorizations
  | |- wp (append_authorization _) _ _ => unfold append_authorization
  | |- wp (of_result _) _ _ => apply wp_of_result
  | |- wp (call _ _) _ _ => apply wp_call; intros [?|?] ? ?
  | |- wp (change_txt_record _ _ _ _ _) _ _ =>
      apply wp_change_txt_record; intros [?|?] ?
  | |- wp (fresh_key _ _) _ _ => apply wp_fresh_key; intros ? ? ?
  | |- wp (generate_rsa_private_key _) _ _ => unfold generate_rsa_private_key
  | |- wp (generate_ecdsa_private_key _) _ _ => unfold generate_ecdsa_private_key
  end;
  cbv beta iota.

Ltac wp_steps := repeat wp_step.

Lemma all_plain_nil : all_plain [].
Proof. constructor. Qed.

Lemma all_plain_app ev1 ev2 : all_plain ev1 -> all_plain ev2 -> all_plain (ev1 ++ ev2).
Proof. unfold all_plain. rewrite Forall_app. auto. Qed.

Lemma all_plain_cons e ev : plain e = true -> all_plain ev -> all_plain (e :: ev).
Proof. unfold all_plain. constructor; auto. Qed.

Lemma all_plain_projections ev :
  all_plain ev ->
  change_calls ev = [] /\ file_writes ev = [] /\ chain_fetches ev = []
  /\ answers ev = [].
Proof.
  induction 1 as [|e ev He _ IH]; [done|].
  destruct IH as (IH1 & IH2 & IH3 & IH4).
  unfold change_calls, file_writes, chain_fetches, answers in *.
  destruct e; simpl in *; try discriminate; rewrite ?IH1, ?IH2, ?IH3, ?IH4; done.
Qed.

Create HintDb plain.
#[local] Hint Resolve all_plain_nil all_plain_app all_plain_cons : plain.

(** *** Zone resolution *)

Lemma scan_pages_frame domain pages (s : State) :
  wp (scan_pages domain pages) (fun o s' ev => s' = s /\ all_plain ev /\ terminated o = true) s.
Proof.
  induction pages as [|page pages IH]; simpl.
  - wp_steps. auto with plain.
  - apply wp_bind. unfold wp; simpl.
    destruct page as [zones|e]; simpl.
    + destruct (scan_zones domain zones).
      * split; [done|]. split; [|done]. repeat constructor.
      * unfold wp in IH. destruct IH as (IH1 & IH2 & IH3).
        split; [done|]. split; [|done]. apply all_plain_cons; auto.
    + split; [done|]. split; [|done]. repeat constructor.
Qed.

Lemma find_zone_id_for_domain_frame domain (s : State) :
  wp (find_zone_id_for_domain env domain)
     (fun o s' ev => s' = s /\ all_plain ev /\ terminated o = true) s.
Proof. apply scan_pages_frame. Qed.

(** Pages that all arrive are scanned as one list. *)
Lemma scan_pages_concat domain (pages : list (list HostedZone)) (s : State) :
  out (scan_pages domain (Ok <$> pages) s) = Returned (scan_zones domain (concat pages)).
Proof.
  induction pages as [|zones pages IH]; [done|].
  rewrite fmap_cons. set (rest := Ok <$> pages) in *.
  simpl. unfold mbind, M_bind, bind, out. simpl.
  assert (Hsplit : scan_zones domain (zones ++ concat pages) =
            match scan_zones domain zones with
            | Some z => Some z
            | None => scan_zones domain (concat pages)
            end).
  { clear. induction zones as [|z zones IHz]; [done|].
    simpl. destruct (zone_matches domain z); auto. }
  rewrite Hsplit. destruct (scan_zones domain zones); [done|].
  unfold out in IH.
  destruct (scan_pages domain rest s) as [[o s'] ev]. simpl in *. done.
Qed.

Lemma scan_zones_first domain zones zone_id :
  scan_zones domain zones = Some zone_id ->
  exists before z after,
    zones = before ++ z :: after
    /\ Forall (fun z' => zone_matches domain z' = false) before
    /\ zone_matches domain z = true /\ Id z = zone_id.
Proof.
  induction zones as [|z zones IH]; [done|]. simpl.
  destruct (zone_matches domain z) eqn:Hz.
  - intros [= <-]. exists [], z, zones. auto.
  - intros H. destruct (IH H) as (before & z' & after & -> & Hb & Hm & Hid).
    exists (z :: before), z', after. auto.
Qed.

Lemma scan_zones_none domain zones :
  scan_zones domain zones = None <->
  Forall (fun z => zone_matches domain z = false) zones.
Proof.
  induction zones as [|z zones IH]; simpl.
  - split; auto.
  - destruct (zone_matches domain z) eqn:Hz.
    + split; [done|]. intros H. inversion H; congruence.
    + rewrite IH. split; [constructor; auto|]. intros H; by inversion H.
Qed.

Lemma longest_match_elem domain zones z :
  longest_match domain zones = Some z -> z ∈ zones /\ zone_matches domain z = true.
Proof.
  revert z. induction zones as [|a zones IH]; [done|]. simpl. intros z.
  destruct (zone_matches domain a) eqn:Ha.
  - destruct (longest_match domain zones) as [b|] eqn:Hb.
    + destruct (String.length (Name a) <? String.length (Name b))%nat.
      * intros [= <-]. destruct (IH b eq_refl). split; [by right|done].
      * intros [= <-]. split; [by left|done].
    + intros [= <-]. split; [by left|done].
  - intros H. destruct (IH z H). split; [by right|done].
Qed.

Lemma scan_zones_longest domain zones :
  most_specific_first zones ->
  scan_zones domain zones = Id <$> longest_match domain zones.
Proof.
  unfold most_specific_first.
  induction zones as [|a zones IH]; [done|].
  rewrite StronglySorted_cons. intros [Ha Hs]. simpl.
  destruct (zone_matches domain a) eqn:Hm; [|auto].
  destruct (longest_match domain zones) as [b|] eqn:Hb; [|done].
  apply longest_match_elem in Hb as [Hb _].
  rewrite Forall_forall in Ha. specialize (Ha b Hb).
  destruct (Nat.ltb_spec (String.length (Name a)) (String.length (Name b))); [lia|done].
Qed.

(** *** The polling loop and the record changes *)

Lemma wait_for_route53_change_frame fuel change_id (s : State) :
  wp (wait_for_route53_change env fuel change_id)
     (fun o s' ev =>
        files s' = files s /\ authorizations s' = authorizations s /\ all_plain ev) s.
Proof.
  revert s. induction fuel as [|fuel IH]; intros s; simpl.
  - wp_steps. auto with plain.
  - wp_steps; simpl.
    + destruct (String.eqb a "INSYNC").
      * wp_steps. simpl. split_and!; auto. repeat constructor.
      * wp_steps. eapply wp_mono; [|apply IH].
        simpl. intros o s' ev (Hf & Ha & Hp). split_and!; auto.
        repeat (apply all_plain_cons; [done|]). done.
    + split_and!; auto. repeat constructor.
Qed.

(** *** One host: publication *)

(** What the generator yields is the single DNS-01 challenge of a
    combination of one. *)
Lemma find_dns_challenge_DNS01 a c :
  c ∈ find_dns_challenge a ->
  is_DNS01 (chall c) = true /\ [c] ∈ resolved_combinations a.
Proof.
  unfold find_dns_challenge.
  induction (resolved_combinations a) as [|combo combos IH]; simpl.
  - intros H. by apply elem_of_nil in H.
  - destruct combo as [|c0 [|c1 combo]].
    + intros H. destruct (IH H). split; [done|by right].
    + destruct (is_DNS01 (chall c0)) eqn:Hc0.
      * intros [->|H]%elem_of_cons.
        -- split; [done|by left].
        -- destruct (IH H). split; [done|by right].
      * intros H. destruct (IH H). split; [done|by right].
    + intros H. destruct (IH H). split; [done|by right].
Qed.

Lemma start_dns_challenge_spec acme_client elb h (s : State) :
  wp (start_dns_challenge env acme_client elb h) (start_post env acme_client h s) s.
Proof.
  unfold start_dns_challenge, start_post.
  wp_steps; simpl.
  - (* the authority answered *)
    unfold unpack_one.
    destruct (find_dns_challenge a) as [|c [|c' l]] eqn:Hc; wp_steps; simpl.
    + split_and!; auto. eexists _, []. rewrite app_nil_r. split_and!; auto.
      repeat constructor.
    + eapply wp_mono; [|apply find_zone_id_for_domain_frame].
      simpl. intros [zone_id|e|] s1 ev1 (-> & Hp & Ht); try done.
      * wp_steps; simpl.
        -- split_and!; auto.
           eexists (_ :: _ :: ev1 ++ [_]), [_]. split_and!.
           ++ simpl. rewrite <- ?app_assoc. reflexivity.
           ++ repeat (apply all_plain_cons; [done|]).
              apply all_plain_app; auto. repeat constructor.
           ++ done.
           ++ done.
           ++ reflexivity.
        -- split_and!; auto.
           eexists (_ :: _ :: ev1 ++ [_]), [_]. split_and!.
           ++ simpl. rewrite <- ?app_assoc. reflexivity.
           ++ repeat (apply all_plain_cons; [done|]).
              apply all_plain_app; auto. repeat constructor.
           ++ right. eexists c, zone_id. split; [|reflexivity].
              apply (find_dns_challenge_DNS01 a). rewrite Hc. by left.
      * split_and!; auto. eexists _, []. rewrite app_nil_r. split_and!; auto.
        repeat (apply all_plain_cons; [done|]). done.
    + split_and!; auto. eexists _, []. rewrite app_nil_r. split_and!; auto.
      repeat constructor.
  - (* the authority refused *)
    split_and!; auto. eexists _, []. rewrite app_nil_r. split_and!; auto.
    repeat constructor.
Qed.

(** The run a postcondition speaks of is the run itself. *)
Lemma wp_run {A} (m : M A) (Q : outcome A -> State -> list event -> Prop) s :
  wp m Q s ->
  wp m (fun o s' ev => Q o s' ev /\ o = out (m s)) s.
Proof. unfold wp. auto. Qed.

(** More fuel does not change a polling loop that ended. *)
Lemma wait_for_route53_change_more_fuel fuel fuel' change_id (s : State) :
  (fuel <= fuel')%nat ->
  terminated (out (wait_for_route53_change env fuel change_id s)) = true ->
  wait_for_route53_change env fuel' change_id s
  = wait_for_route53_change env fuel change_id s.
Proof.
  revert fuel' s. induction fuel as [|fuel IH]; intros fuel' s Hle; [done|].
  destruct fuel' as [|fuel']; [lia|]. simpl.
  unfold mbind, M_bind, bind, call, sleep, out. simpl.
  destruct (get_change env change_id (world s)) as [[status|e] w]; simpl; [|done].
  destruct (String.eqb status "INSYNC"); [done|]. simpl.
  intros Hend.
  rewrite (IH fuel' _ ltac:(lia)); [done|].
  unfold out.
  destruct (wait_for_route53_change env fuel change_id _) as [[o s'] ev]. done.
Qed.

(** And so for the completion of a challenge. *)
Lemma complete_dns_challenge_more_fuel fuel fuel' acme_client elb r (s : State) :
  (fuel <= fuel')%nat ->
  terminated (out (complete_dns_challenge env fuel acme_client elb r s)) = true ->
  complete_dns_challenge env fuel' acme_client elb r s
  = complete_dns_challenge env fuel acme_client elb r s.
Proof.
  intros Hle. unfold complete_dns_challenge.
  unfold mbind, M_bind, bind, emit, out. simpl.
  intros Hend.
  rewrite (wait_for_route53_change_more_fuel fuel fuel' _ _ Hle); [done|].
  unfold out.
  destruct (wait_for_route53_change env fuel _ s) as [[[[]|e|] s'] ev]; done.
Qed.

(** *** One host: verification and submission *)

Lemma complete_dns_challenge_spec fuel acme_client elb r (s : State) :
  wp (complete_dns_challenge env fuel acme_client elb r)
     (complete_post env fuel acme_client r s) s.
Proof.
  unfold complete_dns_challenge, complete_post.
  wp_steps.
  eapply wp_mono; [|apply wp_run, wait_for_route53_change_frame].
  simpl. intros o s1 ev1 ((Hf & Ha & Hp) & Ho).
  fold (local_verification env acme_client r).
  destruct o as [[]|e|].
  - wp_steps.
    destruct (local_verification env acme_client r) eqn:Hv; simpl; wp_steps; simpl.
    + split_and!; auto.
      eexists (_ :: ev1 ++ [_; _]), [_]. split_and!.
      * simpl. rewrite <- ?app_assoc. reflexivity.
      * apply all_plain_cons; [done|]. apply all_plain_app; auto. repeat constructor.
      * right. eauto.
      * done.
    + split_and!; auto.
      eexists (_ :: ev1 ++ [_; _]), [_]. split_and!.
      * simpl. rewrite <- ?app_assoc. reflexivity.
      * apply all_plain_cons; [done|]. apply all_plain_app; auto. repeat constructor.
      * right. eauto.
      * done.
    + split_and!; auto.
      eexists _, []. rewrite app_nil_r. split_and!; auto.
      apply all_plain_cons; [done|]. apply all_plain_app; auto. repeat constructor.
  - split_and!; auto.
    eexists _, []. rewrite app_nil_r. split_and!; auto.
    + apply all_plain_cons; [done|]. done.
    + intros _. split_and!; [done|done|]. rewrite <- Ho. done.
  - split_and!; auto.
    eexists _, []. rewrite app_nil_r. split_and!; auto.
    + apply all_plain_cons; [done|]. done.
    + intros _. split_and!; [done|done|]. rewrite <- Ho. done.
Qed.

Lemma request_certificate_spec acme_client elb auths csr (s : State) :
  wp (request_certificate env acme_client elb auths csr) (request_post s) s.
Proof.
  unfold request_certificate, request_post.
  wp_steps; simpl; split_and!; auto.
Qed.

(** *** Projections of the events *)

Lemma change_calls_app ev1 ev2 :
  change_calls (ev1 ++ ev2) = change_calls ev1 ++ change_calls ev2.
Proof. apply omap_app. Qed.

Lemma file_writes_app ev1 ev2 :
  file_writes (ev1 ++ ev2) = file_writes ev1 ++ file_writes ev2.
Proof. apply omap_app. Qed.

Lemma chain_fetches_app ev1 ev2 :
  chain_fetches (ev1 ++ ev2) = chain_fetches ev1 ++ chain_fetches ev2.
Proof. apply omap_app. Qed.

Lemma answers_app ev1 ev2 : answers (ev1 ++ ev2) = answers ev1 ++ answers ev2.
Proof. apply omap_app. Qed.

Lemma answered_calls_snoc acme_client action recs ids r id :
  length ids = length recs ->
  answered_calls env acme_client action (recs ++ [r]) (ids ++ [id]) =
  answered_calls env acme_client action recs ids
    ++ [(record_request env acme_client action r, Ok id)].
Proof. intros H. unfold answered_calls. rewrite zip_with_app; auto. Qed.

(** The projections of what [start_dns_challenge] did. *)
Lemma start_post_projections acme_client h s o s' ev :
  start_post env acme_client h s o s' ev ->
  file_writes ev = [] /\ chain_fetches ev = [] /\
  match o with
  | Returned r =>
      change_calls ev =
        [(record_request env acme_client "CREATE" r, Ok (route53_change_id r))]
  | Raised e =>
      change_calls ev = [] \/
      exists req, change_calls ev = [(req, Err e)] /\ Action req = "CREATE"
  | Diverged => False
  end.
Proof.
  intros (_ & _ & pre & tail & -> & Hp & Ho).
  apply all_plain_projections in Hp as (Hc & Hw & Hf & _).
  rewrite file_writes_app, chain_fetches_app, change_calls_app, Hc, Hw, Hf.
  destruct o as [r|e|]; [| |done].
  - destruct Ho as (_ & _ & ->). done.
  - destruct Ho as [->|(c & zone_id & _ & ->)]; [by auto|].
    split_and!; [done|done|]. right. eauto.
Qed.

(** [complete_dns_challenge] changes no record, writes no file and
    fetches no chain. *)
Lemma complete_post_projections fuel acme_client r s o s' ev :
  complete_post env fuel acme_client r s o s' ev ->
  change_calls ev = [] /\ file_writes ev = [] /\ chain_fetches ev = [].
Proof.
  intros (_ & _ & pre & tail & -> & Hp & Ht & _).
  apply all_plain_projections in Hp as (Hc & Hw & Hf & _).
  rewrite file_writes_app, chain_fetches_app, change_calls_app, Hc, Hw, Hf.
  destruct Ht as [->|(res & -> & _)]; done.
Qed.

(** *** Computations that write no file *)

Definition no_write {A} (m : M A) : Prop :=
  forall s, write_attempts (events (m s)) = [].

Lemma write_attempts_app ev1 ev2 :
  write_attempts (ev1 ++ ev2) = write_attempts ev1 ++ write_attempts ev2.
Proof. apply omap_app. Qed.

(** Where no write is attempted no file is written. *)
Lemma write_attempts_file_writes ev : write_attempts ev = [] -> file_writes ev = [].
Proof.
  unfold write_attempts, file_writes.
  induction ev as [|e ev IH]; [done|]. destruct e; simpl; try done; auto.
Qed.

Lemma no_write_bind {A B} (m : M A) (f : A -> M B) :
  no_write m -> (forall a, no_write (f a)) -> no_write (m ≫= f).
Proof.
  intros Hm Hf s. specialize (Hm s).
  unfold mbind, M_bind, bind, events in *.
  destruct (m s) as [[[a|e|] s1] ev1]; simpl in *; try done.
  specialize (Hf a s1). unfold events in Hf.
  destruct (f a s1) as [[o2 s2] ev2]. simpl in *.
  by rewrite write_attempts_app, Hm, Hf.
Qed.

Lemma no_write_for_each {A} (l : list A) (body : A -> M unit) :
  (forall x, no_write (body x)) -> no_write (for_each l body).
Proof.
  intros Hbody. induction l as [|x l IH]; [done|].
  simpl. apply no_write_bind; auto.
Qed.

Lemma no_write_call {A} (f : W -> result A * W) (ev : result A -> event) :
  (forall r, write_attempt (ev r) = None) -> no_write (call f ev).
Proof.
  intros Hev s. unfold call, events, write_attempts.
  destruct (f (world s)) as [r w]. simpl. by rewrite Hev.
Qed.

Lemma no_write_scan_pages domain pages : no_write (scan_pages domain pages).
Proof.
  induction pages as [|page pages IH]; [done|].
  simpl. apply no_write_bind; [done|].
  intros zones. by destruct (scan_zones domain zones).
Qed.

Lemma no_write_wait_for_route53_change fuel change_id :
  no_write (wait_for_route53_change env fuel change_id).
Proof.
  induction fuel as [|fuel IH]; [done|].
  simpl. apply no_write_bind; [by apply no_write_call|].
  intros status. destruct (String.eqb status "INSYNC"); [done|].
  by apply no_write_bind.
Qed.

Lemma no_write_change_txt_record action zone_id domain value :
  no_write (change_txt_record env action zone_id domain value).
Proof.
  unfold change_txt_record. destruct zone_id; [by apply no_write_call|done].
Qed.

Lemma no_write_start_dns_challenge acme_client elb h :
  no_write (start_dns_challenge env acme_client elb h).
Proof.
  unfold start_dns_challenge.
  apply no_write_bind; [done|]. intros _.
  apply no_write_bind; [by apply no_write_call|]. intros a.
  apply no_write_bind; [by destruct (find_dns_challenge a) as [|c [|c' l]]|].
  intros c.
  apply no_write_bind; [intros s; apply no_write_scan_pages|]. intros zone_id.
  apply no_write_bind; [done|]. intros _.
  apply no_write_bind; [apply no_write_change_txt_record|done].
Qed.

Lemma no_write_complete_dns_challenge fuel acme_client elb r :
  no_write (complete_dns_challenge env fuel acme_client elb r).
Proof.
  unfold complete_dns_challenge.
  apply no_write_bind; [done|]. intros _.
  apply no_write_bind; [apply no_write_wait_for_route53_change|]. intros _.
  apply no_write_bind; [done|]. intros _.
  apply no_write_bind; [by destruct (negb _)|]. intros _.
  apply no_write_bind; [done|]. intros _.
  by apply no_write_call.
Qed.

Lemma no_write_request_certificate acme_client elb auths csr :
  no_write (request_certificate env acme_client elb auths csr).
Proof.
  unfold request_certificate.
  apply no_write_bind; [done|]. intros _.
  apply no_write_bind; [by apply no_write_call|]. intros c.
  apply no_write_bind; [by apply no_write_call|done].
Qed.

Lemma no_write_publish_loop acme_client elb hosts :
  no_write (for_each hosts (fun h =>
    authz_record ← start_dns_challenge env acme_client elb h;
    append_authorization authz_record)).
Proof.
  apply no_write_for_each. intros h.
  apply no_write_bind; [apply no_write_start_dns_challenge|].
  intros r. apply no_write_bind; done.
Qed.

Lemma no_write_complete_loop fuel acme_client elb auths :
  no_write (for_each auths (fun authz_record =>
    complete_dns_challenge env fuel acme_client elb authz_record)).
Proof. apply no_write_for_each. intros r. apply no_write_complete_dns_challenge. Qed.

Lemma no_write_update_elb_finally acme_client elb :
  no_write (update_elb_finally env acme_client elb).
Proof.
  unfold update_elb_finally. apply no_write_bind; [done|]. intros auths.
  apply no_write_for_each. intros r.
  apply no_write_bind; [done|]. intros _.
  apply no_write_bind; [apply no_write_change_txt_record|done].
Qed.

(** What is known of a computation that writes no file holds of its run. *)
Lemma wp_no_write {A} (m : M A) (Q : outcome A -> State -> list event -> Prop) s :
  no_write m -> wp m Q s ->
  wp m (fun o s' ev => Q o s' ev /\ write_attempts ev = []) s.
Proof. unfold wp. auto. Qed.

(** *** The [try] block *)

Lemma create_calls_snoc acme_client recs r :
  create_calls env acme_client (recs ++ [r]) =
  create_calls env acme_client recs
    ++ [(record_request env acme_client "CREATE" r, Ok (route53_change_id r))].
Proof.
  unfold create_calls. rewrite map_app. simpl.
  apply answered_calls_snoc. by rewrite length_map.
Qed.

(** The first loop: every record appended was published by an answered
    CREATE, in the order of the list. *)
Lemma publish_loop_spec acme_client elb hosts (s : State) :
  authorizations s = [] ->
  wp (for_each hosts (fun h =>
        authz_record ← start_dns_challenge env acme_client elb h;
        append_authorization authz_record))
     (fun o s1 ev1 =>
        files s1 = files s /\ file_writes ev1 = [] /\ chain_fetches ev1 = [] /\
        match o with
        | Returned _ => change_calls ev1 = create_calls env acme_client (authorizations s1)
        | Raised e =>
            exists ctail,
              change_calls ev1 = create_calls env acme_client (authorizations s1) ++ ctail
              /\ create_tail ctail
        | Diverged => False
        end) s.
Proof.
  intros Hnil.
  pose (I := fun (_ : list string) (s1 : State) (ev1 : list event) =>
    files s1 = files s /\ file_writes ev1 = [] /\ chain_fetches ev1 = [] /\
    change_calls ev1 = create_calls env acme_client (authorizations s1)).
  pose (Q := fun (o : outcome unit) (s1 : State) (ev1 : list event) =>
    files s1 = files s /\ file_writes ev1 = [] /\ chain_fetches ev1 = [] /\
    match o with
    | Returned _ => change_calls ev1 = create_calls env acme_client (authorizations s1)
    | Raised e =>
        exists ctail,
          change_calls ev1 = create_calls env acme_client (authorizations s1) ++ ctail
          /\ create_tail ctail
    | Diverged => False
    end).
  apply (wp_for_each _ I Q hosts [] s []).
  - unfold I. rewrite Hnil. done.
  - intros h done' rest s' ev' _ (Hf & Hw & Hc & Hcalls).
    apply wp_bind.
    eapply wp_mono; [|apply start_dns_challenge_spec].
    intros o s1 ev1 Hstart.
    pose proof (start_post_projections _ _ _ _ _ _ Hstart) as (Hw1 & Hc1 & Ho).
    destruct Hstart as (Hf1 & Ha1 & _).
    destruct o as [r|e|]; [| |done].
    + wp_steps. unfold I. simpl.
      rewrite app_nil_r, file_writes_app, chain_fetches_app, change_calls_app.
      rewrite Hw, Hw1, Hc, Hc1, Hcalls, Ho, Ha1, create_calls_snoc.
      split_and!; simpl; congruence.
    + unfold Q.
      rewrite file_writes_app, chain_fetches_app, change_calls_app.
      rewrite Hw, Hw1, Hc, Hc1, Hcalls, Ha1.
      split_and!; [congruence|done|done|].
      destruct Ho as [->|(req & -> & Hreq)].
      * exists []. split; [done|]. by left.
      * exists [(req, Err e)]. split; [done|]. right. eauto.
  - intros s' ev' (Hf & Hw & Hc & Hcalls). unfold Q. auto.
Qed.

(** The second loop changes no record and no file. *)
Lemma complete_loop_spec fuel acme_client elb auths (s : State) :
  wp (for_each auths (fun authz_record =>
        complete_dns_challenge env fuel acme_client elb authz_record))
     (fun o s1 ev1 =>
        files s1 = files s /\ authorizations s1 = authorizations s /\
        change_calls ev1 = [] /\ file_writes ev1 = [] /\ chain_fetches ev1 = []) s.
Proof.
  pose (I := fun (_ : list AuthorizationRecord) (s1 : State) (ev1 : list event) =>
    files s1 = files s /\ authorizations s1 = authorizations s /\
    change_calls ev1 = [] /\ file_writes ev1 = [] /\ chain_fetches ev1 = []).
  apply (wp_for_each _ I (fun _ => I []) auths [] s []).
  - unfold I. done.
  - intros r done' rest s' ev' _ (Hf & Ha & Hc & Hw & Hx).
    eapply wp_mono; [|apply complete_dns_challenge_spec].
    intros o s1 ev1 Hcomplete.
    pose proof (complete_post_projections _ _ _ _ _ _ _ Hcomplete) as (Hc1 & Hw1 & Hx1).
    destruct Hcomplete as (Hf1 & Ha1 & _).
    assert (I [] s1 (ev' ++ ev1)) as HI.
    { unfold I. rewrite file_writes_app, chain_fetches_app, change_calls_app.
      rewrite Hc, Hc1, Hw, Hw1, Hx, Hx1. split_and!; simpl; congruence. }
    destruct o as [[]|e|]; exact HI.
  - auto.
Qed.

Lemma update_elb_try_spec fuel acme_client elb hosts csr fullchain_path (s : State) :
  authorizations s = [] ->
  wp (update_elb_try env fuel acme_client elb hosts csr fullchain_path)
     (try_post env acme_client fullchain_path s) s.
Proof.
  intros Hnil. unfold update_elb_try.
  apply wp_bind.
  eapply wp_mono;
    [|apply wp_no_write;
        [apply no_write_publish_loop
        |apply (publish_loop_spec acme_client elb hosts s Hnil)]].
  intros o s1 ev1 ((Hf1 & _ & Hx1 & Ho) & Hw1).
  destruct o as [[]|e|]; [| |done].
  2:{ split; [exact Ho|].
      exists ev1, []. rewrite app_nil_r. split_and!; auto; left; split_and!; done. }
  wp_steps.
  eapply wp_mono;
    [|apply wp_no_write; [apply no_write_complete_loop|apply complete_loop_spec]].
  intros o s2 ev2 ((Hf2 & Ha2 & Hc2 & _ & Hx2) & Hw2).
  assert (Hstop : forall o' : outcome unit, (forall v, o' <> Returned v) ->
            try_post env acme_client fullchain_path s o' s2 (ev1 ++ [] ++ ev2)).
  { intros o' Ho'. split.
    - exists []. rewrite app_nil_r. simpl.
      rewrite change_calls_app, Hc2, app_nil_r, Ha2. split; [done|by left].
    - exists (ev1 ++ ev2), []. simpl. rewrite app_nil_r.
      rewrite write_attempts_app, chain_fetches_app, Hw1, Hw2, Hx1, Hx2.
      split_and!; auto. left. split_and!; auto. congruence. }
  destruct o as [[]|e|]; [|by apply Hstop|by apply Hstop].
  wp_steps.
  eapply wp_mono;
    [|apply wp_no_write;
        [apply no_write_request_certificate|apply request_certificate_spec]].
  intros o s3 ev3 ((Hf3 & Ha3 & Hc3 & _ & _ & Ho3) & Hw3).
  destruct o as [[pem chain]|e|]; [| |done].
  - assert (Hcalls : forall stored,
              change_calls
                (ev1 ++ [] ++ ev2 ++ [] ++ ev3
                   ++ [FileWrite fullchain_path (pem +:+ chain) stored])
              = create_calls env acme_client (authorizations s3) ++ []).
    { intros stored. rewrite !change_calls_app, Hc2, Hc3. simpl.
      by rewrite !app_nil_r, Ha3, Ha2. }
    assert (Hsplit : forall stored,
              ev1 ++ [] ++ ev2 ++ [] ++ ev3
                ++ [FileWrite fullchain_path (pem +:+ chain) stored]
              = (ev1 ++ ev2 ++ ev3)
                  ++ [FileWrite fullchain_path (pem +:+ chain) stored]).
    { intros stored. simpl. by rewrite <- !app_assoc. }
    assert (Hquiet : write_attempts (ev1 ++ ev2 ++ ev3) = []).
    { by rewrite !write_attempts_app, Hw1, Hw2, Hw3. }
    assert (Hfetched : chain_fetches (ev1 ++ ev2 ++ ev3) <> []).
    { rewrite !chain_fetches_app, Hx1, Hx2. simpl. done. }
    wp_steps; simpl.
    + split; [exists []; split; [apply Hcalls|by left]|].
      exists (ev1 ++ ev2 ++ ev3), [FileWrite fullchain_path (pem +:+ chain) Stored].
      split_and!; [apply Hsplit|done|].
      right. left. eexists. split_and!; [done|done|simpl; congruence|done].
    + split; [exists []; split; [apply Hcalls|by left]|].
      exists (ev1 ++ ev2 ++ ev3),
        [FileWrite fullchain_path (pem +:+ chain) (NotStored e remains)].
      split_and!; [apply Hsplit|done|].
      right. right. eexists _, _, _.
      split_and!; [done|done|simpl; congruence|done].
  - split.
    + exists []. rewrite app_nil_r. simpl.
      rewrite !change_calls_app, Hc2, Hc3. simpl. rewrite app_nil_r, Ha3, Ha2.
      split; [done|by left].
    + exists (ev1 ++ ev2 ++ ev3), []. simpl. rewrite app_nil_r.
      rewrite !write_attempts_app, !chain_fetches_app, Hw1, Hw2, Hw3, Hx1, Hx2, Ho3.
      split_and!; auto. left. split_and!; auto. congruence.
Qed.

(** *** The [finally] block *)

Lemma update_elb_finally_spec acme_client elb (s : State) :
  wp (update_elb_finally env acme_client elb) (finally_post env acme_client s) s.
Proof.
  unfold update_elb_finally. wp_steps.
  pose (I := fun (done : list AuthorizationRecord) (s1 : State) (ev1 : list event) =>
    files s1 = files s /\ authorizations s1 = authorizations s /\
    file_writes ev1 = [] /\ chain_fetches ev1 = [] /\
    exists ids, length ids = length done /\
      change_calls ev1 = answered_calls env acme_client "DELETE" done ids).
  apply (wp_for_each _ I (finally_post env acme_client s) (authorizations s) [] s []).
  - unfold I. split_and!; auto. by exists [].
  - intros r done' rest s' ev' Hsplit (Hf & Ha & Hw & Hx & ids & Hlen & Hcalls).
    wp_steps; simpl.
    + unfold I. simpl.
      rewrite file_writes_app, chain_fetches_app, change_calls_app, Hw, Hx, Hcalls.
      split_and!; auto.
      exists (ids ++ [a]). rewrite !length_app, Hlen. split; [done|].
      by rewrite answered_calls_snoc.
    + unfold finally_post. simpl.
      rewrite file_writes_app, chain_fetches_app, change_calls_app, Hw, Hx, Hcalls.
      split_and!; auto.
      exists done', ids, [(record_request env acme_client "DELETE" r, Err e)].
      split_and!; auto. exists r, rest. by rewrite <- Hsplit.
  - intros s' ev' (Hf & Ha & Hw & Hx & ids & Hlen & Hcalls).
    unfold finally_post. split_and!; auto.
    exists (authorizations s), ids, []. rewrite app_nil_r. auto.
Qed.

(** *** The whole of [update_elb] *)

Lemma guarded_spec fuel acme_client elb hosts csr fullchain_path (s : State) :
  authorizations s = [] ->
  wp (try_finally
        (update_elb_try env fuel acme_client elb hosts csr fullchain_path)
        (update_elb_finally env acme_client elb))
     (fun o s' ev =>
        calls_post env acme_client o ev /\ writes_post fullchain_path (files s) s' ev) s.
Proof.
  intros Hnil. apply wp_try_finally.
  eapply wp_mono; [|apply (update_elb_try_spec _ _ _ _ _ _ _ Hnil)].
  intros o s1 ev1 ((ctail & Hcalls & Hctail) & ev_a & wtail & -> & Hwa & Hbody).
  assert (Hwrites : forall (s2 : State) ev2,
            files s2 = files s1 -> write_attempts ev2 = [] -> chain_fetches ev2 = [] ->
            writes_post fullchain_path (files s) s2 ((ev_a ++ wtail) ++ ev2)).
  { intros s2 ev2 Hf2 Hw2 Hx2. exists ev_a, wtail, ev2.
    rewrite <- app_assoc. split_and!; auto.
    destruct Hbody as [(-> & Hf & Hx & _)
                      |[(content & -> & Hx & Hf & _)
                       |(content & e & remains & -> & Hx & Hf & _)]].
    - left. rewrite app_nil_r in Hx. split_and!; congruence.
    - right. exists content, Stored. split_and!; congruence.
    - right. exists content, (NotStored e remains). split_and!; congruence. }
  assert (Hcleanup :
    wp (update_elb_finally env acme_client elb)
       (fun o2 s2 ev2 =>
          match o2 with
          | Returned _ =>
              forall o' : outcome unit, o' <> Diverged ->
                calls_post env acme_client o' ((ev_a ++ wtail) ++ ev2)
          | Raised e => calls_post env acme_client (Raised e) ((ev_a ++ wtail) ++ ev2)
          | Diverged => False
          end /\ writes_post fullchain_path (files s) s2 ((ev_a ++ wtail) ++ ev2)) s1).
  { eapply wp_mono;
      [|apply wp_no_write;
          [apply no_write_update_elb_finally|apply update_elb_finally_spec]].
    intros o2 s2 ev2
      ((Hf2 & Ha2 & _ & Hx2 & done & ids & dtail & Hlen & Hdel & Ho2) & Hw2).
    split; [|by apply Hwrites].
    destruct o2 as [[]|e|]; [| |done].
    - destruct Ho2 as (-> & ->). intros o' Ho'.
      exists (authorizations s1), ctail, (authorizations s1), ids, [].
      rewrite change_calls_app, Hcalls, Hdel, <- !app_assoc.
      split_and!; auto. destruct o'; auto. done.
    - destruct Ho2 as (r & rest & Hsplit & ->).
      exists (authorizations s1), ctail, done, ids,
        [(record_request env acme_client "DELETE" r, Err e)].
      rewrite change_calls_app, Hcalls, Hdel, <- !app_assoc.
      split_and!; auto. right. eauto. }
  destruct o as [[]|e|].
  - eapply wp_mono; [|exact Hcleanup].
    intros [[]|e2|] s2 ev2 (Hc & Hw); [|done|done]. split; [|done]. by apply Hc.
  - eapply wp_mono; [|exact Hcleanup].
    intros [[]|e2|] s2 ev2 (Hc & Hw); [|done|done]. split; [|done]. by apply Hc.
  - split.
    + exists (authorizations s1), ctail, [], [], []. simpl.
      rewrite !app_nil_r. auto.
    + rewrite <- (app_nil_r (ev_a ++ wtail)). by apply Hwrites.
Qed.

(** A run that changes no record. *)
Lemma calls_post_nil acme_client (o : outcome unit) ev :
  change_calls ev = [] -> o <> Diverged -> calls_post env acme_client o ev.
Proof.
  intros Hc Ho. exists [], [], [], [], []. rewrite Hc.
  split_and!; [done|by left|done|]. destruct o; auto.
Qed.

Lemma calls_post_cons acme_client (o : outcome unit) e ev :
  change_call e = None -> calls_post env acme_client o ev -> calls_post env acme_client o (e :: ev).
Proof.
  intros He (recs & ctail & done & ids & dtail & Hc & H).
  exists recs, ctail, done, ids, dtail. split; [|exact H].
  unfold change_calls in *. simpl. rewrite He. exact Hc.
Qed.

(** Once the key is generated, a run is the write of the key and, when
    the key is stored, its guarded part. *)
Lemma update_elb_keyed_spec fuel acme_client elb hosts fullchain_path privatekey_path
    private_key (s : State) :
  wp (write_file env privatekey_path
        (private_bytes env private_key PEM TraditionalOpenSSL NoEncryption);;
      csr ← of_result (generate_csr private_key hosts);
      set_authorizations [];;
      try_finally
        (update_elb_try env fuel acme_client elb hosts csr fullchain_path)
        (update_elb_finally env acme_client elb))
     (fun o s' ev =>
        calls_post env acme_client o ev /\
        keyed_post env fullchain_path privatekey_path private_key s o s' ev) s.
Proof.
  unfold keyed_post. wp_step. wp_step.
  - wp_steps. simpl.
    destruct (generate_csr private_key hosts) as [csr|e]; cbv beta iota.
    + wp_steps.
      eapply wp_mono; [|apply guarded_spec; reflexivity].
      simpl. intros o s' ev (Hc & Hw). split.
      * by apply calls_post_cons.
      * by exists Stored, ev.
    + split; [by apply calls_post_nil|].
      exists Stored, []. split; [done|].
      exists [], [], []. split_and!; auto.
  - simpl. split; [by apply calls_post_nil|].
    by exists (NotStored e remains), [].
Qed.

Lemma update_elb_spec fuel acme_client force_issue elb listener hosts key_type
    cert_only create_listener fullchain_path privatekey_path (s : State) :
  wp (update_elb env fuel acme_client force_issue elb listener hosts key_type
        cert_only create_listener fullchain_path privatekey_path)
     (update_post env acme_client elb key_type fullchain_path privatekey_path s) s.
Proof.
  unfold update_elb, update_post. wp_step. wp_step. apply wp_bind.
  destruct (String.eqb_spec key_type "rsa") as [->|Hrsa];
    [|destruct (String.eqb_spec key_type "ecdsa") as [->|Hecdsa]].
  - do 2 wp_step.
    eapply wp_mono; [|apply update_elb_keyed_spec].
    simpl. intros o s' ev (Hc & Hk). split.
    + by repeat (apply calls_post_cons; [done|]).
    + intros _. eauto.
  - do 2 wp_step.
    eapply wp_mono; [|apply update_elb_keyed_spec].
    simpl. intros o s' ev (Hc & Hk). split.
    + by repeat (apply calls_post_cons; [done|]).
    + intros _. eauto.
  - wp_steps. simpl. split.
    + by apply calls_post_nil.
    + intros [?|?]; congruence.
Qed.

(** ** The properties of the specification *)

(** *** Signing requests *)

(** C6: for every non-empty host list, [generate_csr] returns a request
    whose common name is [hosts[0]] and whose only extension is a Subject
    Alternative Name extension that lists exactly the hosts, in the given
    order, and is not marked critical. *)
Theorem generate_csr_names private_key (hosts : list string) :
  hosts <> [] ->
  exists csr host0 san,
    generate_csr private_key hosts = Ok csr /\
    hosts !! 0%nat = Some host0 /\
    common_names csr = [host0] /\
    san_extensions csr = [san] /\
    san_names san = hosts /\
    critical san = false.
Proof.
  destruct hosts as [|host0 hosts]; [done|]. intros _.
  eexists _, host0, _. split; [reflexivity|].
  split_and!; try reflexivity.
  unfold san_names. simpl. f_equal.
  induction hosts as [|h hosts IH]; [done|]. simpl. by f_equal.
Qed.

(** *** Zone resolution *)

(** [longest_match] is what its name says: a matching zone with a name at
    least as long as that of every matching zone. *)
Lemma longest_match_longest domain zones z :
  longest_match domain zones = Some z ->
  forall z', z' ∈ zones -> zone_matches domain z' = true ->
    (String.length (Name z') <= String.length (Name z))%nat.
Proof.
  revert z. induction zones as [|a zones IH]; intros z Hz z' Hin Hm.
  - by apply elem_of_nil in Hin.
  - simpl in Hz. apply elem_of_cons in Hin.
    destruct (zone_matches domain a) eqn:Ha.
    + destruct (longest_match domain zones) as [b|] eqn:Hb.
      * destruct (Nat.ltb_spec (String.length (Name a)) (String.length (Name b)));
          injection Hz as <-; destruct Hin as [->|Hin];
          try lia; specialize (IH _ eq_refl _ Hin Hm); lia.
      * injection Hz as <-. destruct Hin as [->|Hin]; [lia|].
        exfalso. clear IH. induction zones as [|c zones IHz]; [by apply elem_of_nil in Hin|].
        simpl in Hb. apply elem_of_cons in Hin.
        destruct (zone_matches domain c) eqn:Hc.
        -- destruct (longest_match domain zones) as [b|];
             [destruct (_ <? _)%nat|]; discriminate.
        -- destruct Hin as [->|Hin]; [congruence|auto].
    + destruct Hin as [->|Hin]; [congruence|]. eauto.
Qed.

(** C2, as the code has it: when the listing succeeds, zone resolution
    returns the id of the first zone, in the order of the listing, whose
    name is a suffix of the domain or of the domain followed by a dot, and
    [None] exactly when no zone qualifies.  That zone is the longest
    suffix match when the zones are listed most specific first. *)
Theorem find_zone_id_for_domain_first_match domain
    (zone_pages : list (list HostedZone)) (s : State) :
  list_hosted_zones env (world s) = Ok <$> zone_pages ->
  let zones := concat zone_pages in
  let r := find_zone_id_for_domain env domain s in
  (exists found, out r = Returned found) /\
  (forall zone_id, out r = Returned (Some zone_id) ->
     exists before z after,
       zones = before ++ z :: after /\
       Forall (fun z' => zone_matches domain z' = false) before /\
       zone_matches domain z = true /\ Id z = zone_id) /\
  (out r = Returned None <-> Forall (fun z => zone_matches domain z = false) zones) /\
  (most_specific_first zones ->
     out r = Returned (Id <$> longest_match domain zones)).
Proof.
  intros Hpages zones r.
  assert (Hr : out r = Returned (scan_zones domain zones)).
  { unfold r, find_zone_id_for_domain. rewrite Hpages. apply scan_pages_concat. }
  rewrite Hr. split_and!.
  - eauto.
  - intros zone_id [= H]. by apply scan_zones_first.
  - rewrite <- scan_zones_none. split; [by intros [= ->]|by intros ->].
  - intros Hsorted. f_equal. by apply scan_zones_longest.
Qed.

(** *** Publication of a challenge *)

(** C9: [start_dns_challenge] returns a record only when the
    authorization offers exactly one single-challenge DNS-01 combination.
    With none, and with two or more, unpacking the filtered combinations
    raises ValueError, before any record is changed. *)
Theorem start_dns_challenge_exactly_one acme_client elb h (s : State) a w :
  request_domain_challenges env h (new_authz acme_client) (world s) = (Ok a, w) ->
  let r := start_dns_challenge env acme_client elb h s in
  (forall rec, out r = Returned rec ->
     authz rec = a /\ find_dns_challenge a = [dns_challenge rec]) /\
  (find_dns_challenge a = [] ->
     out r = Raised (ValueError "need more than 0 values to unpack") /\
     change_calls (events r) = []) /\
  (forall c c' l, find_dns_challenge a = c :: c' :: l ->
     out r = Raised (ValueError "too many values to unpack") /\
     change_calls (events r) = []).
Proof.
  intros Ha r. subst r.
  unfold start_dns_challenge, mbind, M_bind, bind, emit, call, out, events.
  simpl. rewrite Ha. simpl.
  destruct (find_dns_challenge a) as [|c [|c' l]] eqn:Hc; simpl.
  - split_and!; [done|done|done].
  - split_and!; [|done|done].
    destruct (find_zone_id_for_domain _ _ _) as [[[zone_id|e|] s1] ev1]; simpl;
      [|done|done].
    unfold change_txt_record, call. destruct zone_id as [zone|]; simpl; [|done].
    destruct (change_resource_record_sets _ _ _) as [[change_id|e] w1]; simpl;
      [|done].
    intros rec [= <-]. done.
  - split_and!; [done|done|]. intros ? ? ? [= <- <- <-]. done.
Qed.

Lemma all_plain_elem ev e : all_plain ev -> e ∈ ev -> plain e = true.
Proof. unfold all_plain. rewrite Forall_forall. auto. Qed.

Lemma length_append (a b : string) :
  String.length (a +:+ b) = (String.length a + String.length b)%nat.
Proof. induction a as [|c a IH]; simpl; [done|]. by rewrite IH. Qed.

(** The run of [start_dns_challenge], read off the answers it gets: it
    changes a record when the authority has answered with one DNS-01
    challenge and the zone resolution has ended, and then as its last
    step, with the zone id that was found. *)
Lemma start_dns_challenge_shape acme_client elb h (s : State) :
  let r := start_dns_challenge env acme_client elb h s in
  match request_domain_challenges env h (new_authz acme_client) (world s) with
  | (Ok a, w) =>
      match find_dns_challenge a with
      | [c] =>
          let looked_up :=
            find_zone_id_for_domain env h
              {| world := w; files := files s; authorizations := authorizations s |} in
          match out looked_up with
          | Returned zone_id =>
              exists pre res,
                all_plain pre /\
                events r =
                  pre ++ [ChangeResourceRecordSets
                            {| HostedZoneId := zone_id; Action := "CREATE";
                               RecordName := validation_domain_name env c h;
                               RecordType := "TXT"; TTL := DNS_TTL;
                               ResourceRecords :=
                                 [quoted (validation env c (key acme_client))] |}
                            res] /\
                out r = match res with
                        | Ok change_id =>
                            Returned {| host := h; authz := a; dns_challenge := c;
                                        route53_change_id := change_id;
                                        route53_zone_id := zone_id |}
                        | Err e => Raised e
                        end /\
                (zone_id = None ->
                 res = Err invalid_zone_id /\ world (final r) = world (final looked_up))
          | Raised e => all_plain (events r) /\ out r = Raised e
          | Diverged => False
          end
      | [] =>
          all_plain (events r) /\
          out r = Raised (ValueError "need more than 0 values to unpack")
      | _ :: _ :: _ =>
          all_plain (events r) /\
          out r = Raised (ValueError "too many values to unpack")
      end
  | (Err e, _) => all_plain (events r) /\ out r = Raised e
  end.
Proof.
  intros r. subst r.
  unfold start_dns_challenge, mbind, M_bind, bind, emit, call, out, final, events.
  simpl.
  destruct (request_domain_challenges env h (new_authz acme_client) (world s))
    as [[a|e] w]; simpl; [|split; [repeat constructor|done]].
  destruct (find_dns_challenge a) as [|c [|c' l]]; simpl;
    [split; [repeat constructor|done]| |split; [repeat constructor|done]].
  set (s1 := {| world := w; files := files s; authorizations := authorizations s |}).
  pose proof (find_zone_id_for_domain_frame h s1) as (Hs & Hp & Ht).
  unfold out, final, events in *.
  destruct (find_zone_id_for_domain env h s1) as [[[zone_id|e|] s2] ev2];
    simpl in *; [| |done].
  - unfold change_txt_record, call. destruct zone_id as [zone|]; simpl.
    + destruct (change_resource_record_sets env _ (world s2)) as [[change_id|e] w'];
        simpl; eexists (_ :: _ :: ev2 ++ [_]), _;
        (split_and!; [|simpl; rewrite <- ?app_assoc; reflexivity|done|done]);
        repeat (apply all_plain_cons; [done|]);
        (apply all_plain_app; [done|repeat constructor]).
    + eexists (_ :: _ :: ev2 ++ [_]), _.
      split_and!; [|simpl; rewrite <- ?app_assoc; reflexivity|done|done].
      repeat (apply all_plain_cons; [done|]).
      apply all_plain_app; [done|repeat constructor].
  - split; [|done]. repeat (apply all_plain_cons; [done|]). done.
Qed.




(** C7: the value [change_txt_record] sends is its argument between two
    double quotes, the character 34.  [start_dns_challenge] changes a
    record whenever the authority has offered one single DNS-01 challenge
    and the zone resolution has ended; the change is a CREATE of a TXT
    record that is named by the validation domain name of that challenge
    for the host and holds the challenge's validation value between
    double quotes; it makes no other change.  With the naming of DNS-01,
    which prefixes the challenge label, that name is not the host. *)
Theorem txt_record_quoted_and_named acme_client elb h action zone_id domain value
    (s : State) :
  let q := Ascii.ascii_of_nat 34 in
  let sent := fun v : string => String q (v +:+ String q EmptyString) in
  let r := start_dns_challenge env acme_client elb h s in
  (exists res,
     events (change_txt_record env action zone_id domain value s) =
       [ChangeResourceRecordSets
          {| HostedZoneId := zone_id; Action := action; RecordName := domain;
             RecordType := "TXT"; TTL := 30;
             ResourceRecords := [sent value] |} res]) /\
  (forall req res, ChangeResourceRecordSets req res ∈ events r ->
     exists a w c,
       request_domain_challenges env h (new_authz acme_client) (world s) = (Ok a, w) /\
       find_dns_challenge a = [c] /\
       Action req = "CREATE" /\ RecordType req = "TXT" /\
       RecordName req = validation_domain_name env c h /\
       ResourceRecords req = [sent (validation env c (key acme_client))]) /\
  (forall a w c found,
     request_domain_challenges env h (new_authz acme_client) (world s) = (Ok a, w) ->
     find_dns_challenge a = [c] ->
     out (find_zone_id_for_domain env h
            {| world := w; files := files s; authorizations := authorizations s |})
       = Returned found ->
     exists res,
       change_calls (events r) =
         [({| HostedZoneId := found; Action := "CREATE";
              RecordName := validation_domain_name env c h; RecordType := "TXT";
              TTL := 30;
              ResourceRecords := [sent (validation env c (key acme_client))] |},
           res)]) /\
  ((forall c name, validation_domain_name env c name = "_acme-challenge." +:+ name) ->
   forall req res, ChangeResourceRecordSets req res ∈ events r ->
     RecordName req = "_acme-challenge." +:+ h /\ RecordName req <> h).
Proof.
  intros q sent r.
  pose proof (start_dns_challenge_shape acme_client elb h s) as Hshape.
  cbv zeta in Hshape. fold r in Hshape.
  assert (Hcreate : forall req res, ChangeResourceRecordSets req res ∈ events r ->
    exists a w c,
      request_domain_challenges env h (new_authz acme_client) (world s) = (Ok a, w) /\
      find_dns_challenge a = [c] /\
      Action req = "CREATE" /\ RecordType req = "TXT" /\
      RecordName req = validation_domain_name env c h /\
      ResourceRecords req = [sent (validation env c (key acme_client))]).
  { intros req res Hin.
    assert (Hplain : all_plain (events r) -> False).
    { intros Hp. by apply (all_plain_elem _ _ Hp) in Hin. }
    destruct (request_domain_challenges env h (new_authz acme_client) (world s))
      as [[a|e] w]; [|by destruct Hshape as [Hp _]; destruct (Hplain Hp)].
    destruct (find_dns_challenge a) as [|c [|c' l]] eqn:Hc;
      [by destruct Hshape as [Hp _]; destruct (Hplain Hp)|
      |by destruct Hshape as [Hp _]; destruct (Hplain Hp)].
    cbv zeta in Hshape.
    destruct (out (find_zone_id_for_domain env h _)) as [found|e|];
      [|by destruct Hshape as [Hp _]; destruct (Hplain Hp)|done].
    destruct Hshape as (pre & res' & Hp & Hev & _).
    rewrite Hev in Hin. apply elem_of_app in Hin as [Hin|Hin].
    { by apply (all_plain_elem _ _ Hp) in Hin. }
    apply list_elem_of_singleton in Hin as [= -> ->].
    exists a, w, c. split_and!; first [reflexivity | exact Hc]. }
  split_and!.
  - unfold change_txt_record, call, events. destruct zone_id as [zone|]; simpl.
    + destruct (change_resource_record_sets _ _ _) as [res w]. by exists res.
    + by eexists.
  - exact Hcreate.
  - intros a w c found Ha Hc Hfound.
    rewrite Ha, Hc in Hshape. cbv zeta in Hshape. rewrite Hfound in Hshape.
    destruct Hshape as (pre & res & Hp & Hev & _).
    apply all_plain_projections in Hp as (Hcalls & _).
    exists res. by rewrite Hev, change_calls_app, Hcalls.
  - intros Hname req res Hin.
    destruct (Hcreate req res Hin) as (a & w & c & _ & _ & _ & _ & -> & _).
    rewrite Hname. split; [done|].
    intros Heq. apply (f_equal String.length) in Heq.
    rewrite !length_append in Heq. simpl in Heq. lia.
Qed.

(** *** Verification before submission *)

(** C5: [complete_dns_challenge] submits a response to the authority only
    if the local verification of that response against the challenge, the
    host and the account's public key has succeeded, and then as its last
    step; if the verification fails nothing is submitted, the call does
    not return, and once the DNS change is in sync it raises
    ValueError.  The result of a call that ended is the same for every
    larger polling budget. *)
Theorem complete_dns_challenge_verifies_first fuel acme_client elb rec (s : State) :
  let r := complete_dns_challenge env fuel acme_client elb rec s in
  (forall c resp res, AnswerChallenge c resp res ∈ events r ->
     local_verification env acme_client rec = true /\
     c = dns_challenge rec /\
     resp = response env (dns_challenge rec) (key acme_client) /\
     exists pre, events r = pre ++ [AnswerChallenge c resp res] /\ all_plain pre) /\
  (local_verification env acme_client rec = false ->
     answers (events r) = [] /\
     (forall v, out r <> Returned v) /\
     (out (wait_for_route53_change env fuel (route53_change_id rec) s) = Returned tt ->
      out r = Raised (ValueError "Failed verification"))) /\
  (forall fuel', (fuel <= fuel')%nat -> terminated (out r) = true ->
     complete_dns_challenge env fuel' acme_client elb rec s = r).
Proof.
  intros r.
  pose proof (complete_dns_challenge_spec fuel acme_client elb rec s) as Hspec.
  unfold wp in Hspec. fold r in Hspec.
  destruct Hspec as (_ & _ & pre & tail & Hev & Hp & Ht & Hfail).
  split; [|split; [|intros fuel' Hle Hend; by apply complete_dns_challenge_more_fuel]].
  - intros c resp res Hin. rewrite Hev in Hin.
    apply elem_of_app in Hin as [Hin|Hin].
    { by apply (all_plain_elem _ _ Hp) in Hin. }
    destruct Ht as [->|(res' & -> & Hv)]; [by apply elem_of_nil in Hin|].
    apply list_elem_of_singleton in Hin as [= -> -> ->].
    split_and!; try done. exists pre. by rewrite Hev.
  - intros Hv. destruct (Hfail Hv) as (-> & Hnot & Hraise).
    rewrite Hev, app_nil_r. split_and!; try done.
    by apply all_plain_projections in Hp as (_ & _ & _ & ->).
Qed.

(** *** Created and deleted records *)

Lemma answered_calls_fst acme_client action recs ids :
  length ids = length recs ->
  map fst (answered_calls env acme_client action recs ids) =
  map (record_request env acme_client action) recs.
Proof.
  unfold answered_calls. revert ids.
  induction recs as [|r recs IH]; intros [|id ids]; simpl; try done.
  intros [= Hlen]. by rewrite IH.
Qed.

Lemma answered_calls_filter acme_client action recs ids
    (P : ChangeRequest * result string -> bool) :
  (forall r id, P (record_request env acme_client action r, Ok id) = true) ->
  filter (fun c => P c = true) (answered_calls env acme_client action recs ids) =
  answered_calls env acme_client action recs ids.
Proof.
  intros HP. unfold answered_calls. revert ids.
  induction recs as [|r recs IH]; intros [|id ids]; simpl; try done.
  rewrite filter_cons_True by apply HP. by rewrite IH.
Qed.

Lemma answered_calls_filter_out acme_client action recs ids
    (P : ChangeRequest * result string -> bool) :
  (forall r id, P (record_request env acme_client action r, Ok id) = false) ->
  filter (fun c => P c = true) (answered_calls env acme_client action recs ids) = [].
Proof.
  intros HP. unfold answered_calls. revert ids.
  induction recs as [|r recs IH]; intros [|id ids]; simpl; try done.
  rewrite filter_cons_False by (rewrite HP; done). apply IH.
Qed.

Lemma answered_calls_ok acme_client action recs ids :
  Forall (fun c => answered_ok c = true)
    (answered_calls env acme_client action recs ids).
Proof.
  unfold answered_calls. revert ids.
  induction recs as [|r recs IH]; intros [|id ids]; simpl; constructor; auto.
Qed.

(** The key of a record's change does not depend on the action. *)
Lemma record_key_request acme_client action recs :
  map record_key (map (record_request env acme_client action) recs) =
  map record_key (map (record_request env acme_client "CREATE") recs).
Proof. induction recs as [|r recs IH]; simpl; [done|]. by rewrite IH. Qed.

(** The changes of a run, seen as the records created and the DELETE calls. *)
Lemma calls_post_views acme_client (o : outcome unit) ev :
  calls_post env acme_client o ev ->
  exists recs done ids dtail,
    created ev = map (record_request env acme_client "CREATE") recs /\
    delete_calls ev = answered_calls env acme_client "DELETE" done ids ++ dtail /\
    length ids = length done /\
    match o with
    | Returned _ => done = recs /\ dtail = []
    | Raised e =>
        (done = recs /\ dtail = []) \/
        exists r rest,
          recs = done ++ r :: rest /\
          dtail = [(record_request env acme_client "DELETE" r, Err e)]
    | Diverged => done = [] /\ dtail = []
    end.
Proof.
  intros (recs & ctail & done & ids & dtail & Hc & Hctail & Hlen & Ho).
  exists recs, done, ids, dtail.
  assert (Hdtail : dtail = [] \/ exists r e,
            dtail = [(record_request env acme_client "DELETE" r, Err e)]).
  { destruct o as [[]|e|]; [by left; apply Ho| |by left; apply Ho].
    destruct Ho as [[_ ->]|(r & rest & _ & ->)]; [by left|right; eauto]. }
  split_and!; [| |done|done].
  - unfold created. rewrite Hc, !filter_app. unfold create_calls.
    rewrite (answered_calls_filter _ "CREATE") by done.
    rewrite (answered_calls_filter_out _ "DELETE") by done.
    assert (filter (fun c => has_action "CREATE" c && answered_ok c = true) ctail = []) as ->.
    { destruct Hctail as [->|(req & e & -> & _)]; [done|].
      rewrite filter_cons_False; [done|].
      unfold answered_ok. simpl. by rewrite andb_false_r. }
    assert (filter (fun c => has_action "CREATE" c && answered_ok c = true) dtail = []) as ->.
    { destruct Hdtail as [->|(r & e & ->)]; [done|].
      rewrite filter_cons_False; done. }
    rewrite !app_nil_r. apply answered_calls_fst. by rewrite length_map.
  - unfold delete_calls. rewrite Hc, !filter_app. unfold create_calls.
    rewrite (answered_calls_filter_out _ "CREATE") by done.
    rewrite (answered_calls_filter _ "DELETE") by done.
    assert (filter (fun c => has_action "DELETE" c = true) ctail = []) as ->.
    { destruct Hctail as [->|(req & e & -> & Hreq)]; [done|].
      rewrite filter_cons_False; [done|].
      unfold has_action. simpl. by rewrite Hreq. }
    assert (filter (fun c => has_action "DELETE" c = true) dtail = dtail) as ->.
    { destruct Hdtail as [->|(r & e & ->)]; [done|].
      by rewrite filter_cons_True. }
    done.
Qed.

(** In a list of answered calls followed by at most one call, a refused
    call can only be that last one. *)
Lemma refused_call_is_last (l tail before after : list (ChangeRequest * result string)) x :
  Forall (fun c => answered_ok c = true) l ->
  answered_ok x = false ->
  (tail = [] \/ exists y, tail = [y]) ->
  l ++ tail = before ++ x :: after ->
  before = l /\ tail = [x] /\ after = [].
Proof.
  intros Hl Hx Htail. revert before.
  induction Hl as [|a l Ha _ IH]; intros before Heq; simpl in Heq.
  - destruct Htail as [->|(y & ->)].
    + by destruct before.
    + destruct before as [|b before]; simplify_eq/=; [done|].
      by destruct before.
  - destruct before as [|b before]; simplify_eq/=; [congruence|].
    destruct (IH before) as (-> & -> & ->); done.
Qed.


(** C4, as the code has it: a DELETE call that the provider refuses is
    the last DELETE call of the run; every DELETE before it was answered,
    its error is the one [update_elb] raises, and the records created
    after the one it was for are not attempted. *)
Theorem cleanup_stops_at_refused_delete fuel acme_client force_issue elb listener
    hosts key_type cert_only create_listener fullchain_path privatekey_path
    (s : State) :
  let r := update_elb env fuel acme_client force_issue elb listener hosts key_type
             cert_only create_listener fullchain_path privatekey_path s in
  forall before req e after,
    delete_calls (events r) = before ++ (req, Err e) :: after ->
    after = [] /\
    out r = Raised e /\
    Forall (fun c => answered_ok c = true) before /\
    map record_key (map fst before) ++ [record_key req]
      `prefix_of` map record_key (created (events r)).
Proof.
  intros r before req e after Hsplit.
  pose proof (update_elb_spec fuel acme_client force_issue elb listener hosts key_type
                cert_only create_listener fullchain_path privatekey_path s) as Hspec.
  unfold wp in Hspec. fold r in Hspec. destruct Hspec as [Hcalls _].
  apply calls_post_views in Hcalls
    as (recs & done & ids & dtail & Hcreated & Hdeletes & Hlen & Ho).
  rewrite Hdeletes in Hsplit.
  assert (Htail : dtail = [] \/ exists y, dtail = [y]).
  { destruct (out r) as [[]|e'|]; [by left; apply Ho| |by left; apply Ho].
    destruct Ho as [[_ ->]|(rec & rest & _ & ->)]; [by left|right; eauto]. }
  destruct (refused_call_is_last _ _ before after (req, Err e)
              (answered_calls_ok _ _ _ _) eq_refl Htail Hsplit) as (-> & -> & ->).
  destruct (out r) as [[]|e'|]; [by destruct Ho| |by destruct Ho].
  destruct Ho as [[_ [=]]|(rec & rest & -> & [= -> ->])].
  split_and!; [done|done|apply answered_calls_ok|].
  rewrite Hcreated, (answered_calls_fst _ _ _ _ Hlen), record_key_request.
  rewrite !map_app. simpl. apply prefix_app.
  exists (map record_key (map (record_request env acme_client "CREATE") rest)).
  reflexivity.
Qed.

(** *** Several entries *)

Lemma for_each_stops {A} (body : A -> M unit) (before : list A) x after
    (s : State) e :
  out (for_each before body s) = Returned tt ->
  out (body x (final (for_each before body s))) = Raised e ->
  for_each (before ++ x :: after) body s =
    (Raised e,
     final (body x (final (for_each before body s))),
     events (for_each before body s)
       ++ events (body x (final (for_each before body s)))).
Proof.
  revert s. induction before as [|y before IH]; intros s; simpl.
  - unfold mbind, M_bind, bind, out, final, events. simpl.
    destruct (body x s) as [[o s1] ev1]. simpl. by intros _ ->.
  - unfold mbind, M_bind, bind, out, final, events in *. simpl.
    destruct (body y s) as [[[[]|e'|] s1] ev1]; simpl; [|done|done].
    intros H1 H2. specialize (IH s1).
    destruct (for_each before body s1) as [[o2 s2] ev2]. simpl in *.
    rewrite (IH H1 H2). by rewrite app_assoc.
Qed.

(** C3, as the code has it: an exception raised while renewing one entry
    leaves [update_elbs] once [update_elb] has ended for that entry, its
    [finally] block included, and ends the run: the run is the runs of
    the entries before it followed by the run of [update_elb] for it, and
    no later entry is processed. *)
Theorem update_elbs_stops_at_first_error fuel acme_client force_issue
    (before : list DomainEntry) domain (after : list DomainEntry)
    cert_only create_listener fullchain_path privatekey_path (s : State) e :
  let r0 := update_elbs env fuel acme_client force_issue before
              cert_only create_listener fullchain_path privatekey_path s in
  let r1 := update_elb env fuel acme_client force_issue
              (elb_name domain)
              (default [("load_balancer_port", 443%N)] (elb_listener domain))
              (entry_hosts domain)
              (default "rsa" (entry_key_type domain))
              cert_only create_listener fullchain_path privatekey_path (final r0) in
  out r0 = Returned tt ->
  out r1 = Raised e ->
  update_elbs env fuel acme_client force_issue (before ++ domain :: after)
    cert_only create_listener fullchain_path privatekey_path s
  = (Raised e, final r1, events r0 ++ events r1).
Proof.
  intros r0 r1 H0 H1. unfold update_elbs.
  by rewrite (for_each_stops _ before domain after s e H0 H1).
Qed.

(** *** Files *)


End Proofs.

(** ** The properties on the scripted worlds *)

(** C6 on two hosts. *)
Lemma generate_csr_names_witness :
  ["a.example.com"; "b.example.com"] <> [] /\
  exists csr host0 san,
    generate_csr (RSAPrivateKey 65537 2048 "secret")
      ["a.example.com"; "b.example.com"] = Ok csr /\
    ["a.example.com"; "b.example.com"] !! 0%nat = Some host0 /\
    common_names csr = [host0] /\
    san_extensions csr = [san] /\
    san_names san = ["a.example.com"; "b.example.com"] /\
    critical san = false.
Proof.
  split; [discriminate|]. apply generate_csr_names. discriminate.
Defined.

(** C2, as stated, fails when a broader zone is listed first: the code
    answers with the zone of [com.], the longest suffix match is the zone
    of [example.com.]. *)
Lemma zone_resolution_not_longest :
  out (find_zone_id_for_domain (Scenario.env Scenario.broad_first)
         "a.example.com" Scenario.start) = Returned (Some "Z0")
  /\ Id <$> longest_match "a.example.com" [Scenario.com; Scenario.example_com]
     = Some "Z1".
Proof. split; vm_compute; reflexivity. Qed.

(** C2, as the code has it, on a listing of one zone. *)
Lemma find_zone_id_for_domain_first_match_witness :
  list_hosted_zones (Scenario.env Scenario.sunny) (world Scenario.start)
    = Ok <$> [[Scenario.example_com]]
  /\ most_specific_first (concat [[Scenario.example_com]])
  /\ out (find_zone_id_for_domain (Scenario.env Scenario.sunny)
            "a.example.com" Scenario.start)
     = Returned (Id <$> longest_match "a.example.com" (concat [[Scenario.example_com]])).
Proof.
  split; [reflexivity|].
  assert (Hsorted : most_specific_first (concat [[Scenario.example_com]])).
  { repeat constructor. }
  split; [exact Hsorted|].
  exact (proj2 (proj2 (proj2
    (find_zone_id_for_domain_first_match (Scenario.env Scenario.sunny)
       "a.example.com" [[Scenario.example_com]] Scenario.start eq_refl))) Hsorted).
Defined.

(** C9 on an authorization that offers one DNS-01 combination. *)
Lemma start_dns_challenge_exactly_one_witness :
  request_domain_challenges (Scenario.env Scenario.sunny) "a.example.com"
    (new_authz Scenario.client) (world Scenario.start)
  = (Ok (authz (Scenario.record_of "a.example.com")), 1%nat)
  /\ find_dns_challenge (authz (Scenario.record_of "a.example.com"))
     = [dns_challenge (Scenario.record_of "a.example.com")].
Proof.
  split; [reflexivity|].
  apply (proj1 (start_dns_challenge_exactly_one (Scenario.env Scenario.sunny)
                  Scenario.client "elb" "a.example.com" Scenario.start
                  (authz (Scenario.record_of "a.example.com")) 1%nat eq_refl)
           (Scenario.record_of "a.example.com")).
  vm_compute. reflexivity.
Defined.

(** C5 in a world where the verification fails. *)
Lemma complete_dns_challenge_verifies_first_witness :
  local_verification (Scenario.env Scenario.unverifiable) Scenario.client
    (Scenario.record_of "a.example.com") = false
  /\ out (wait_for_route53_change (Scenario.env Scenario.unverifiable) 3
            (route53_change_id (Scenario.record_of "a.example.com")) Scenario.start)
     = Returned tt
  /\ out (complete_dns_challenge (Scenario.env Scenario.unverifiable) 3 Scenario.client
            "elb" (Scenario.record_of "a.example.com") Scenario.start)
     = Raised (ValueError "Failed verification").
Proof.
  split; [reflexivity|]. split; [vm_compute; reflexivity|].
  apply (proj1 (proj2 (complete_dns_challenge_verifies_first
                         (Scenario.env Scenario.unverifiable) 3 Scenario.client "elb"
                         (Scenario.record_of "a.example.com") Scenario.start))).
  - reflexivity.
  - vm_compute. reflexivity.
Defined.

(** C7 in a world with the naming of DNS-01: the one change of the
    publication for [a.example.com]. *)
Lemma txt_record_quoted_and_named_witness :
  let env := Scenario.env Scenario.sunny in
  let r := start_dns_challenge env Scenario.client "elb" "a.example.com"
             Scenario.start in
  let q := Ascii.ascii_of_nat 34 in
  (forall c name, validation_domain_name env c name = "_acme-challenge." +:+ name)
  /\ (exists res,
        change_calls (events r) =
          [({| HostedZoneId := Some "Z1"; Action := "CREATE";
               RecordName := "_acme-challenge.a.example.com"; RecordType := "TXT";
               TTL := 30;
               ResourceRecords :=
                 [String q ("t-a.example.com.account" +:+ String q EmptyString)] |},
            res)])
  /\ RecordName (record_request env Scenario.client "CREATE"
                   (Scenario.record_of "a.example.com"))
     <> "a.example.com".
Proof.
  assert (Hfound :
    out (find_zone_id_for_domain (Scenario.env Scenario.sunny) "a.example.com"
           {| world := 1%nat; files := files Scenario.start;
              authorizations := authorizations Scenario.start |})
    = Returned (Some "Z1")).
  { vm_compute. reflexivity. }
  assert (Hin :
    ChangeResourceRecordSets
      (record_request (Scenario.env Scenario.sunny) Scenario.client "CREATE"
         (Scenario.record_of "a.example.com"))
      (Ok "/change/_acme-challenge.a.example.com")
    ∈ events (start_dns_challenge (Scenario.env Scenario.sunny) Scenario.client
                "elb" "a.example.com" Scenario.start)).
  { vm_compute. repeat first [apply list_elem_of_here | apply list_elem_of_further]. }
  split; [reflexivity|]. split.
  - exact (proj1 (proj2 (proj2
             (txt_record_quoted_and_named (Scenario.env Scenario.sunny)
                Scenario.client "elb" "a.example.com" "CREATE" None
                "name" "value" Scenario.start)))
             (authz (Scenario.record_of "a.example.com")) 1%nat
             (dns_challenge (Scenario.record_of "a.example.com")) (Some "Z1")
             eq_refl eq_refl Hfound).
  - exact (proj2 (proj2 (proj2 (proj2
             (txt_record_quoted_and_named (Scenario.env Scenario.sunny)
                Scenario.client "elb" "a.example.com" "CREATE" None
                "name" "value" Scenario.start)))
             (fun _ _ => eq_refl) _ _ Hin)).
Defined.





(** C4, as stated, fails: with two hosts and the DELETE of the first
    refused, both records are created and the only DELETE call made is the
    refused one; the DELETE of the second record is not attempted. *)
Lemma cleanup_abandons_remaining_records :
  let r := Scenario.renew (Scenario.delete_refused "a.example.com")
             ["a.example.com"; "b.example.com"] in
  map RecordName (created (events r))
  = ["_acme-challenge.a.example.com"; "_acme-challenge.b.example.com"]
  /\ map (fun c => (RecordName c.1, is_ok c.2)) (delete_calls (events r))
     = [("_acme-challenge.a.example.com", false)].
Proof. vm_compute. split; reflexivity. Qed.

(** C4, as the code has it, on that run. *)
Lemma cleanup_stops_at_refused_delete_witness :
  let r := Scenario.renew (Scenario.delete_refused "a.example.com")
             ["a.example.com"; "b.example.com"] in
  let refused :=
    (record_request (Scenario.env (Scenario.delete_refused "a.example.com"))
       Scenario.client "DELETE" (Scenario.record_of "a.example.com"),
     @Err string (ClientError "route53" "InvalidChangeBatch")) in
  delete_calls (events r) = [] ++ refused :: []
  /\ out r = Raised (ClientError "route53" "InvalidChangeBatch").
Proof.
  assert (Hsplit :
    delete_calls
      (events (Scenario.renew (Scenario.delete_refused "a.example.com")
                 ["a.example.com"; "b.example.com"]))
    = [] ++ (record_request (Scenario.env (Scenario.delete_refused "a.example.com"))
               Scenario.client "DELETE" (Scenario.record_of "a.example.com"),
             Err (ClientError "route53" "InvalidChangeBatch")) :: []).
  { vm_compute. reflexivity. }
  split; [exact Hsplit|].
  exact (proj1 (proj2
    (cleanup_stops_at_refused_delete
       (Scenario.env (Scenario.delete_refused "a.example.com")) 3
       Scenario.client false "elb" [("load_balancer_port", 443%N)]
       ["a.example.com"; "b.example.com"] "rsa" false false
       "/fullchain" "/key" Scenario.start _ _ _ _ Hsplit))).
Defined.

(** C3, as stated, fails: the first of two entries asks for an unknown
    key type; the run raises its ValueError and nothing is done for the
    second entry, not even its first log line. *)
Lemma update_elbs_skips_later_entries :
  let r := update_elbs (Scenario.env Scenario.sunny) 3 Scenario.client false
             [Scenario.first_entry; Scenario.second_entry] false false
             "/fullchain" "/key" Scenario.start in
  out r = Raised (ValueError "Invalid key_type: u'dsa'")
  /\ events r = [LogEmit "updating-elb" [("elb_name", "first")]]
  /\ final r = Scenario.start.
Proof. vm_compute. split_and!; reflexivity. Qed.

(** C3, as the code has it: a good entry, then the bad one, then a good
    one that is not reached. *)
Lemma update_elbs_stops_at_first_error_witness :
  let r0 := update_elbs (Scenario.env Scenario.sunny) 3 Scenario.client false
              [Scenario.second_entry] false false "/fullchain" "/key"
              Scenario.start in
  let r1 := update_elb (Scenario.env Scenario.sunny) 3 Scenario.client false
              "first" [("load_balancer_port", 443%N)] ["a.example.com"] "dsa"
              false false "/fullchain" "/key" (final r0) in
  out r0 = Returned tt
  /\ out r1 = Raised (ValueError "Invalid key_type: u'dsa'")
  /\ update_elbs (Scenario.env Scenario.sunny) 3 Scenario.client false
       ([Scenario.second_entry] ++ Scenario.first_entry :: [Scenario.second_entry])
       false false "/fullchain" "/key" Scenario.start
     = (Raised (ValueError "Invalid key_type: u'dsa'"), final r1,
        events r0 ++ events r1).
Proof.
  assert (H0 : out (update_elbs (Scenario.env Scenario.sunny) 3 Scenario.client false
                      [Scenario.second_entry] false false "/fullchain" "/key"
                      Scenario.start) = Returned tt).
  { vm_compute. reflexivity. }
  assert (H1 : out (update_elb (Scenario.env Scenario.sunny) 3 Scenario.client false
                      "first" [("load_balancer_port", 443%N)] ["a.example.com"] "dsa"
                      false false "/fullchain" "/key"
                      (final (update_elbs (Scenario.env Scenario.sunny) 3
                                Scenario.client false [Scenario.second_entry]
                                false false "/fullchain" "/key" Scenario.start)))
               = Raised (ValueError "Invalid key_type: u'dsa'")).
  { vm_compute. reflexivity. }
  split; [exact H0|]. split; [exact H1|].
  exact (update_elbs_stops_at_first_error (Scenario.env Scenario.sunny) 3
           Scenario.client false [Scenario.second_entry] Scenario.first_entry
           [Scenario.second_entry] false false "/fullchain" "/key" Scenario.start
           _ H0 H1).
Defined.


(** C10, as stated, fails as well when the key cannot be written: the
    run fails after the key was generated, and [privatekey_path] does not
    hold it. *)
Lemma failed_key_write_leaves_no_key :
  let r := Scenario.renew (Scenario.read_only "/key") ["a.example.com"] in
  out r = Raised (IOError "[Errno 13] Permission denied: '/key'")
  /\ events r
     = [LogEmit "updating-elb" [("elb_name", "elb")];
        GenerateKey (RSAPrivateKey 65537 2048 "secret");
        FileWrite "/key" "PEM secret"
          (NotStored (IOError "[Errno 13] Permission denied: '/key'") None)]
  /\ files (final r) !! "/key" = None.
Proof. vm_compute. split_and!; reflexivity. Qed.


(** ** Further properties of the script *)

(** *** Suffixes *)

Lemma substring_whole (s : string) : String.substring 0 (String.length s) s = s.
Proof. induction s as [|c s IH]; simpl; [done|]. by rewrite IH. Qed.

Lemma substring_suffix (pre suf : string) :
  String.substring (String.length pre) (String.length suf) (pre +:+ suf) = suf.
Proof. induction pre as [|c pre IH]; simpl; [apply substring_whole|exact IH]. Qed.

Lemma substring_split (s : string) (k : nat) :
  (k <= String.length s)%nat ->
  s = String.substring 0 k s +:+ String.substring k (String.length s - k) s.
Proof.
  revert k. induction s as [|c s IH]; intros [|k] Hk; simpl in *; try lia.
  - done.
  - by rewrite substring_whole.
  - change (String c s =
            String c (String.substring 0 k s
                        +:+ String.substring k (String.length s - k) s)).
    f_equal. apply IH. lia.
Qed.

(** [endswith] is Python's: the string ends with the suffix. *)
Lemma endswith_iff (s suffix : string) :
  endswith s suffix = true <-> exists pre, s = pre +:+ suffix.
Proof.
  unfold endswith. rewrite andb_true_iff, Nat.leb_le, String.eqb_eq. split.
  - intros [Hle Hsub].
    exists (String.substring 0 (String.length s - String.length suffix) s).
    pose proof (substring_split s (String.length s - String.length suffix)
                  ltac:(lia)) as Hsplit.
    replace (String.length s - (String.length s - String.length suffix))%nat
      with (String.length suffix) in Hsplit by lia.
    by rewrite Hsub in Hsplit.
  - intros [pre ->]. rewrite length_append. split; [lia|].
    replace (String.length pre + String.length suffix - String.length suffix)%nat
      with (String.length pre) by lia.
    apply substring_suffix.
Qed.

(** X1: a zone matches a domain exactly when its name is a suffix of the
    domain or of the domain followed by a dot. *)
Theorem zone_matches_iff (domain : string) (zone : HostedZone) :
  zone_matches domain zone = true <->
  exists pre, domain = pre +:+ Name zone \/ domain +:+ "." = pre +:+ Name zone.
Proof.
  unfold zone_matches. rewrite orb_true_iff, !endswith_iff. split.
  - intros [[pre H]|[pre H]]; exists pre; auto.
  - intros [pre [H|H]]; [left|right]; by exists pre.
Qed.

Lemma append_assoc (a b c : string) : (a +:+ b) +:+ c = a +:+ (b +:+ c).
Proof.
  induction a as [|x a IH]; [done|].
  change (String x ((a +:+ b) +:+ c) = String x (a +:+ b +:+ c)). by rewrite IH.
Qed.

(** X2: the match does not stop at a label: a zone named [d.] matches
    every name that ends with the characters of [d], whatever stands
    before them; in particular the domain [d] itself. *)
Theorem zone_matches_any_prefix (pre d : string) (zone : HostedZone) :
  Name zone = d +:+ "." ->
  zone_matches (pre +:+ d) zone = true /\ zone_matches d zone = true.
Proof.
  intros Hname. unfold zone_matches.
  split; apply orb_true_iff; right; apply endswith_iff.
  - exists pre. by rewrite Hname, append_assoc.
  - exists EmptyString. by rewrite Hname.
Qed.

(** ** The other functions of the script *)

(** *** [generate_certificate_name] *)

(** A date, and a time of a day; [datetime.date()] drops the time. *)
Record date := mkDate { year : N; month : N; day : N }.
Record datetime := mkDatetime { dt_date : date; dt_seconds : N }.

(** What the function reads of a certificate. *)
Record Certificate := mkCertificate { serial : N; not_valid_after : datetime }.

(** [s.zfill(width)] for a string of digits. *)
Fixpoint zeros (n : nat) : string :=
  match n with
  | O => EmptyString
  | S n' => "0" +:+ zeros n'
  end.

Definition zfill (width : nat) (s : string) : string :=
  zeros (width - String.length s) +:+ s.

(** [str(d)] for a date: year, month and day in digits, padded to four,
    two and two. *)
Definition isoformat (d : date) : string :=
  zfill 4 (pretty (year d)) +:+ "-" +:+ zfill 2 (pretty (month d))
    +:+ "-" +:+ zfill 2 (pretty (day d)).

(** [s.replace(old, new)] for single characters. *)
Fixpoint replace_char (old new : Ascii.ascii) (s : string) : string :=
  match s with
  | EmptyString => EmptyString
  | String c rest =>
      String (if Ascii.eqb c old then new else c) (replace_char old new rest)
  end.

(** The characters [.] and [_]. *)
Definition dot : Ascii.ascii := Ascii.ascii_of_nat 46.
Definition underscore : Ascii.ascii := Ascii.ascii_of_nat 95.

(** The name before it is cut. *)
Definition certificate_name_text (hosts : list string) (cert : Certificate) : string :=
  pretty (serial cert) +:+ "-" +:+ isoformat (dt_date (not_valid_after cert))
    +:+ "-" +:+ join "-" (map (replace_char dot underscore) hosts).

Definition generate_certificate_name (hosts : list string) (cert : Certificate)
    : string :=
  String.substring 0 128 (certificate_name_text hosts cert).

(** *** [get_load_balancer_certificate] *)

(** The exceptions of the lookups: those of the rest of the script, and
    the KeyError of a missing key. *)
Inductive lookup_error : Type :=
| Propagated (e : exn)
| KeyError (key : string).

Inductive looked_up (A : Type) : Type :=
| Found (a : A)
| Failed (e : lookup_error).
Arguments Found {A} a.
Arguments Failed {A} e.

(** A listener as [describe_load_balancers] lists it; a listener without
    a certificate has no [SSLCertificateId]. *)
Record ListenerDescription := mkListenerDescription {
  LoadBalancerPort : N;
  SSLCertificateId : option string
}.

Record LoadBalancerDescription := mkLoadBalancerDescription {
  ListenerDescriptions : list ListenerDescription
}.

(** The ELB client, as far as the function uses it. *)
Record ElbClient := mkElbClient {
  describe_load_balancers : list string -> result (list LoadBalancerDescription)
}.

(** What the function returns: a certificate id, or [False]. *)
Inductive certificate_or_false : Type :=
| CertificateId (arn : string)
| NoCertificate.

(** [d.get(key, default)] on a listener description of the configuration. *)
Fixpoint dict_get (key : string) (default : N) (d : Listener) : N :=
  match d with
  | [] => default
  | (k, v) :: rest => if String.eqb k key then v else dict_get key default rest
  end.

(** The loop over the listeners of the load balancer. *)
Fixpoint scan_listeners (elb_port : N) (listeners : list ListenerDescription)
    : looked_up certificate_or_false :=
  match listeners with
  | [] => Found NoCertificate
  | listener :: rest =>
      if N.eqb (LoadBalancerPort listener) elb_port then
        match SSLCertificateId listener with
        | Some arn => Found (CertificateId arn)
        | None => Failed (KeyError "SSLCertificateId")
        end
      else scan_listeners elb_port rest
  end.

Definition get_load_balancer_certificate (elb_client : ElbClient)
    (elb_name : string) (listener : Listener) : looked_up certificate_or_false :=
  let elb_port := dict_get "load_balancer_port" 443 listener in
  match describe_load_balancers elb_client [elb_name] with
  | Err e => Failed (Propagated e)
  | Ok [] => Failed (Propagated (ValueError "need more than 0 values to unpack"))
  | Ok [description] => scan_listeners elb_port (ListenerDescriptions description)
  | Ok (_ :: _ :: _) => Failed (Propagated (ValueError "too many values to unpack"))
  end.

(** *** [get_expiration_date_for_certificate] *)

Record ServerCertificateMetadata := mkServerCertificateMetadata {
  Arn : string;
  Expiration : datetime
}.

(** The IAM client: the pages of [list_server_certificates], fetched one
    by one. *)
Record IamClient := mkIamClient {
  list_server_certificates : list (result (list ServerCertificateMetadata))
}.

(** The inner loop, over one page. *)
Fixpoint scan_certificates (ssl_certificate_arn : string)
    (certificates : list ServerCertificateMetadata) : option datetime :=
  match certificates with
  | [] => None
  | server_certificate :: rest =>
      if String.eqb (Arn server_certificate) ssl_certificate_arn
      then Some (Expiration server_certificate)
      else scan_certificates ssl_certificate_arn rest
  end.

(** The outer loop; falling off its end returns [None]. *)
Fixpoint scan_certificate_pages (ssl_certificate_arn : string)
    (pages : list (result (list ServerCertificateMetadata)))
    : result (option datetime) :=
  match pages with
  | [] => Ok None
  | Err e :: _ => Err e
  | Ok certificates :: rest =>
      match scan_certificates ssl_certificate_arn certificates with
      | Some expiration => Ok (Some expiration)
      | None => scan_certificate_pages ssl_certificate_arn rest
      end
  end.

Definition get_expiration_date_for_certificate (iam_client : IamClient)
    (ssl_certificate_arn : string) : result (option datetime) :=
  scan_certificate_pages ssl_certificate_arn (list_server_certificates iam_client).

(** *** Vocabulary of the further properties *)

(** The events of the rounds of [wait_for_route53_change] that did not
    end it: a status that is not INSYNC, then a pause of five seconds. *)
Definition pending_rounds (change_id : string) (statuses : list string)
    : list event :=
  statuses ≫= fun status => [GetChange change_id (Ok status); Sleep 5].

(** The issuances of a run: the request, the authorizations sent with it
    and the certificate the authority answered with. *)
Definition issuance (e : event)
    : option (CertificateSigningRequest * list Authorization * CertificateResource) :=
  match e with
  | PollAndRequestIssuance csr authzrs (Ok c) => Some (csr, authzrs, c)
  | _ => None
  end.

Definition issuances (evs : list event)
    : list (CertificateSigningRequest * list Authorization * CertificateResource) :=
  omap issuance evs.

(** The listings of hosted zones of a run. *)
Definition zone_listing (e : event) : option (result (list HostedZone)) :=
  match e with ListHostedZonesPage r => Some r | _ => None end.

Definition zone_listings (evs : list event) : list (result (list HostedZone)) :=
  omap zone_listing evs.

(** The submission [complete_dns_challenge] makes for a record. *)
Definition submission {W} (env : Env W) (acme_client : AcmeClient)
    (r : AuthorizationRecord) : ChallengeBody * ChallengeResponse :=
  (dns_challenge r, response env (dns_challenge r) (key acme_client)).

(** The full chain [update_elb] writes for an issued certificate. *)
Definition fullchain_pem {W} (env : Env W) (c : CertificateResource)
    (chain : list X509) : string :=
  dump_certificate env (body c) +:+ join newline (map (dump_certificate env) chain).

(** What the [try] block of [update_elb] leaves behind, phase by phase:
    the events of the publication, of the completion, and of the issuance
    with the write of the full chain; what each phase never does; and,
    when the block returns, what each phase did. *)
Definition phases_post {W} (env : Env W) (acme_client : AcmeClient)
    (hosts : list string) (csr : CertificateSigningRequest)
    (fullchain_path : string) (s : State W)
    (o : outcome unit) (s' : State W) (ev : list event) : Prop :=
  exists ev1 ev2 ev3,
    ev = ev1 ++ ev2 ++ ev3 /\
    answers ev1 = [] /\ issuances ev1 = [] /\
    Forall (fun c => has_action "CREATE" c = true) (change_calls ev1) /\
    change_calls ev2 = [] /\ issuances ev2 = [] /\
    change_calls ev3 = [] /\ answers ev3 = [] /\
    (o = Returned tt ->
     map host (authorizations s') = hosts /\
     change_calls ev1 = create_calls env acme_client (authorizations s') /\
     answers ev2 = map (submission env acme_client) (authorizations s') /\
     Forall (fun r => local_verification env acme_client r = true)
       (authorizations s') /\
     exists c chain,
       issuances ev3 = [(csr, map authz (authorizations s'), c)] /\
       chain_fetches ev = [(c, chain)] /\
       file_writes ev = [(fullchain_path, fullchain_pem env c chain)] /\
       files s' = <[fullchain_path := fullchain_pem env c chain]> (files s)).

(** What the guarded part of [update_elb] leaves behind, the [finally]
    block included: the phases in order, and, when it returns, the records
    published, verified, submitted and withdrawn, the certificate issued
    for them and the full chain written. *)
Definition guarded_post {W} (env : Env W) (acme_client : AcmeClient)
    (hosts : list string) (csr : CertificateSigningRequest)
    (fullchain_path : string) (fs : gmap string string)
    (o : outcome unit) (s' : State W) (ev : list event) : Prop :=
  exists ev1 ev2 ev3,
    ev = ev1 ++ ev2 ++ ev3 /\
    answers ev1 = [] /\ issuances ev1 = [] /\
    Forall (fun c => has_action "CREATE" c = true) (change_calls ev1) /\
    change_calls ev2 = [] /\ issuances ev2 = [] /\
    answers ev3 = [] /\
    Forall (fun c => has_action "DELETE" c = true) (change_calls ev3) /\
    (o = Returned tt ->
     exists recs ids c chain,
       map host recs = hosts /\ length ids = length recs /\
       change_calls ev1 = create_calls env acme_client recs /\
       answers ev2 = map (submission env acme_client) recs /\
       Forall (fun r => local_verification env acme_client r = true) recs /\
       change_calls ev3 = answered_calls env acme_client "DELETE" recs ids /\
       issuances ev3 = [(csr, map authz recs, c)] /\
       chain_fetches ev = [(c, chain)] /\
       file_writes ev = [(fullchain_path, fullchain_pem env c chain)] /\
       files s' = <[fullchain_path := fullchain_pem env c chain]> fs).

(** The events of a run fall into three consecutive parts.  The first
    holds the publication: it submits nothing and requests no certificate,
    and its record changes are CREATE calls.  The second holds the
    completion: it changes no record and requests no certificate.  The
    third holds the issuance and the cleanup: it submits nothing, and its
    record changes are DELETE calls. *)
Definition in_phases (ev : list event) : Prop :=
  exists ev1 ev2 ev3,
    ev = ev1 ++ ev2 ++ ev3 /\
    answers ev1 = [] /\ issuances ev1 = [] /\
    Forall (fun c => has_action "CREATE" c = true) (change_calls ev1) /\
    change_calls ev2 = [] /\ issuances ev2 = [] /\
    answers ev3 = [] /\
    Forall (fun c => has_action "DELETE" c = true) (change_calls ev3).

(** The key [update_elb] generates for a key type, from the material the
    backend drew. *)
Definition key_of_type (key_type secret : string) : PrivateKey :=
  if String.eqb key_type "rsa" then RSAPrivateKey 65537 2048 secret
  else ECPrivateKey "secp256r1" secret.

(** A renewal that succeeded: with the key [k], a record was published
    for every host, in order; each passed the local verification and was
    submitted; the certificate was requested once, for the signing request
    of [k] and the hosts with the authorizations of the records; every
    record was withdrawn; and the key and the full chain were written. *)
Definition renewed {W} (env : Env W) (acme_client : AcmeClient)
    (hosts : list string) (fullchain_path privatekey_path : string)
    (fs : gmap string string) (k : PrivateKey)
    (s' : State W) (ev : list event) : Prop :=
  exists csr recs ids c chain,
    generate_csr k hosts = Ok csr /\
    map host recs = hosts /\ length ids = length recs /\
    change_calls ev =
      create_calls env acme_client recs
        ++ answered_calls env acme_client "DELETE" recs ids /\
    answers ev = map (submission env acme_client) recs /\
    Forall (fun r => local_verification env acme_client r = true) recs /\
    issuances ev = [(csr, map authz recs, c)] /\
    chain_fetches ev = [(c, chain)] /\
    file_writes ev =
      [(privatekey_path, private_bytes env k PEM TraditionalOpenSSL NoEncryption);
       (fullchain_path, fullchain_pem env c chain)] /\
    files s' =
      <[fullchain_path := fullchain_pem env c chain]>
        (<[privatekey_path := private_bytes env k PEM TraditionalOpenSSL NoEncryption]>
           fs).

(** The first listener on a port: the listeners before it are on other
    ports. *)
Definition first_on_port (elb_port : N) (listeners before : list ListenerDescription)
    (listener : ListenerDescription) (after : list ListenerDescription) : Prop :=
  listeners = before ++ listener :: after /\
  Forall (fun l => LoadBalancerPort l <> elb_port) before /\
  LoadBalancerPort listener = elb_port.

(** One step of symbolic execution, outside the section of the claims. *)
Ltac run_step :=
  lazymatch goal with
  | |- wp (mbind _ _) _ _ => apply wp_bind
  | |- wp (ret _) _ _ => apply wp_ret
  | |- wp (raise _) _ _ => apply wp_raise
  | |- wp diverge _ _ => apply wp_diverge
  | |- wp (emit _ _) _ _ => apply wp_emit
  | |- wp (sleep _) _ _ => apply wp_sleep
  | |- wp (write_file _ _ _) _ _ => apply wp_write_file; [intros ?|intros ? ? ?]
  | |- wp get_authorizations _ _ => apply wp_get_authorizations
  | |- wp (set_authorizations _) _ _ => apply wp_set_authorizations
  | |- wp (append_authorization _) _ _ => unfold append_authorization
  | |- wp (of_result _) _ _ => apply wp_of_result
  | |- wp (call _ _) _ _ => apply wp_call; intros [?|?] ? ?
  | |- wp (change_txt_record _ _ _ _ _) _ _ =>
      apply wp_change_txt_record; intros [?|?] ?
  | |- wp (fresh_key _ _) _ _ => apply wp_fresh_key; intros ? ? ?
  | |- wp (generate_rsa_private_key _) _ _ => unfold generate_rsa_private_key
  | |- wp (generate_ecdsa_private_key _) _ _ => unfold generate_ecdsa_private_key
  end;
  cbv beta iota.

Ltac run_steps := repeat run_step.

Section Extras.

Context {W : Type}.
Variable env : Env W.

Abbreviation M := (@M W).
Abbreviation State := (State W).

(** *** Listing the hosted zones *)

Lemma scan_pages_cons_ok domain zones (rest : list (result (list HostedZone)))
    (s : State) :
  scan_pages domain (Ok zones :: rest) s =
  match scan_zones domain zones with
  | Some zone_id => (Returned (Some zone_id), s, [ListHostedZonesPage (Ok zones)])
  | None =>
      (out (scan_pages domain rest s), final (scan_pages domain rest s),
       ListHostedZonesPage (Ok zones) :: events (scan_pages domain rest s))
  end.
Proof.
  simpl. unfold mbind, M_bind, bind, out, final, events. simpl.
  destruct (scan_zones domain zones); [done|].
  by destruct (scan_pages domain rest s) as [[o s'] ev].
Qed.

(** X3: the pages are fetched one by one and the search stops at the
    first page with a match; what the later pages hold, or whether they
    can be fetched at all, does not matter, and they are not asked for. *)
Theorem find_zone_id_for_domain_stops_at_match domain
    (fetched : list (list HostedZone)) later zone_id (s : State) :
  list_hosted_zones env (world s) = (Ok <$> fetched) ++ later ->
  scan_zones domain (concat fetched) = Some zone_id ->
  let r := find_zone_id_for_domain env domain s in
  out r = Returned (Some zone_id) /\ final r = s /\
  (length (events r) <= length fetched)%nat.
Proof.
  intros Hpages Hfound r. subst r. unfold find_zone_id_for_domain.
  rewrite Hpages. clear Hpages.
  induction fetched as [|zones fetched IH]; [done|].
  rewrite fmap_cons. simpl app. rewrite scan_pages_cons_ok.
  simpl in Hfound.
  assert (Hsplit : scan_zones domain (zones ++ concat fetched) =
            match scan_zones domain zones with
            | Some z => Some z
            | None => scan_zones domain (concat fetched)
            end).
  { clear. induction zones as [|z zones IHz]; [done|].
    simpl. destruct (zone_matches domain z); auto. }
  rewrite Hsplit in Hfound.
  destruct (scan_zones domain zones) as [z|].
  - injection Hfound as ->. simpl. split_and!; [done|done|lia].
  - destruct (IH Hfound) as (Ho & Hs & Hn). unfold out, final, events in *.
    simpl. split_and!; [done|done|lia].
Qed.

(** X4: a page that cannot be fetched before any zone has matched ends
    the search with the error of the listing; it is not taken for the
    absence of a zone. *)
Theorem find_zone_id_for_domain_listing_error domain
    (fetched : list (list HostedZone)) e later (s : State) :
  list_hosted_zones env (world s) = (Ok <$> fetched) ++ Err e :: later ->
  scan_zones domain (concat fetched) = None ->
  let r := find_zone_id_for_domain env domain s in
  out r = Raised e /\ final r = s /\
  events r = (ListHostedZonesPage <$> (Ok <$> fetched)) ++ [ListHostedZonesPage (Err e)].
Proof.
  intros Hpages Hnone r. subst r. unfold find_zone_id_for_domain.
  rewrite Hpages. clear Hpages.
  induction fetched as [|zones fetched IH]; [done|].
  rewrite !fmap_cons. simpl app. rewrite scan_pages_cons_ok.
  simpl in Hnone. apply scan_zones_none in Hnone.
  apply Forall_app in Hnone as [Hzones Hrest].
  apply scan_zones_none in Hzones, Hrest. rewrite Hzones.
  destruct (IH Hrest) as (Ho & Hs & Hev). unfold out, final, events in *.
  simpl. by rewrite Ho, Hs, Hev.
Qed.

(** *** The challenges of an authorization *)

(** X5: [find_dns_challenge] yields exactly the DNS-01 challenges that
    stand alone in a combination; a DNS-01 challenge combined with
    another challenge is not yielded. *)
Theorem find_dns_challenge_iff (a : Authorization) (c : ChallengeBody) :
  c ∈ find_dns_challenge a <->
  [c] ∈ resolved_combinations a /\ is_DNS01 (chall c) = true.
Proof.
  split.
  - intros H. destruct (find_dns_challenge_DNS01 a c H). done.
  - unfold find_dns_challenge. intros [Hin Hdns].
    induction (resolved_combinations a) as [|combo combos IH];
      [by apply elem_of_nil in Hin|].
    apply elem_of_cons in Hin as [<-|Hin]; simpl.
    + rewrite Hdns. by left.
    + destruct combo as [|c0 [|c1 combo]]; auto.
      destruct (is_DNS01 (chall c0)); [right|]; auto.
Qed.

(** *** Waiting for a change *)

(** X6: [wait_for_route53_change] asks for the status of the change and
    nothing else, pauses five seconds after every answer that is not
    INSYNC, and returns only on the answer INSYNC, without a pause after
    it; an error of the status call ends it at once. *)
Theorem wait_for_route53_change_rounds fuel change_id (s : State) :
  let r := wait_for_route53_change env fuel change_id s in
  exists statuses,
    Forall (fun status => status <> "INSYNC") statuses /\
    match out r with
    | Returned _ =>
        (length statuses < fuel)%nat /\
        events r = pending_rounds change_id statuses
                     ++ [GetChange change_id (Ok "INSYNC")]
    | Raised e =>
        (length statuses < fuel)%nat /\
        events r = pending_rounds change_id statuses
                     ++ [GetChange change_id (Err e)]
    | Diverged =>
        length statuses = fuel /\ events r = pending_rounds change_id statuses
    end.
Proof.
  revert s. induction fuel as [|fuel IH]; intros s; simpl.
  - exists []. split; [constructor|]. done.
  - unfold mbind, M_bind, bind, call, sleep, out, events. simpl.
    destruct (get_change env change_id (world s)) as [[status|e] w]; simpl.
    + destruct (String.eqb_spec status "INSYNC") as [->|Hne]; simpl.
      * exists []. split; [constructor|]. split; [simpl; lia|done].
      * specialize (IH {| world := w; files := files s;
                          authorizations := authorizations s |}).
        unfold out, events in IH.
        destruct (wait_for_route53_change env fuel change_id _) as [[o s'] ev].
        simpl in *. destruct IH as (statuses & Hall & Ho).
        exists (status :: statuses). split; [by constructor|].
        destruct o as [[]|e|]; simpl.
        -- destruct Ho as [Hn ->]. split; [lia|done].
        -- destruct Ho as [Hn ->]. split; [lia|done].
        -- destruct Ho as [Hn ->]. split; [lia|done].
    + exists []. split; [constructor|]. split; [simpl; lia|done].
Qed.

(** *** Publication of one challenge *)

(** X7: [start_dns_challenge] writes no file, submits nothing to the
    authority and leaves the list of authorizations alone; it makes at
    most one record change, a CREATE, and when it returns a record that
    change is the CREATE of the record, for the host asked for, answered
    with the record's change id. *)
Theorem start_dns_challenge_effects acme_client elb h (s : State) :
  let r := start_dns_challenge env acme_client elb h s in
  files (final r) = files s /\
  authorizations (final r) = authorizations s /\
  file_writes (events r) = [] /\
  answers (events r) = [] /\
  chain_fetches (events r) = [] /\
  (length (change_calls (events r)) <= 1)%nat /\
  Forall (fun c => has_action "CREATE" c = true) (change_calls (events r)) /\
  (forall rec, out r = Returned rec ->
     host rec = h /\
     change_calls (events r) =
       [(record_request env acme_client "CREATE" rec, Ok (route53_change_id rec))]).
Proof.
  intros r.
  pose proof (start_dns_challenge_spec env acme_client elb h s) as Hspec.
  unfold wp in Hspec. fold r in Hspec.
  destruct Hspec as (Hf & Ha & pre & tail & Hev & Hp & Ho).
  apply all_plain_projections in Hp as (Hc & Hw & Hx & Hans).
  rewrite Hev. unfold change_calls, file_writes, answers, chain_fetches in *.
  rewrite !omap_app, Hc, Hw, Hx, Hans. simpl.
  destruct (out r) as [rec|e|]; [| |done].
  - destruct Ho as (Hh & _ & ->). simpl.
    split_and!;
      first [done | lia | by repeat constructor | by intros ? [= <-]].
  - destruct Ho as [->|(c & z & _ & ->)]; simpl;
      split_and!; first [done | lia | by repeat constructor].
Qed.

(** X8: [start_dns_challenge] turns to the DNS provider, to list the
    zones or to change a record, only after the authority has answered
    with exactly one single-challenge DNS-01 combination. *)
Theorem start_dns_challenge_asks_authority_first acme_client elb h (s : State) :
  let r := start_dns_challenge env acme_client elb h s in
  zone_listings (events r) <> [] \/ change_calls (events r) <> [] ->
  exists a c w,
    request_domain_challenges env h (new_authz acme_client) (world s) = (Ok a, w) /\
    find_dns_challenge a = [c].
Proof.
  intros r. subst r.
  unfold start_dns_challenge, mbind, M_bind, bind, emit, call, out, events.
  simpl.
  destruct (request_domain_challenges env h (new_authz acme_client) (world s))
    as [[a|e] w]; simpl.
  - destruct (find_dns_challenge a) as [|c [|c' l]] eqn:Hc; simpl.
    + intros [H|H]; done.
    + intros _. exists a, c, w. split; first [reflexivity | exact Hc].
    + intros [H|H]; done.
  - intros [H|H]; done.
Qed.

(** *** Issuance *)

(** X9: [request_certificate] asks the authority to issue for the request
    it was given and the authorizations of the records, in their order,
    and fetches the chain of the certificate it got; it returns the PEM of
    that certificate and the PEMs of the chain joined by newlines.  When
    the issuance fails no chain is fetched. *)
Theorem request_certificate_result acme_client elb auths csr (s : State) :
  let r := request_certificate env acme_client elb auths csr s in
  (forall pems, out r = Returned pems ->
     exists c chain,
       events r = [LogEmit "updating-elb.request-cert" [("elb_name", elb)];
                   PollAndRequestIssuance csr (map authz auths) (Ok c);
                   FetchChain c (Ok chain)] /\
       pems = (dump_certificate env (body c),
               join newline (map (dump_certificate env) chain))) /\
  (forall e, out r = Raised e ->
     chain_fetches (events r) = [] /\
     (issuances (events r) = [] ->
      events r = [LogEmit "updating-elb.request-cert" [("elb_name", elb)];
                  PollAndRequestIssuance csr (map authz auths) (Err e)])) /\
  out r <> Diverged.
Proof.
  intros r. subst r.
  unfold request_certificate, mbind, M_bind, bind, emit, call, out, events.
  simpl.
  destruct (poll_and_request_issuance env csr (map authz auths) (world s))
    as [[c|e] w]; simpl.
  - destruct (fetch_chain env c w) as [[chain|e] w']; simpl.
    + split_and!; [|done|done]. intros ? [= <-]. by exists c, chain.
    + split_and!; [done| |done]. intros ? [= <-]. split; done.
  - split_and!; [done| |done]. intros ? [= <-]. split; done.
Qed.

(** *** Entries that cannot be renewed *)



(** *** A CREATE that is refused *)

(** X12: in a run of [update_elb] a CREATE that the provider refuses is
    the last CREATE of the run: the hosts after it are not published; the
    CREATE calls before it were answered, and the run does not return. *)
Theorem update_elb_refused_create_is_last fuel acme_client force_issue elb listener
    hosts key_type cert_only create_listener fullchain_path privatekey_path
    (s : State) :
  let r := update_elb env fuel acme_client force_issue elb listener hosts key_type
             cert_only create_listener fullchain_path privatekey_path s in
  forall before req e after,
    filter (fun c => has_action "CREATE" c = true) (change_calls (events r))
      = before ++ (req, Err e) :: after ->
    after = [] /\ Forall (fun c => answered_ok c = true) before.
Proof.
  intros r before req e after Hsplit.
  pose proof (update_elb_spec env fuel acme_client force_issue elb listener hosts
                key_type cert_only create_listener fullchain_path privatekey_path s)
    as Hspec.
  unfold wp in Hspec. fold r in Hspec.
  destruct Hspec as [(recs & ctail & done & ids & dtail & Hc & Hctail & Hlen & Ho) _].
  rewrite Hc, !filter_app in Hsplit. unfold create_calls in Hsplit.
  rewrite (answered_calls_filter env _ "CREATE") in Hsplit by done.
  rewrite (answered_calls_filter_out env _ "DELETE") in Hsplit by done.
  assert (Hd : filter (fun c => has_action "CREATE" c = true) dtail = []).
  { destruct (out r) as [[]|e'|]; [by destruct Ho as [_ ->]| |by destruct Ho as [_ ->]].
    destruct Ho as [[_ ->]|(rec & rest & _ & ->)]; [done|].
    by rewrite filter_cons_False. }
  rewrite Hd, !app_nil_r in Hsplit.
  assert (Htail : filter (fun c => has_action "CREATE" c = true) ctail = []
                  \/ exists y, filter (fun c => has_action "CREATE" c = true) ctail = [y]).
  { destruct Hctail as [->|(req' & e' & -> & Hreq)]; [by left|right].
    exists (req', Err e'). rewrite filter_cons_True; [done|].
    unfold has_action. simpl. by rewrite Hreq. }
  destruct (refused_call_is_last _ _ before after (req, Err e)
              (answered_calls_ok env _ _ _ _) eq_refl Htail Hsplit) as (-> & _ & ->).
  split; [done|]. apply answered_calls_ok.
Qed.

(** *** The phases of a run *)

Lemma all_plain_omap {A} (f : event -> option A) ev :
  (forall e, plain e = true -> f e = None) -> all_plain ev -> omap f ev = [].
Proof.
  intros Hf. induction 1 as [|e ev He _ IH]; [done|].
  simpl. rewrite (Hf e He). exact IH.
Qed.

Lemma all_plain_issuances ev : all_plain ev -> issuances ev = [].
Proof. apply all_plain_omap. by intros []. Qed.

Lemma issuances_app ev1 ev2 : issuances (ev1 ++ ev2) = issuances ev1 ++ issuances ev2.
Proof. apply omap_app. Qed.

(** What [complete_dns_challenge] did when it returns. *)
Lemma complete_dns_challenge_returned fuel acme_client elb r (s : State) :
  wp (complete_dns_challenge env fuel acme_client elb r)
     (fun o s' ev =>
        files s' = files s /\ authorizations s' = authorizations s /\
        change_calls ev = [] /\ file_writes ev = [] /\ chain_fetches ev = [] /\
        issuances ev = [] /\
        (o = Returned tt ->
         answers ev = [submission env acme_client r] /\
         local_verification env acme_client r = true)) s.
Proof.
  unfold complete_dns_challenge. run_steps.
  eapply wp_mono; [|apply wait_for_route53_change_frame].
  simpl. intros o s1 ev1 (Hf & Ha & Hp).
  pose proof (all_plain_issuances _ Hp) as Hi.
  apply all_plain_projections in Hp as (Hc & Hw & Hx & Hans).
  fold (local_verification env acme_client r).
  assert (Hquiet : forall tail,
            change_calls tail = [] -> file_writes tail = [] ->
            chain_fetches tail = [] -> issuances tail = [] ->
            change_calls (ev1 ++ tail) = [] /\ file_writes (ev1 ++ tail) = [] /\
            chain_fetches (ev1 ++ tail) = [] /\ issuances (ev1 ++ tail) = []).
  { intros tail H1 H2 H3 H4.
    rewrite change_calls_app, file_writes_app, chain_fetches_app, issuances_app.
    by rewrite Hc, Hw, Hx, Hi, H1, H2, H3, H4. }
  destruct o as [[]|e|].
  - run_steps.
    destruct (local_verification env acme_client r) eqn:Hv; simpl; run_steps; simpl.
    + destruct (Hquiet [LogEmit "updating-elb.local-validation"
                          [("elb_name", elb); ("host", host r)];
                        LogEmit "updating-elb.answer-challenge"
                          [("elb_name", elb); ("host", host r)];
                        AnswerChallenge (dns_challenge r)
                          (response env (dns_challenge r) (key acme_client)) (Ok a)])
        as (H1 & H2 & H3 & H4); try done.
      split_and!; try done. intros _. split; [|done].
      by rewrite answers_app, Hans.
    + destruct (Hquiet [LogEmit "updating-elb.local-validation"
                          [("elb_name", elb); ("host", host r)];
                        LogEmit "updating-elb.answer-challenge"
                          [("elb_name", elb); ("host", host r)];
                        AnswerChallenge (dns_challenge r)
                          (response env (dns_challenge r) (key acme_client)) (Err e)])
        as (H1 & H2 & H3 & H4); try done.
    + destruct (Hquiet [LogEmit "updating-elb.local-validation"
                          [("elb_name", elb); ("host", host r)]])
        as (H1 & H2 & H3 & H4); try done.
  - rewrite <- (app_nil_r ev1). destruct (Hquiet []) as (H1 & H2 & H3 & H4); done.
  - rewrite <- (app_nil_r ev1). destruct (Hquiet []) as (H1 & H2 & H3 & H4); done.
Qed.

(** The first loop, host by host. *)
Lemma publish_loop_hosts acme_client elb hosts (s : State) :
  authorizations s = [] ->
  wp (for_each hosts (fun h =>
        authz_record ← start_dns_challenge env acme_client elb h;
        append_authorization authz_record))
     (fun o s1 ev1 =>
        files s1 = files s /\ answers ev1 = [] /\ issuances ev1 = [] /\
        file_writes ev1 = [] /\ chain_fetches ev1 = [] /\
        Forall (fun c => has_action "CREATE" c = true) (change_calls ev1) /\
        (o = Returned tt ->
         map host (authorizations s1) = hosts /\
         change_calls ev1 = create_calls env acme_client (authorizations s1))) s.
Proof.
  intros Hnil.
  pose (I := fun (done : list string) (s1 : State) (ev1 : list event) =>
    files s1 = files s /\ answers ev1 = [] /\ issuances ev1 = [] /\
    file_writes ev1 = [] /\ chain_fetches ev1 = [] /\
    Forall (fun c => has_action "CREATE" c = true) (change_calls ev1) /\
    map host (authorizations s1) = done /\
    change_calls ev1 = create_calls env acme_client (authorizations s1)).
  pose (Q := fun (o : outcome unit) (s1 : State) (ev1 : list event) =>
    files s1 = files s /\ answers ev1 = [] /\ issuances ev1 = [] /\
    file_writes ev1 = [] /\ chain_fetches ev1 = [] /\
    Forall (fun c => has_action "CREATE" c = true) (change_calls ev1) /\
    (o = Returned tt ->
     map host (authorizations s1) = hosts /\
     change_calls ev1 = create_calls env acme_client (authorizations s1))).
  apply (wp_for_each _ I Q hosts [] s []).
  - unfold I. rewrite Hnil. split_and!; done.
  - intros h done' rest s' ev' _ (Hf & Hans & Hi & Hw & Hx & Hall & Hhosts & Hcalls).
    apply wp_bind.
    eapply wp_mono; [|apply start_dns_challenge_spec].
    intros o s1 ev1 Hstart.
    pose proof (start_post_projections env _ _ _ _ _ _ Hstart) as (Hw1 & Hx1 & Ho).
    destruct Hstart as (Hf1 & Ha1 & pre & tail & Hev & Hp & Htail).
    assert (Hans1 : answers ev1 = [] /\ issuances ev1 = []).
    { rewrite Hev, answers_app, issuances_app, (all_plain_issuances _ Hp).
      apply all_plain_projections in Hp as (_ & _ & _ & ->).
      destruct o as [r|e|]; [| |done].
      - by destruct Htail as (_ & _ & ->).
      - by destruct Htail as [->|(c & z & _ & ->)]. }
    destruct Hans1 as [Hans1 Hi1].
    assert (Hcreate : Forall (fun c => has_action "CREATE" c = true)
                        (change_calls (ev' ++ ev1))).
    { rewrite change_calls_app. apply Forall_app. split; [done|].
      destruct o as [r|e|]; [| |done].
      - rewrite Ho. by repeat constructor.
      - destruct Ho as [->|(req & -> & Hreq)]; [constructor|].
        repeat constructor. unfold has_action. simpl. by rewrite Hreq. }
    destruct o as [r|e|]; [| |done].
    + run_steps. unfold I. simpl. rewrite app_nil_r.
      destruct Htail as (Hh & _ & _).
      rewrite answers_app, issuances_app, file_writes_app, chain_fetches_app.
      rewrite Hans, Hans1, Hi, Hi1, Hw, Hw1, Hx, Hx1.
      split_and!; try done; [congruence| |].
      * rewrite Ha1, map_app, Hhosts. simpl. by rewrite Hh.
      * rewrite change_calls_app, Hcalls, Ho, Ha1, create_calls_snoc. done.
    + unfold Q.
      rewrite answers_app, issuances_app, file_writes_app, chain_fetches_app.
      rewrite Hans, Hans1, Hi, Hi1, Hw, Hw1, Hx, Hx1.
      split_and!; try done. congruence.
  - intros s' ev' (Hf & Hans & Hi & Hw & Hx & Hall & Hhosts & Hcalls).
    unfold Q. rewrite app_nil_l in Hhosts. split_and!; done.
Qed.

(** The second loop, record by record. *)
Lemma complete_loop_records fuel acme_client elb auths (s : State) :
  wp (for_each auths (fun authz_record =>
        complete_dns_challenge env fuel acme_client elb authz_record))
     (fun o s1 ev1 =>
        files s1 = files s /\ authorizations s1 = authorizations s /\
        change_calls ev1 = [] /\ file_writes ev1 = [] /\ chain_fetches ev1 = [] /\
        issuances ev1 = [] /\
        (o = Returned tt ->
         answers ev1 = map (submission env acme_client) auths /\
         Forall (fun r => local_verification env acme_client r = true) auths)) s.
Proof.
  pose (I := fun (done : list AuthorizationRecord) (s1 : State) (ev1 : list event) =>
    files s1 = files s /\ authorizations s1 = authorizations s /\
    change_calls ev1 = [] /\ file_writes ev1 = [] /\ chain_fetches ev1 = [] /\
    issuances ev1 = [] /\
    answers ev1 = map (submission env acme_client) done /\
    Forall (fun r => local_verification env acme_client r = true) done).
  pose (Q := fun (o : outcome unit) (s1 : State) (ev1 : list event) =>
    files s1 = files s /\ authorizations s1 = authorizations s /\
    change_calls ev1 = [] /\ file_writes ev1 = [] /\ chain_fetches ev1 = [] /\
    issuances ev1 = [] /\
    (o = Returned tt ->
     answers ev1 = map (submission env acme_client) auths /\
     Forall (fun r => local_verification env acme_client r = true) auths)).
  apply (wp_for_each _ I Q auths [] s []).
  - unfold I. split_and!; done.
  - intros r done' rest s' ev' _ (Hf & Ha & Hc & Hw & Hx & Hi & Hans & Hall).
    eapply wp_mono; [|apply complete_dns_challenge_returned].
    intros o s1 ev1 (Hf1 & Ha1 & Hc1 & Hw1 & Hx1 & Hi1 & Ho).
    assert (Hquiet : files s1 = files s /\ authorizations s1 = authorizations s /\
              change_calls (ev' ++ ev1) = [] /\ file_writes (ev' ++ ev1) = [] /\
              chain_fetches (ev' ++ ev1) = [] /\ issuances (ev' ++ ev1) = []).
    { rewrite change_calls_app, file_writes_app, chain_fetches_app, issuances_app.
      rewrite Hc, Hc1, Hw, Hw1, Hx, Hx1, Hi, Hi1. split_and!; try done; congruence. }
    destruct Hquiet as (H1 & H2 & H3 & H4 & H5 & H6).
    destruct o as [[]|e|].
    + destruct (Ho eq_refl) as [Hans1 Hv]. unfold I.
      split_and!; try done.
      * rewrite answers_app, Hans, Hans1, map_app. done.
      * apply Forall_app. split; [done|by constructor].
    + unfold Q. split_and!; done.
    + unfold Q. split_and!; done.
  - intros s' ev' (Hf & Ha & Hc & Hw & Hx & Hi & Hans & Hall).
    unfold Q. split_and!; done.
Qed.

(** The outcomes of [request_certificate]. *)
Lemma request_certificate_cases acme_client elb auths csr (s : State) :
  wp (request_certificate env acme_client elb auths csr)
     (fun o s' ev =>
        files s' = files s /\ authorizations s' = authorizations s /\
        change_calls ev = [] /\ file_writes ev = [] /\ answers ev = [] /\
        match o with
        | Returned pems =>
            exists c chain,
              ev = [LogEmit "updating-elb.request-cert" [("elb_name", elb)];
                    PollAndRequestIssuance csr (map authz auths) (Ok c);
                    FetchChain c (Ok chain)] /\
              pems = (dump_certificate env (body c),
                      join newline (map (dump_certificate env) chain))
        | Raised e =>
            chain_fetches ev = [] /\
            (issuances ev = [] ->
             ev = [LogEmit "updating-elb.request-cert" [("elb_name", elb)];
                   PollAndRequestIssuance csr (map authz auths) (Err e)])
        | Diverged => False
        end) s.
Proof.
  unfold request_certificate. run_steps; simpl; split_and!; try done.
  eauto.
Qed.

(** The [finally] block submits nothing, issues nothing, and its record
    changes are DELETE calls. *)
Lemma update_elb_finally_quiet acme_client elb (s : State) :
  wp (update_elb_finally env acme_client elb)
     (fun o s' ev =>
        answers ev = [] /\ issuances ev = [] /\
        Forall (fun c => has_action "DELETE" c = true) (change_calls ev)) s.
Proof.
  unfold update_elb_finally. run_steps.
  pose (I := fun (_ : list AuthorizationRecord) (_ : State) (ev1 : list event) =>
    answers ev1 = [] /\ issuances ev1 = [] /\
    Forall (fun c => has_action "DELETE" c = true) (change_calls ev1)).
  apply (wp_for_each _ I (fun _ => I []) (authorizations s) [] s []).
  - unfold I. split_and!; [done|done|constructor].
  - intros r done' rest s' ev' _ (Hans & Hi & Hall).
    assert (Hstep : forall res,
              I [] s' (ev' ++ [LogEmit "updating-elb.delete-txt-record"
                                [("elb_name", elb); ("host", host r)];
                              ChangeResourceRecordSets
                                (record_request env acme_client "DELETE" r) res])).
    { intros res. unfold I.
      rewrite answers_app, issuances_app, change_calls_app, Hans, Hi.
      split_and!; [done|done|]. apply Forall_app. split; [done|].
      by repeat constructor. }
    run_steps; simpl; rewrite ?app_nil_r; apply Hstep.
  - auto.
Qed.

Lemma update_elb_try_phases fuel acme_client elb hosts csr fullchain_path
    (s : State) :
  authorizations s = [] ->
  wp (update_elb_try env fuel acme_client elb hosts csr fullchain_path)
     (phases_post env acme_client hosts csr fullchain_path s) s.
Proof.
  intros Hnil. unfold update_elb_try.
  apply wp_bind.
  eapply wp_mono; [|apply (publish_loop_hosts acme_client elb hosts s Hnil)].
  intros o s1 ev1 (Hf1 & Hans1 & Hi1 & Hw1 & Hx1 & Hall1 & Ho1).
  assert (Hstop1 : forall o' : outcome unit, o' <> Returned tt ->
            phases_post env acme_client hosts csr fullchain_path s o' s1 ev1).
  { intros o' Ho'. exists ev1, [], []. rewrite !app_nil_r. split_and!; done. }
  destruct o as [[]|e|]; [|by apply Hstop1|by apply Hstop1].
  destruct (Ho1 eq_refl) as [Hhosts Hcalls1].
  run_steps.
  eapply wp_mono; [|apply complete_loop_records].
  intros o s2 ev2 (Hf2 & Ha2 & Hc2 & Hw2 & Hx2 & Hi2 & Ho2).
  assert (Hstop2 : forall o' : outcome unit, o' <> Returned tt ->
            phases_post env acme_client hosts csr fullchain_path s o' s2
              (ev1 ++ [] ++ ev2)).
  { intros o' Ho'. exists ev1, ev2, []. rewrite !app_nil_r. split_and!; done. }
  destruct o as [[]|e|]; [|by apply Hstop2|by apply Hstop2].
  destruct (Ho2 eq_refl) as [Hans2 Hver].
  run_steps.
  eapply wp_mono; [|apply request_certificate_cases].
  intros o s3 ev3 (Hf3 & Ha3 & Hc3 & Hw3 & Hans3 & Ho3).
  destruct o as [[pem chain_pem]|e|]; [| |done].
  - destruct Ho3 as (c & chain & -> & [= -> ->]).
    run_steps; simpl.
    + exists ev1, ev2,
        [LogEmit "updating-elb.request-cert" [("elb_name", elb)];
         PollAndRequestIssuance csr (map authz (authorizations s2)) (Ok c);
         FetchChain c (Ok chain);
         FileWrite fullchain_path (fullchain_pem env c chain) Stored].
      split_and!; try done.
      intros _. rewrite Ha3, Ha2. split_and!; try done.
      exists c, chain. split_and!; try done.
      * rewrite !chain_fetches_app, Hx1, Hx2. done.
      * rewrite !file_writes_app, Hw1, Hw2. done.
      * simpl. unfold fullchain_pem. congruence.
    + exists ev1, ev2,
        [LogEmit "updating-elb.request-cert" [("elb_name", elb)];
         PollAndRequestIssuance csr (map authz (authorizations s2)) (Ok c);
         FetchChain c (Ok chain);
         FileWrite fullchain_path (fullchain_pem env c chain) (NotStored e remains)].
      split_and!; done.
  - exists ev1, ev2, ev3. simpl. split_and!; done.
Qed.

Lemma guarded_phases fuel acme_client elb hosts csr fullchain_path (s : State) :
  authorizations s = [] ->
  wp (try_finally
        (update_elb_try env fuel acme_client elb hosts csr fullchain_path)
        (update_elb_finally env acme_client elb))
     (guarded_post env acme_client hosts csr fullchain_path (files s)) s.
Proof.
  intros Hnil. apply wp_try_finally.
  eapply wp_mono; [|apply (update_elb_try_phases _ _ _ _ _ _ _ Hnil)].
  intros o s1 ev0
    (ev1 & ev2 & ev3 & -> & Hans1 & Hi1 & Hall1 & Hc2 & Hi2 & Hc3 & Hans3 & Ho).
  assert (Hclean :
    wp (update_elb_finally env acme_client elb)
       (fun o2 s2 evf =>
          o2 <> Diverged /\
          forall o' : outcome unit, (o' = Returned tt -> o = Returned tt /\ o2 = Returned tt) ->
            guarded_post env acme_client hosts csr fullchain_path (files s)
              o' s2 ((ev1 ++ ev2 ++ ev3) ++ evf)) s1).
  { pose proof (update_elb_finally_spec env acme_client elb s1) as Hspec.
    pose proof (update_elb_finally_quiet acme_client elb s1) as Hquiet.
    unfold wp in *.
    destruct Hspec as (Hf & Ha & Hw & Hx & done & ids & dtail & Hlen & Hdel & Ho2).
    destruct Hquiet as (Hansf & Hif & Hallf).
    split; [by destruct (out (update_elb_finally env acme_client elb s1))|].
    intros o' Ho'.
    exists ev1, ev2, (ev3 ++ events (update_elb_finally env acme_client elb s1)).
    split_and!; try done.
    - by rewrite <- !app_assoc.
    - by rewrite answers_app, Hans3, Hansf.
    - rewrite change_calls_app, Hc3. done.
    - intros Hret. destruct (Ho' Hret) as [-> Hret2]. rewrite Hret2 in Ho2.
      destruct Ho2 as [-> ->]. rewrite app_nil_r in Hdel.
      destruct (Ho eq_refl) as (Hhosts & Hcalls & Hans2 & Hver & c & chain
                                & Hiss & Hfetch & Hwrite & Hfiles).
      exists (authorizations s1), ids, c, chain.
      split_and!; try done.
      + by rewrite change_calls_app, Hc3, Hdel.
      + by rewrite issuances_app, Hiss, Hif.
      + by rewrite chain_fetches_app, Hfetch, Hx.
      + by rewrite file_writes_app, Hwrite, Hw.
      + congruence. }
  destruct o as [[]|e|].
  - eapply wp_mono; [|exact Hclean].
    intros [[]|e2|] s2 evf [Hnd Hpost]; [| |done]; apply Hpost; by intros.
  - eapply wp_mono; [|exact Hclean].
    intros [[]|e2|] s2 evf [Hnd Hpost]; [| |done]; apply Hpost; by intros.
  - exists ev1, ev2, ev3. split_and!; try done.
    rewrite Hc3. constructor.
Qed.

Lemma in_phases_cons e ev :
  answer e = None -> issuance e = None -> change_call e = None ->
  in_phases ev -> in_phases (e :: ev).
Proof.
  intros Ha Hi Hc (ev1 & ev2 & ev3 & -> & H1 & H2 & H3 & H).
  exists (e :: ev1), ev2, ev3.
  unfold answers, issuances, change_calls in *. simpl.
  rewrite Ha, Hi, Hc. destruct H as (H4 & H5 & H6 & H7).
  split_and!; first [done | exact H1 | exact H2 | exact H3].
Qed.

Lemma in_phases_quiet ev :
  answers ev = [] -> issuances ev = [] -> change_calls ev = [] -> in_phases ev.
Proof.
  intros Ha Hi Hc. exists ev, [], []. rewrite !app_nil_r, Hc.
  split_and!; done.
Qed.

(** After the key is written. *)
Lemma update_elb_keyed_phases fuel acme_client elb hosts fullchain_path
    privatekey_path k (s : State) :
  wp (write_file env privatekey_path
        (private_bytes env k PEM TraditionalOpenSSL NoEncryption);;
      csr ← of_result (generate_csr k hosts);
      set_authorizations [];;
      try_finally
        (update_elb_try env fuel acme_client elb hosts csr fullchain_path)
        (update_elb_finally env acme_client elb))
     (fun o s' ev =>
        in_phases ev /\
        (o = Returned tt ->
         renewed env acme_client hosts fullchain_path privatekey_path (files s)
           k s' ev)) s.
Proof.
  run_step. run_step; [|simpl; split; [by apply in_phases_quiet|done]].
  run_steps. simpl.
  destruct (generate_csr k hosts) as [csr|e] eqn:Hcsr; cbv beta iota.
  - run_steps.
    eapply wp_mono; [|apply guarded_phases; reflexivity].
    simpl.
    intros o s' ev
      (ev1 & ev2 & ev3 & -> & Hans1 & Hi1 & Hall1 & Hc2 & Hi2 & Hans3 & Hall3 & Ho).
    split.
    + apply in_phases_cons; try done. by exists ev1, ev2, ev3.
    + intros Hret.
      destruct (Ho Hret) as (recs & ids & c & chain & Hhosts & Hlen & Hcalls
                             & Hans2 & Hver & Hdel & Hiss & Hfetch & Hwrite & Hfiles).
      exists csr, recs, ids, c, chain.
      unfold change_calls, answers, issuances, chain_fetches, file_writes in *.
      simpl. rewrite !omap_app in *.
      rewrite Hcalls, Hc2, Hdel, Hans1, Hans2, Hans3, Hi1, Hi2, Hiss, Hwrite.
      split_and!; try done. by rewrite app_nil_r.
  - split; [by apply in_phases_quiet|done].
Qed.

Lemma update_elb_phases_spec fuel acme_client force_issue elb listener hosts
    key_type cert_only create_listener fullchain_path privatekey_path (s : State) :
  wp (update_elb env fuel acme_client force_issue elb listener hosts key_type
        cert_only create_listener fullchain_path privatekey_path)
     (fun o s' ev =>
        in_phases ev /\
        (o = Returned tt ->
         (key_type = "rsa" \/ key_type = "ecdsa") /\
         exists secret w,
           fresh_key_material env (world s) = (secret, w) /\
           renewed env acme_client hosts fullchain_path privatekey_path (files s)
             (key_of_type key_type secret) s' ev)) s.
Proof.
  unfold update_elb. run_step. run_step. apply wp_bind.
  assert (Hkeyed : forall k (s1 : State) secret w,
            files s1 = files s ->
            fresh_key_material env (world s) = (secret, w) ->
            k = key_of_type key_type secret ->
            key_type = "rsa" \/ key_type = "ecdsa" ->
            wp (write_file env privatekey_path
                  (private_bytes env k PEM TraditionalOpenSSL NoEncryption);;
                csr ← of_result (generate_csr k hosts);
                set_authorizations [];;
                try_finally
                  (update_elb_try env fuel acme_client elb hosts csr fullchain_path)
                  (update_elb_finally env acme_client elb))
               (fun o2 s2 ev2 =>
                  in_phases
                    ([LogEmit "updating-elb" [("elb_name", elb)]]
                       ++ [GenerateKey k] ++ ev2) /\
                  (o2 = Returned tt ->
                   (key_type = "rsa" \/ key_type = "ecdsa") /\
                   exists secret w,
                     fresh_key_material env (world s) = (secret, w) /\
                     renewed env acme_client hosts fullchain_path privatekey_path
                       (files s) (key_of_type key_type secret) s2
                       ([LogEmit "updating-elb" [("elb_name", elb)]]
                          ++ [GenerateKey k] ++ ev2))) s1).
  { intros k s1 secret w Hfiles Hfresh -> Hkey.
    eapply wp_mono; [|apply update_elb_keyed_phases].
    simpl. intros o s' ev [Hph Hren]. split.
    - by repeat (apply in_phases_cons; [done|done|done|]).
    - intros Hret. split; [done|]. exists secret, w. split; [done|].
      rewrite Hfiles in Hren.
      destruct (Hren Hret) as (csr & recs & ids & c & chain & H).
      exists csr, recs, ids, c, chain. exact H. }
  destruct (String.eqb_spec key_type "rsa") as [Hrsa|Hrsa];
    [|destruct (String.eqb_spec key_type "ecdsa") as [Hecdsa|Hecdsa]].
  - do 2 run_step. eapply Hkeyed; eauto.
    unfold key_of_type. by rewrite Hrsa.
  - do 2 run_step. eapply Hkeyed; eauto.
    unfold key_of_type. rewrite Hecdsa. done.
  - run_steps. simpl. split; [by apply in_phases_quiet|done].
Qed.

(** X13: in every run of [update_elb] the record of every host is created
    before any response is submitted, and every response is submitted
    before the certificate is requested and before any record is deleted;
    no CREATE follows a submission and no DELETE precedes one. *)
Theorem update_elb_in_phases fuel acme_client force_issue elb listener hosts
    key_type cert_only create_listener fullchain_path privatekey_path (s : State) :
  in_phases
    (events (update_elb env fuel acme_client force_issue elb listener hosts key_type
               cert_only create_listener fullchain_path privatekey_path s)).
Proof.
  pose proof (update_elb_phases_spec fuel acme_client force_issue elb listener hosts
                key_type cert_only create_listener fullchain_path privatekey_path s)
    as [H _].
  exact H.
Qed.

(** X14: when [update_elb] returns, it has generated one key of the type
    asked for, published a TXT record for every host in the order of the
    list, verified and submitted the response of each, requested one
    certificate for the signing request of that key and those hosts with
    the authorizations of the records, deleted every record it created,
    and written the key to [privatekey_path] and the certificate followed
    by its chain to [fullchain_path]. *)
Theorem update_elb_returned fuel acme_client force_issue elb listener hosts
    key_type cert_only create_listener fullchain_path privatekey_path (s : State) :
  let r := update_elb env fuel acme_client force_issue elb listener hosts key_type
             cert_only create_listener fullchain_path privatekey_path s in
  out r = Returned tt ->
  (key_type = "rsa" \/ key_type = "ecdsa") /\
  exists secret w,
    fresh_key_material env (world s) = (secret, w) /\
    renewed env acme_client hosts fullchain_path privatekey_path (files s)
      (key_of_type key_type secret) (final r) (events r).
Proof.
  intros r Hret.
  pose proof (update_elb_phases_spec fuel acme_client force_issue elb listener hosts
                key_type cert_only create_listener fullchain_path privatekey_path s)
    as [_ H].
  exact (H Hret).
Qed.

(** *** Several entries *)

Lemma for_each_app {A} (body : A -> M unit) (l1 l2 : list A) (s : State) :
  for_each (l1 ++ l2) body s =
  match out (for_each l1 body s) with
  | Returned _ =>
      (out (for_each l2 body (final (for_each l1 body s))),
       final (for_each l2 body (final (for_each l1 body s))),
       events (for_each l1 body s)
         ++ events (for_each l2 body (final (for_each l1 body s))))
  | _ => for_each l1 body s
  end.
Proof.
  revert s. induction l1 as [|x l1 IH]; intros s; simpl.
  - unfold out, final, events. simpl. by destruct (for_each l2 body s) as [[o s'] ev].
  - unfold mbind, M_bind, bind, out, final, events in *. simpl.
    destruct (body x s) as [[[[]|e|] s1] ev1]; simpl; [|done|done].
    rewrite IH.
    destruct (for_each l1 body s1) as [[[[]|e|] s2] ev2]; simpl; [|done|done].
    by rewrite app_assoc.
Qed.

Lemma for_each_one {A} (body : A -> M unit) (x : A) (s : State) :
  out (for_each [x] body s) = out (body x s) /\
  final (for_each [x] body s) = final (body x s) /\
  events (for_each [x] body s) = events (body x s).
Proof.
  simpl. unfold mbind, M_bind, bind, out, final, events. simpl.
  destruct (body x s) as [[[[]|e|] s1] ev1]; simpl; rewrite ?app_nil_r; done.
Qed.

(** X15: [update_elbs] renews the entries one after the other: when the
    run over the first entries returns, the run over these and further
    entries is that run followed by the run over the further entries from
    the state it left. *)
Theorem update_elbs_app fuel acme_client force_issue
    (before after : list DomainEntry) cert_only create_listener
    fullchain_path privatekey_path (s : State) :
  let r1 := update_elbs env fuel acme_client force_issue before
              cert_only create_listener fullchain_path privatekey_path s in
  let r2 := update_elbs env fuel acme_client force_issue after
              cert_only create_listener fullchain_path privatekey_path (final r1) in
  out r1 = Returned tt ->
  update_elbs env fuel acme_client force_issue (before ++ after)
    cert_only create_listener fullchain_path privatekey_path s
  = (out r2, final r2, events r1 ++ events r2).
Proof.
  intros r1 r2 H1. unfold update_elbs. rewrite for_each_app.
  unfold r1, update_elbs in H1. by rewrite H1.
Qed.

(** X16: the entries share the two paths, so after a run of [update_elbs]
    that returns the files are those the entries but the last left, with
    the key and the full chain of the last entry written over them; an
    entry without a key type gets an RSA key. *)
Theorem update_elbs_last_entry fuel acme_client force_issue
    (before : list DomainEntry) domain cert_only create_listener
    fullchain_path privatekey_path (s : State) :
  let r0 := update_elbs env fuel acme_client force_issue before
              cert_only create_listener fullchain_path privatekey_path s in
  let r := update_elbs env fuel acme_client force_issue (before ++ [domain])
             cert_only create_listener fullchain_path privatekey_path s in
  out r = Returned tt ->
  out r0 = Returned tt /\
  exists secret w last,
    events r = events r0 ++ last /\
    fresh_key_material env (world (final r0)) = (secret, w) /\
    renewed env acme_client (entry_hosts domain) fullchain_path privatekey_path
      (files (final r0))
      (key_of_type (default "rsa" (entry_key_type domain)) secret)
      (final r) last.
Proof.
  intros r0 r. subst r0 r. unfold update_elbs. rewrite for_each_app.
  set (body := fun d : DomainEntry =>
    update_elb env fuel acme_client force_issue (elb_name d)
      (default [("load_balancer_port", 443%N)] (elb_listener d))
      (entry_hosts d) (default "rsa" (entry_key_type d))
      cert_only create_listener fullchain_path privatekey_path).
  destruct (out (for_each before body s)) as [[]|e|] eqn:H0.
  - destruct (for_each_one body domain (final (for_each before body s)))
      as (Ho & Hs & Hev).
    rewrite Ho, Hs, Hev. intros Hret. split; [done|].
    change (out (body domain (final (for_each before body s))) = Returned tt)
      in Hret.
    pose proof (update_elb_phases_spec fuel acme_client force_issue
                  (elb_name domain)
                  (default [("load_balancer_port", 443%N)] (elb_listener domain))
                  (entry_hosts domain) (default "rsa" (entry_key_type domain))
                  cert_only create_listener fullchain_path privatekey_path
                  (final (for_each before body s))) as [_ Hren].
    destruct (Hren Hret) as (_ & secret & w & Hfresh & Hrenewed).
    exists secret, w, (events (body domain (final (for_each before body s)))).
    done.
  - intros Hret. rewrite H0 in Hret. done.
  - intros Hret. rewrite H0 in Hret. done.
Qed.

(** *** The name of a certificate *)

Lemma substring_0_length (n : nat) (s : string) :
  (String.length (String.substring 0 n s) <= n)%nat.
Proof.
  revert s. induction n as [|n IH]; intros [|c s]; simpl; try lia.
  specialize (IH s). lia.
Qed.

Lemma substring_0_all (n : nat) (s : string) :
  (String.length s <= n)%nat -> String.substring 0 n s = s.
Proof.
  revert s. induction n as [|n IH]; intros [|c s]; simpl; try done; try lia.
  intros H. f_equal. apply IH. lia.
Qed.

Lemma substring_0_prefix (n : nat) (s : string) :
  exists rest, s = String.substring 0 n s +:+ rest.
Proof.
  revert s. induction n as [|n IH]; intros [|c s]; simpl.
  - by exists EmptyString.
  - by exists (String c s).
  - by exists EmptyString.
  - destruct (IH s) as [rest Hrest]. exists rest.
    change (String c s = String c (String.substring 0 n s +:+ rest)).
    by rewrite <- Hrest.
Qed.

(** X17: a certificate name has at most 128 characters; it is the
    beginning of the text made of the serial number, the expiration date
    and the hosts, and the whole of it when that text is not longer. *)
Theorem generate_certificate_name_cut (hosts : list string) (cert : Certificate) :
  (String.length (generate_certificate_name hosts cert) <= 128)%nat /\
  (exists rest,
     certificate_name_text hosts cert = generate_certificate_name hosts cert +:+ rest) /\
  ((String.length (certificate_name_text hosts cert) <= 128)%nat ->
   generate_certificate_name hosts cert = certificate_name_text hosts cert).
Proof.
  unfold generate_certificate_name. split_and!.
  - apply substring_0_length.
  - apply substring_0_prefix.
  - apply substring_0_all.
Qed.

Lemma has_char_append c (a b : string) :
  has_char c (a +:+ b) = has_char c a || has_char c b.
Proof.
  induction a as [|x a IH]; [done|].
  change (has_char c (String x (a +:+ b)) = has_char c (String x a) || has_char c b).
  simpl. rewrite IH. by rewrite orb_assoc.
Qed.

Lemma has_char_substring c (n : nat) (s : string) :
  has_char c s = false -> has_char c (String.substring 0 n s) = false.
Proof.
  revert s. induction n as [|n IH]; intros [|x s]; simpl; try done.
  rewrite !orb_false_iff. intros [? ?]. auto.
Qed.

Lemma has_char_replace (old new : Ascii.ascii) (s : string) :
  old <> new -> has_char old (replace_char old new s) = false.
Proof.
  intros Hne. induction s as [|x s IH]; [done|]. simpl. rewrite IH, orb_false_r.
  destruct (Ascii.eqb_spec x old) as [->|Hx].
  - by apply Ascii.eqb_neq.
  - by apply Ascii.eqb_neq.
Qed.

Lemma has_char_join c (sep : string) (parts : list string) :
  has_char c sep = false -> Forall (fun p => has_char c p = false) parts ->
  has_char c (join sep parts) = false.
Proof.
  intros Hsep. induction 1 as [|p parts Hp Hparts IH]; [done|].
  destruct parts as [|q parts]; [done|].
  change (has_char c (p +:+ sep +:+ join sep (q :: parts)) = false).
  by rewrite !has_char_append, Hp, Hsep, IH.
Qed.

Lemma pretty_N_char_not_dot (x : N) : Ascii.eqb (pretty_N_char x) dot = false.
Proof. unfold pretty_N_char. by repeat case_match. Qed.

Lemma pretty_N_go_no_dot (x : N) (s : string) :
  has_char dot s = false -> has_char dot (pretty_N_go x s) = false.
Proof.
  revert s. induction (N.lt_wf_0 x) as [x _ IH]; intros s Hs.
  destruct (decide (x = 0%N)) as [->|Hx]; [by rewrite pretty_N_go_0|].
  rewrite pretty_N_go_step by lia. apply IH.
  - apply N.div_lt; lia.
  - simpl. by rewrite pretty_N_char_not_dot.
Qed.

Lemma pretty_N_no_dot (x : N) : has_char dot (pretty x) = false.
Proof.
  unfold pretty, pretty_N. case_decide; [done|]. by apply pretty_N_go_no_dot.
Qed.

Lemma zfill_no_dot (width : nat) (s : string) :
  has_char dot s = false -> has_char dot (zfill width s) = false.
Proof.
  intros Hs. unfold zfill. rewrite has_char_append, Hs, orb_false_r.
  induction (width - String.length s)%nat as [|n IH]; [done|].
  exact IH.
Qed.

(** X18: a certificate name holds no dot: the dots of the hosts are
    replaced by underscores, and the serial number and the date have
    none. *)
Theorem generate_certificate_name_no_dot (hosts : list string) (cert : Certificate) :
  has_char dot (generate_certificate_name hosts cert) = false.
Proof.
  unfold generate_certificate_name, certificate_name_text, isoformat.
  apply has_char_substring.
  rewrite !has_char_append, !zfill_no_dot, !pretty_N_no_dot by apply pretty_N_no_dot.
  simpl. apply has_char_join; [done|].
  apply Forall_forall. intros p Hp. apply list_elem_of_fmap in Hp as (h & -> & _).
  by apply has_char_replace.
Qed.

(** *** The certificate of a load balancer *)

Lemma scan_listeners_first elb_port listeners before listener after :
  first_on_port elb_port listeners before listener after ->
  scan_listeners elb_port listeners =
  match SSLCertificateId listener with
  | Some arn => Found (CertificateId arn)
  | None => Failed (KeyError "SSLCertificateId")
  end.
Proof.
  intros (-> & Hbefore & Hport).
  induction Hbefore as [|l before Hl _ IH]; simpl.
  - by rewrite Hport, N.eqb_refl.
  - apply N.eqb_neq in Hl. by rewrite Hl.
Qed.

Lemma scan_listeners_cases elb_port listeners :
  Forall (fun l => LoadBalancerPort l <> elb_port) listeners \/
  exists before listener after,
    first_on_port elb_port listeners before listener after.
Proof.
  induction listeners as [|l listeners IH]; [left; constructor|].
  destruct (N.eqb_spec (LoadBalancerPort l) elb_port) as [Heq|Hne].
  - right. exists [], l, listeners. split_and!; [done|constructor|done].
  - destruct IH as [Hall|(before & listener & after & -> & Hb & Hp)].
    + left. by constructor.
    + right. exists (l :: before), listener, after.
      split_and!; [done|by constructor|done].
Qed.

(** X19: for a load balancer that is described once,
    [get_load_balancer_certificate] answers for the first listener on the
    port asked for (443 when the listener of the configuration names
    none): its certificate id, or a KeyError when that listener has no
    certificate, whatever the listeners after it hold.  Without a listener
    on the port it returns [False]. *)
Theorem get_load_balancer_certificate_first_listener (elb_client : ElbClient)
    (elb_name : string) (listener : Listener) (description : LoadBalancerDescription) :
  describe_load_balancers elb_client [elb_name] = Ok [description] ->
  let elb_port := dict_get "load_balancer_port" 443 listener in
  let r := get_load_balancer_certificate elb_client elb_name listener in
  (forall before l after,
     first_on_port elb_port (ListenerDescriptions description) before l after ->
     r = match SSLCertificateId l with
         | Some arn => Found (CertificateId arn)
         | None => Failed (KeyError "SSLCertificateId")
         end) /\
  (r = Found NoCertificate <->
   Forall (fun l => LoadBalancerPort l <> elb_port) (ListenerDescriptions description)) /\
  (listener = [] -> elb_port = 443%N).
Proof.
  intros Hdesc elb_port r. subst r. unfold get_load_balancer_certificate.
  rewrite Hdesc. fold elb_port. split_and!.
  - intros before l after Hfirst. by apply scan_listeners_first with before after.
  - split.
    + intros Hnone.
      destruct (scan_listeners_cases elb_port (ListenerDescriptions description))
        as [Hall|(before & l & after & Hfirst)]; [done|].
      rewrite (scan_listeners_first _ _ _ _ _ Hfirst) in Hnone.
      by destruct (SSLCertificateId l).
    + intros Hall. induction Hall as [|l ls Hl _ IH]; [done|].
      simpl. apply N.eqb_neq in Hl. by rewrite Hl.
  - by intros ->.
Qed.

(** X20: when the description of the load balancer cannot be had, the
    error of the client is raised; when the client describes no load
    balancer, or more than one, unpacking the descriptions raises
    ValueError.  No listener is looked at. *)
Theorem get_load_balancer_certificate_not_one (elb_client : ElbClient)
    (elb_name : string) (listener : Listener) :
  let r := get_load_balancer_certificate elb_client elb_name listener in
  (forall e, describe_load_balancers elb_client [elb_name] = Err e ->
     r = Failed (Propagated e)) /\
  (forall descriptions,
     describe_load_balancers elb_client [elb_name] = Ok descriptions ->
     length descriptions <> 1%nat ->
     exists message, r = Failed (Propagated (ValueError message))).
Proof.
  intros r. subst r. unfold get_load_balancer_certificate. split.
  - by intros e ->.
  - intros descriptions -> Hlen.
    destruct descriptions as [|d [|d' ds]]; [by eexists|done|by eexists].
Qed.

(** *** The expiration date of a certificate *)

Lemma scan_certificates_app arn (l1 l2 : list ServerCertificateMetadata) :
  scan_certificates arn (l1 ++ l2) =
  match scan_certificates arn l1 with
  | Some expiration => Some expiration
  | None => scan_certificates arn l2
  end.
Proof.
  induction l1 as [|c l1 IH]; [done|]. simpl.
  by destruct (String.eqb (Arn c) arn).
Qed.

Lemma scan_certificates_first arn certificates expiration :
  scan_certificates arn certificates = Some expiration ->
  exists before c after,
    certificates = before ++ c :: after /\
    Forall (fun c' => Arn c' <> arn) before /\
    Arn c = arn /\ Expiration c = expiration.
Proof.
  induction certificates as [|c certificates IH]; [done|]. simpl.
  destruct (String.eqb_spec (Arn c) arn) as [Heq|Hne].
  - intros [= <-]. exists [], c, certificates. split_and!; done.
  - intros H. destruct (IH H) as (before & c' & after & -> & Hb & Ha & He).
    exists (c :: before), c', after. split_and!; try done. by constructor.
Qed.

(** X21: [get_expiration_date_for_certificate] returns the expiration of
    the first certificate with the ARN asked for, in the order of the
    listing; finding it ends the listing, so that the later pages do not
    matter.  It returns [None] when every page was fetched and holds no
    such certificate, and raises the error of a page that cannot be
    fetched before the certificate was found. *)
Theorem get_expiration_date_for_certificate_first (iam_client : IamClient)
    (arn : string) (fetched : list (list ServerCertificateMetadata)) :
  let r := get_expiration_date_for_certificate iam_client arn in
  (forall later expiration,
     list_server_certificates iam_client = (Ok <$> fetched) ++ later ->
     scan_certificates arn (concat fetched) = Some expiration ->
     r = Ok (Some expiration) /\
     exists before c after,
       concat fetched = before ++ c :: after /\
       Forall (fun c' => Arn c' <> arn) before /\
       Arn c = arn /\ Expiration c = expiration) /\
  (list_server_certificates iam_client = Ok <$> fetched ->
   scan_certificates arn (concat fetched) = None ->
   r = Ok None) /\
  (forall e later,
     list_server_certificates iam_client = (Ok <$> fetched) ++ Err e :: later ->
     scan_certificates arn (concat fetched) = None ->
     r = Err e).
Proof.
  intros r. subst r. unfold get_expiration_date_for_certificate.
  assert (Hscan : forall later,
    scan_certificate_pages arn ((Ok <$> fetched) ++ later) =
    match scan_certificates arn (concat fetched) with
    | Some expiration => Ok (Some expiration)
    | None => scan_certificate_pages arn later
    end).
  { intros later. induction fetched as [|page fetched IH]; [done|].
    rewrite fmap_cons. simpl. rewrite scan_certificates_app.
    destruct (scan_certificates arn page); [done|]. apply IH. }
  split_and!.
  - intros later expiration -> Hfound. rewrite Hscan, Hfound.
    split; [done|]. by apply scan_certificates_first.
  - intros Hpages Hnone. rewrite <- (app_nil_r (Ok <$> fetched)) in Hpages.
    by rewrite Hpages, Hscan, Hnone.
  - intros e later -> Hnone. by rewrite Hscan, Hnone.
Qed.

End Extras.

(** ** The further properties in the scripted worlds *)

(** A listing whose second page cannot be fetched. *)
Definition broken_listing : Scenario.Config :=
  {| Scenario.pages := [Ok [Scenario.example_org];
                        Err (ClientError "route53" "Throttling");
                        Ok [Scenario.example_com]];
     Scenario.offered := Scenario.offered Scenario.sunny;
     Scenario.refused := fun _ => false;
     Scenario.pending_polls := 0;
     Scenario.verifies := true;
     Scenario.issues := true;
     Scenario.unwritable := fun _ => false |}.

(** The provider refuses to create the record of one host. *)
Definition create_refused (h : string) : Scenario.Config :=
  {| Scenario.pages := [Ok [Scenario.example_com]];
     Scenario.offered := Scenario.offered Scenario.sunny;
     Scenario.refused := fun req =>
       String.eqb (Action req) "CREATE"
       && String.eqb (RecordName req) ("_acme-challenge." +:+ h);
     Scenario.pending_polls := 0;
     Scenario.verifies := true;
     Scenario.issues := true;
     Scenario.unwritable := fun _ => false |}.

(** An entry with an elliptic-curve key. *)
Definition third_entry : DomainEntry :=
  {| elb_name := "third"; elb_listener := None;
     entry_hosts := ["c.example.com"; "d.example.com"];
     entry_key_type := Some "ecdsa" |}.

(** A load balancer with a plain listener and two listeners on 443. *)
Definition one_balancer : ElbClient :=
  {| describe_load_balancers := fun _ =>
       Ok [ {| ListenerDescriptions :=
                 [ {| LoadBalancerPort := 80; SSLCertificateId := None |};
                   {| LoadBalancerPort := 443; SSLCertificateId := Some "arn:one" |};
                   {| LoadBalancerPort := 443; SSLCertificateId := Some "arn:two" |} ] |} ] |}.

(** A client that describes no load balancer. *)
Definition no_balancer : ElbClient :=
  {| describe_load_balancers := fun _ => Ok [] |}.

(** Two pages of certificates and a third that cannot be fetched. *)
Definition expires (y : N) : datetime :=
  {| dt_date := {| year := y; month := 1; day := 31 |}; dt_seconds := 0 |}.

Definition three_pages : IamClient :=
  {| list_server_certificates :=
       [ Ok [ {| Arn := "arn:one"; Expiration := expires 2016 |} ];
         Ok [ {| Arn := "arn:two"; Expiration := expires 2017 |};
              {| Arn := "arn:two"; Expiration := expires 2018 |} ];
         Err (ClientError "iam" "Throttling") ] |}.

(** A signing request without names. *)
Definition an_unsigned_request : CertificateSigningRequest :=
  {| csr_subject := []; csr_extensions := [];
     csr_key := RSAPrivateKey 65537 2048 "secret"; csr_hash := "SHA256" |}.

Lemma zone_matches_any_prefix_witness :
  Name Scenario.example_com = "example.com" +:+ "." /\
  zone_matches ("not-" +:+ "example.com") Scenario.example_com = true /\
  zone_matches "example.com" Scenario.example_com = true.
Proof.
  split; [reflexivity|].
  exact (zone_matches_any_prefix "not-" "example.com" Scenario.example_com eq_refl).
Defined.

Lemma find_zone_id_for_domain_stops_at_match_witness :
  let r := find_zone_id_for_domain (Scenario.env broken_listing) "a.example.org"
             Scenario.start in
  out r = Returned (Some "Z9") /\ final r = Scenario.start /\
  (length (events r) <= length [[Scenario.example_org]])%nat.
Proof.
  exact (find_zone_id_for_domain_stops_at_match (Scenario.env broken_listing)
           "a.example.org" [[Scenario.example_org]]
           [Err (ClientError "route53" "Throttling"); Ok [Scenario.example_com]]
           "Z9" Scenario.start eq_refl eq_refl).
Defined.

Lemma find_zone_id_for_domain_listing_error_witness :
  let r := find_zone_id_for_domain (Scenario.env broken_listing) "a.example.com"
             Scenario.start in
  out r = Raised (ClientError "route53" "Throttling") /\ final r = Scenario.start /\
  events r = (ListHostedZonesPage <$> (Ok <$> [[Scenario.example_org]]))
               ++ [ListHostedZonesPage (Err (ClientError "route53" "Throttling"))].
Proof.
  exact (find_zone_id_for_domain_listing_error (Scenario.env broken_listing)
           "a.example.com" [[Scenario.example_org]]
           (ClientError "route53" "Throttling") [Ok [Scenario.example_com]]
           Scenario.start eq_refl eq_refl).
Defined.

Lemma start_dns_challenge_effects_witness :
  let r := start_dns_challenge (Scenario.env Scenario.sunny) Scenario.client "elb"
             "a.example.com" Scenario.start in
  out r = Returned (Scenario.record_of "a.example.com") /\
  host (Scenario.record_of "a.example.com") = "a.example.com" /\
  change_calls (events r) =
    [(record_request (Scenario.env Scenario.sunny) Scenario.client "CREATE"
        (Scenario.record_of "a.example.com"),
      Ok (route53_change_id (Scenario.record_of "a.example.com")))].
Proof.
  assert (H : out (start_dns_challenge (Scenario.env Scenario.sunny) Scenario.client
                     "elb" "a.example.com" Scenario.start)
              = Returned (Scenario.record_of "a.example.com")).
  { vm_compute. reflexivity. }
  split; [exact H|].
  exact (proj2 (proj2 (proj2 (proj2 (proj2 (proj2 (proj2
           (start_dns_challenge_effects (Scenario.env Scenario.sunny) Scenario.client
              "elb" "a.example.com" Scenario.start)))))))
           (Scenario.record_of "a.example.com") H).
Defined.

Lemma start_dns_challenge_asks_authority_first_witness :
  let r := start_dns_challenge (Scenario.env Scenario.sunny) Scenario.client "elb"
             "a.example.com" Scenario.start in
  zone_listings (events r) <> [] /\
  exists a c w,
    request_domain_challenges (Scenario.env Scenario.sunny) "a.example.com"
      (new_authz Scenario.client) (world Scenario.start) = (Ok a, w) /\
    find_dns_challenge a = [c].
Proof.
  assert (H : zone_listings
                (events (start_dns_challenge (Scenario.env Scenario.sunny)
                           Scenario.client "elb" "a.example.com" Scenario.start))
              <> []).
  { vm_compute. discriminate. }
  split; [exact H|].
  exact (start_dns_challenge_asks_authority_first (Scenario.env Scenario.sunny)
           Scenario.client "elb" "a.example.com" Scenario.start (or_introl H)).
Defined.

Lemma request_certificate_result_witness :
  let r := request_certificate (Scenario.env Scenario.no_issuance) Scenario.client
             "elb" [Scenario.record_of "a.example.com"]
             an_unsigned_request
             Scenario.start in
  out r = Raised (ClientError "acme" "issuance refused") /\
  chain_fetches (events r) = [].
Proof.
  assert (H : out (request_certificate (Scenario.env Scenario.no_issuance)
                     Scenario.client "elb" [Scenario.record_of "a.example.com"]
                     an_unsigned_request Scenario.start)
              = Raised (ClientError "acme" "issuance refused")).
  { vm_compute. reflexivity. }
  split; [exact H|].
  exact (proj1 (proj1 (proj2
           (request_certificate_result (Scenario.env Scenario.no_issuance)
              Scenario.client "elb" [Scenario.record_of "a.example.com"]
              an_unsigned_request
              Scenario.start)) _ H)).
Defined.



Lemma update_elb_refused_create_is_last_witness :
  let r := Scenario.renew (create_refused "b.example.com")
             ["a.example.com"; "b.example.com"; "c.example.com"] in
  let a := Scenario.record_of "a.example.com" in
  let b := Scenario.record_of "b.example.com" in
  let env := Scenario.env (create_refused "b.example.com") in
  filter (fun c => has_action "CREATE" c = true) (change_calls (events r))
    = [(record_request env Scenario.client "CREATE" a, Ok (route53_change_id a))]
        ++ (record_request env Scenario.client "CREATE" b,
            Err (ClientError "route53" "InvalidChangeBatch")) :: [] /\
  Forall (fun c => answered_ok c = true)
    [(record_request env Scenario.client "CREATE" a, Ok (route53_change_id a))].
Proof.
  assert (H : filter (fun c => has_action "CREATE" c = true)
                (change_calls
                   (events (Scenario.renew (create_refused "b.example.com")
                              ["a.example.com"; "b.example.com"; "c.example.com"])))
              = [(record_request (Scenario.env (create_refused "b.example.com"))
                    Scenario.client "CREATE" (Scenario.record_of "a.example.com"),
                  Ok (route53_change_id (Scenario.record_of "a.example.com")))]
                ++ (record_request (Scenario.env (create_refused "b.example.com"))
                      Scenario.client "CREATE" (Scenario.record_of "b.example.com"),
                    Err (ClientError "route53" "InvalidChangeBatch")) :: []).
  { vm_compute. reflexivity. }
  split; [exact H|].
  exact (proj2 (update_elb_refused_create_is_last
                  (Scenario.env (create_refused "b.example.com")) 3 Scenario.client
                  false "elb" [("load_balancer_port", 443%N)]
                  ["a.example.com"; "b.example.com"; "c.example.com"] "rsa"
                  false false "/fullchain" "/key" Scenario.start _ _ _ _ H)).
Defined.

Lemma update_elb_returned_witness :
  let r := Scenario.renew Scenario.sunny ["a.example.com"; "b.example.com"] in
  out r = Returned tt /\
  exists secret w,
    fresh_key_material (Scenario.env Scenario.sunny) (world Scenario.start)
      = (secret, w) /\
    renewed (Scenario.env Scenario.sunny) Scenario.client
      ["a.example.com"; "b.example.com"] "/fullchain" "/key" (files Scenario.start)
      (key_of_type "rsa" secret) (final r) (events r).
Proof.
  assert (H : out (Scenario.renew Scenario.sunny ["a.example.com"; "b.example.com"])
              = Returned tt).
  { vm_compute. reflexivity. }
  split; [exact H|].
  exact (proj2 (update_elb_returned (Scenario.env Scenario.sunny) 3 Scenario.client
                  false "elb" [("load_balancer_port", 443%N)]
                  ["a.example.com"; "b.example.com"] "rsa" false false
                  "/fullchain" "/key" Scenario.start H)).
Defined.

Lemma update_elbs_app_witness :
  let r1 := update_elbs (Scenario.env Scenario.sunny) 3 Scenario.client false
              [Scenario.second_entry] false false "/fullchain" "/key"
              Scenario.start in
  let r2 := update_elbs (Scenario.env Scenario.sunny) 3 Scenario.client false
              [third_entry; Scenario.first_entry] false false "/fullchain" "/key"
              (final r1) in
  out r1 = Returned tt /\
  update_elbs (Scenario.env Scenario.sunny) 3 Scenario.client false
    ([Scenario.second_entry] ++ [third_entry; Scenario.first_entry])
    false false "/fullchain" "/key" Scenario.start
  = (out r2, final r2, events r1 ++ events r2).
Proof.
  assert (H : out (update_elbs (Scenario.env Scenario.sunny) 3 Scenario.client false
                     [Scenario.second_entry] false false "/fullchain" "/key"
                     Scenario.start) = Returned tt).
  { vm_compute. reflexivity. }
  split; [exact H|].
  exact (update_elbs_app (Scenario.env Scenario.sunny) 3 Scenario.client false
           [Scenario.second_entry] [third_entry; Scenario.first_entry]
           false false "/fullchain" "/key" Scenario.start H).
Defined.

Lemma update_elbs_last_entry_witness :
  let r0 := update_elbs (Scenario.env Scenario.sunny) 3 Scenario.client false
              [Scenario.second_entry] false false "/fullchain" "/key"
              Scenario.start in
  let r := update_elbs (Scenario.env Scenario.sunny) 3 Scenario.client false
             ([Scenario.second_entry] ++ [third_entry]) false false
             "/fullchain" "/key" Scenario.start in
  out r = Returned tt /\
  out r0 = Returned tt /\
  exists secret w last,
    events r = events r0 ++ last /\
    fresh_key_material (Scenario.env Scenario.sunny) (world (final r0))
      = (secret, w) /\
    renewed (Scenario.env Scenario.sunny) Scenario.client (entry_hosts third_entry)
      "/fullchain" "/key" (files (final r0))
      (key_of_type (default "rsa" (entry_key_type third_entry)) secret)
      (final r) last.
Proof.
  assert (H : out (update_elbs (Scenario.env Scenario.sunny) 3 Scenario.client false
                     ([Scenario.second_entry] ++ [third_entry]) false false
                     "/fullchain" "/key" Scenario.start) = Returned tt).
  { vm_compute. reflexivity. }
  split; [exact H|].
  exact (update_elbs_last_entry (Scenario.env Scenario.sunny) 3 Scenario.client false
           [Scenario.second_entry] third_entry false false "/fullchain" "/key"
           Scenario.start H).
Defined.

Lemma generate_certificate_name_cut_witness :
  let cert := {| serial := 4660; not_valid_after := expires 2016 |} in
  (String.length (certificate_name_text ["a.example.com"] cert) <= 128)%nat /\
  generate_certificate_name ["a.example.com"] cert = "4660-2016-01-31-a_example_com".
Proof.
  assert (H : (String.length
                 (certificate_name_text ["a.example.com"]
                    {| serial := 4660; not_valid_after := expires 2016 |})
               <= 128)%nat).
  { vm_compute. lia. }
  split; [exact H|].
  exact (eq_trans
           (proj2 (proj2 (generate_certificate_name_cut ["a.example.com"]
                            {| serial := 4660; not_valid_after := expires 2016 |})) H)
           eq_refl).
Defined.

Lemma get_load_balancer_certificate_first_listener_witness :
  describe_load_balancers one_balancer ["elb"]
    = Ok [ {| ListenerDescriptions :=
                [ {| LoadBalancerPort := 80; SSLCertificateId := None |};
                  {| LoadBalancerPort := 443; SSLCertificateId := Some "arn:one" |};
                  {| LoadBalancerPort := 443; SSLCertificateId := Some "arn:two" |} ] |} ] /\
  get_load_balancer_certificate one_balancer "elb" [] = Found (CertificateId "arn:one").
Proof.
  split; [reflexivity|].
  refine (proj1 (get_load_balancer_certificate_first_listener one_balancer "elb" []
                   _ eq_refl)
            [ {| LoadBalancerPort := 80; SSLCertificateId := None |} ]
            {| LoadBalancerPort := 443; SSLCertificateId := Some "arn:one" |}
            [ {| LoadBalancerPort := 443; SSLCertificateId := Some "arn:two" |} ] _).
  split; [reflexivity|]. split; [|reflexivity].
  constructor; [discriminate|constructor].
Defined.

Lemma get_load_balancer_certificate_not_one_witness :
  describe_load_balancers no_balancer ["elb"] = Ok [] /\
  exists message,
    get_load_balancer_certificate no_balancer "elb" [("load_balancer_port", 8443%N)]
    = Failed (Propagated (ValueError message)).
Proof.
  split; [reflexivity|].
  refine (proj2 (get_load_balancer_certificate_not_one no_balancer "elb"
                   [("load_balancer_port", 8443%N)]) [] eq_refl _).
  discriminate.
Defined.

Lemma get_expiration_date_for_certificate_first_witness :
  list_server_certificates three_pages
    = (Ok <$> [ [ {| Arn := "arn:one"; Expiration := expires 2016 |} ];
                [ {| Arn := "arn:two"; Expiration := expires 2017 |};
                  {| Arn := "arn:two"; Expiration := expires 2018 |} ] ])
        ++ [Err (ClientError "iam" "Throttling")] /\
  get_expiration_date_for_certificate three_pages "arn:two" = Ok (Some (expires 2017)) /\
  get_expiration_date_for_certificate three_pages "arn:three"
    = Err (ClientError "iam" "Throttling").
Proof.
  split; [reflexivity|]. split.
  - exact (proj1 (proj1 (get_expiration_date_for_certificate_first three_pages "arn:two"
                    [ [ {| Arn := "arn:one"; Expiration := expires 2016 |} ];
                      [ {| Arn := "arn:two"; Expiration := expires 2017 |};
                        {| Arn := "arn:two"; Expiration := expires 2018 |} ] ])
                   [Err (ClientError "iam" "Throttling")] (expires 2017)
                   eq_refl eq_refl)).
  - exact (proj2 (proj2 (get_expiration_date_for_certificate_first three_pages
                    "arn:three"
                    [ [ {| Arn := "arn:one"; Expiration := expires 2016 |} ];
                      [ {| Arn := "arn:two"; Expiration := expires 2017 |};
                        {| Arn := "arn:two"; Expiration := expires 2018 |} ] ]))
                   (ClientError "iam" "Throttling") [] eq_refl eq_refl).
Defined.
